(** * r3f-grass: the procedural grass pipeline, embedded and verified

    The development follows the repository's sources:
    - [grass/constants.ts] and [grass/utils.ts]: instance layout and
      position texture (module [Layout]);
    - the compute shader of [Grass.tsx]: clump locator and parameter
      synthesis (module [Compute]);
    - [grass/shaders/grassVertex.glsl]: the blade deformer (module
      [Vertex]), its cubic variant with [applyWindPush] and [applyWindSway]
      (module [VertexCubic]) and the first variant with a guarded frame
      (module [VertexEarly]);
    - the TSL compute function [createGrassCompute] (module [Tsl]).

    Numbers are real numbers: shader and JavaScript arithmetic is idealised,
    rounding is not modelled.  An operation whose result GLSL leaves undefined
    (normalising a zero-length vector) returns [None], and the program that
    uses it is written in the option monad. *)

From Stdlib Require Import Reals Lra Lia ZArith List.
From stdpp Require Import base list.

Open Scope R_scope.

(** ** GLSL vectors and built-in functions *)

Module GLSL.

Record vec2 := Vec2 { x2 : R; y2 : R }.
Record vec3 := Vec3 { x3 : R; y3 : R; z3 : R }.
Record vec4 := Vec4 { x4 : R; y4 : R; z4 : R; w4 : R }.

Definition add2 (a b : vec2) : vec2 := Vec2 (x2 a + x2 b) (y2 a + y2 b).
Definition sub2 (a b : vec2) : vec2 := Vec2 (x2 a - x2 b) (y2 a - y2 b).
Definition scale2 (a : vec2) (k : R) : vec2 := Vec2 (x2 a * k) (y2 a * k).
Definition div2 (a : vec2) (k : R) : vec2 := Vec2 (x2 a / k) (y2 a / k).
Definition dot2 (a b : vec2) : R := x2 a * x2 b + y2 a * y2 b.
Definition length2 (a : vec2) : R := sqrt (dot2 a a).

Definition add3 (a b : vec3) : vec3 :=
  Vec3 (x3 a + x3 b) (y3 a + y3 b) (z3 a + z3 b).
Definition sub3 (a b : vec3) : vec3 :=
  Vec3 (x3 a - x3 b) (y3 a - y3 b) (z3 a - z3 b).
Definition scale3 (a : vec3) (k : R) : vec3 :=
  Vec3 (x3 a * k) (y3 a * k) (z3 a * k).
Definition mul3 (a b : vec3) : vec3 :=
  Vec3 (x3 a * x3 b) (y3 a * y3 b) (z3 a * z3 b).
Definition neg3 (a : vec3) : vec3 := Vec3 (- x3 a) (- y3 a) (- z3 a).
Definition dot3 (a b : vec3) : R := x3 a * x3 b + y3 a * y3 b + z3 a * z3 b.
Definition length3 (a : vec3) : R := sqrt (dot3 a a).
Definition cross (a b : vec3) : vec3 :=
  Vec3 (y3 a * z3 b - z3 a * y3 b)
       (z3 a * x3 b - x3 a * z3 b)
       (x3 a * y3 b - y3 a * x3 b).

(** [normalize] is undefined on a zero-length vector. *)
Definition normalize (a : vec3) : option vec3 :=
  if Req_dec_T (length3 a) 0 then None else Some (scale3 a (/ length3 a)).

(** Swizzles used by the shaders. *)
Definition xz (a : vec3) : vec2 := Vec2 (x3 a) (z3 a).
Definition set_xz (a : vec3) (p : vec2) : vec3 := Vec3 (x2 p) (y3 a) (y2 p).
Definition xz4 (a : vec4) : vec2 := Vec2 (x4 a) (z4 a).

Definition floor (x : R) : R := IZR (Int_part x).
Definition fract (x : R) : R := x - floor x.
Definition mod_ (x y : R) : R := x - y * floor (x / y).
Definition floor2 (a : vec2) : vec2 := Vec2 (floor (x2 a)) (floor (y2 a)).
Definition clamp (x lo hi : R) : R := Rmin (Rmax x lo) hi.
Definition mix (a b t : R) : R := a * (1 - t) + b * t.
Definition smoothstep (e0 e1 x : R) : R :=
  let t := clamp ((x - e0) / (e1 - e0)) 0 1 in
  t * t * (3 - 2 * t).
Definition inversesqrt (x : R) : R := / sqrt x.

(** Conversion of a float to [int]: truncation toward zero. *)
Definition int_ (x : R) : Z :=
  if Rle_dec 0 x then Int_part x else (- Int_part (- x))%Z.

(** [atan(y, x)]: the angle of the point [(x, y)], in (-PI, PI]; 0 at the
    origin, where GLSL leaves it undefined. *)
Definition atan2 (y x : R) : R :=
  if Rlt_dec 0 x then atan (y / x)
  else if Rlt_dec x 0 then
         (if Rle_dec 0 y then atan (y / x) + PI else atan (y / x) - PI)
  else if Rlt_dec 0 y then PI / 2
  else if Rlt_dec y 0 then - (PI / 2)
  else 0.

(** [pow x y] is [exp (y * ln x)] for [x > 0] and 0 at [x = 0]; GLSL leaves
    it undefined for [x < 0], where it is 0 here. *)
Definition pow (x y : R) : R :=
  if Rle_dec x 0 then 0 else Rpower x y.

(** Matrices are stored by columns, as [mat3(c0, c1, c2)] builds them. *)
Record mat3 := Mat3 { m3c0 : vec3; m3c1 : vec3; m3c2 : vec3 }.
Record mat4 := Mat4 { m4c0 : vec4; m4c1 : vec4; m4c2 : vec4; m4c3 : vec4 }.

Definition transpose (m : mat3) : mat3 :=
  Mat3 (Vec3 (x3 (m3c0 m)) (x3 (m3c1 m)) (x3 (m3c2 m)))
       (Vec3 (y3 (m3c0 m)) (y3 (m3c1 m)) (y3 (m3c2 m)))
       (Vec3 (z3 (m3c0 m)) (z3 (m3c1 m)) (z3 (m3c2 m))).

Definition mulM3 (m : mat3) (v : vec3) : vec3 :=
  add3 (add3 (scale3 (m3c0 m) (x3 v)) (scale3 (m3c1 m) (y3 v)))
       (scale3 (m3c2 m) (z3 v)).

Definition scale4 (a : vec4) (k : R) : vec4 :=
  Vec4 (x4 a * k) (y4 a * k) (z4 a * k) (w4 a * k).
Definition add4 (a b : vec4) : vec4 :=
  Vec4 (x4 a + x4 b) (y4 a + y4 b) (z4 a + z4 b) (w4 a + w4 b).
Definition mulM4 (m : mat4) (v : vec4) : vec4 :=
  add4 (add4 (add4 (scale4 (m4c0 m) (x4 v)) (scale4 (m4c1 m) (y4 v)))
             (scale4 (m4c2 m) (z4 v)))
       (scale4 (m4c3 m) (w4 v)).
Definition mulMM4 (a b : mat4) : mat4 :=
  Mat4 (mulM4 a (m4c0 b)) (mulM4 a (m4c1 b))
       (mulM4 a (m4c2 b)) (mulM4 a (m4c3 b)).
Definition xyz (a : vec4) : vec3 := Vec3 (x4 a) (y4 a) (z4 a).
Definition vec4_of (a : vec3) (w : R) : vec4 := Vec4 (x3 a) (y3 a) (z3 a) w.

End GLSL.

Import GLSL.

(** ** Offscreen parameter pass (grassComputeShader of Grass.tsx) *)

Module Compute.

Record uniforms := Uniforms {
  uResolution : vec2;
  bladeHeight : R;
  bladeWidth : R;
  bendAmount : R;
  clumpSize : R;
  clumpRadius : R
}.

Definition hash11 (x : R) : R :=
  fract (sin (x * 37.0) * 43758.5453123).

Definition hash21 (p : vec2) : vec2 :=
  let h1 := hash11 (dot2 p (Vec2 127.1 311.7)) in
  let h2 := hash11 (dot2 p (Vec2 269.5 183.3)) in
  Vec2 h1 h2.

Definition hash2 (p : vec2) : vec2 :=
  let x := dot2 p (Vec2 127.1 311.7) in
  let y := dot2 p (Vec2 269.5 183.3) in
  Vec2 (fract (sin x * 43758.5453)) (fract (sin y * 43758.5453)).

(** The 3x3 neighbourhood in the order of the loops: [j] outer, [i] inner. *)
Definition neighborhood : list (Z * Z) :=
  flat_map (fun j => map (fun i => (i, j)) [-1; 0; 1]%Z) [-1; 0; 1]%Z.

Definition neighborCellOf (baseCell : vec2) (ij : Z * Z) : vec2 :=
  add2 baseCell (Vec2 (IZR (fst ij)) (IZR (snd ij))).

(** Squared distance, in cell units, from [cell] to the seed of
    [neighborCell]: [seed], [seedCoord], [diff], [d2] of the loop body. *)
Definition seedDist2 (cell neighborCell : vec2) : R :=
  let seed := hash2 neighborCell in
  let seedCoord := add2 neighborCell seed in
  let diff := sub2 cell seedCoord in
  dot2 diff diff.

(** One iteration of the loop body on the state [(minDist, bestCellId)]. *)
Definition clumpStep (cell baseCell : vec2) (st : R * vec2) (ij : Z * Z)
  : R * vec2 :=
  let neighborCell := neighborCellOf baseCell ij in
  let d2 := seedDist2 cell neighborCell in
  if Rlt_dec d2 (fst st) then (d2, neighborCell) else st.

Definition getClumpInfo (clumpSize : R) (worldXZ : vec2) : vec3 :=
  let cell := div2 worldXZ clumpSize in
  let baseCell := floor2 cell in
  let '(minDist, bestCellId) :=
    fold_left (clumpStep cell baseCell) neighborhood (1e9, Vec2 0.0 0.0) in
  let distToCenter := sqrt minDist * clumpSize in
  Vec3 distToCenter (x2 bestCellId) (y2 bestCellId).

Definition getClumpParams (u : uniforms) (cellId : vec2) : vec4 :=
  let c1 := hash21 (scale2 cellId 11.0) in
  let c2 := hash21 (scale2 cellId 23.0) in
  let clumpBaseHeight := bladeHeight u * (0.8 + x2 c1 * 0.4) in
  let clumpBaseWidth := bladeWidth u * (0.6 + y2 c1 * 0.8) in
  let clumpBaseBend := bendAmount u * (0.7 + x2 c2 * 0.5) in
  let clumpType := floor (y2 c2 * 3.0) in
  Vec4 clumpBaseHeight clumpBaseWidth clumpBaseBend clumpType.

Definition getGrassParams (seed : vec2) (clumpParams : vec4) : vec4 :=
  let h1 := hash21 (scale2 seed 13.0) in
  let h2 := hash21 (scale2 seed 29.0) in
  let height := x4 clumpParams * (0.6 + x2 h1 * 0.6) in
  let width := y4 clumpParams * (0.6 + y2 h1 * 0.6) in
  let bend := z4 clumpParams * (0.8 + x2 h2 * 0.4) in
  let type := w4 clumpParams in
  Vec4 height width bend type.

(** [main], lines 119-121: the guarded direction to the clump centre. *)
Definition toCenterOf (dir : vec2) : vec2 :=
  let len := length2 dir in
  if Rlt_dec 1e-5 len then div2 dir len else Vec2 1.0 0.0.

(** [main], lines 123-127: the density falloff. *)
Definition presenceOf (distToCenter clumpRadius : R) : R :=
  let r := clamp (distToCenter / clumpRadius) 0.0 1.0 in
  let t := clamp ((r - 0.7) / (1.0 - 0.7)) 0.0 1.0 in
  let smoothstepVal := t * t * (3.0 - 2.0 * t) in
  1.0 - smoothstepVal.

(** [main], lines 133-138: the base facing angle. *)
Definition baseAngleOf (toCenter worldXZ cellId : vec2) : R :=
  let clumpDir := toCenter in
  let clumpAngle := atan2 (y2 clumpDir) (x2 clumpDir) in
  let perBladeHash := hash11 (dot2 worldXZ (Vec2 37.0 17.0)) in
  let randomOffset := (perBladeHash - 0.5) * 1.2 in
  let clumpYaw := (hash11 (dot2 cellId (Vec2 9.7 3.1)) - 0.5) * 0.25 in
  clumpAngle + randomOffset + clumpYaw.

(** The fragment program: [uPositions] is the sampling function of the
    position texture, [gl_FragCoord] the fragment being written; the result
    is the pair of render-target outputs [(fragColor0, fragColor1)]. *)
Definition main (u : uniforms) (uPositions : vec2 -> vec4)
                (gl_FragCoord : vec2) : vec4 * vec4 :=
  let uv := Vec2 (x2 gl_FragCoord / x2 (uResolution u))
                 (y2 gl_FragCoord / y2 (uResolution u)) in
  let posData := uPositions uv in
  let worldXZ := xz4 posData in
  let clumpInfo := getClumpInfo (clumpSize u) worldXZ in
  let distToCenter := x3 clumpInfo in
  let cellId := Vec2 (y3 clumpInfo) (z3 clumpInfo) in
  let clumpSeed := hash2 cellId in
  let clumpCenterWorld := scale2 (add2 cellId clumpSeed) (clumpSize u) in
  let dir := sub2 clumpCenterWorld worldXZ in
  let toCenter := toCenterOf dir in
  let presence := presenceOf distToCenter (clumpRadius u) in
  let clumpParams := getClumpParams u cellId in
  let bladeParams := getGrassParams worldXZ clumpParams in
  let baseAngle := baseAngleOf toCenter worldXZ cellId in
  (bladeParams, Vec4 (x2 toCenter) (y2 toCenter) presence baseAngle).

End Compute.


(** ** Instance layout and position texture (constants.ts, utils.ts) *)

Module Layout.

(** constants.ts *)
Definition GRID_SIZE : nat := 256.
Definition GRASS_BLADES : nat := GRID_SIZE * GRID_SIZE.
Definition PATCH_SIZE : R := 8.

Definition seededRandom (seed : R) : R :=
  let x := sin seed * 10000 in
  x - floor x.

(** The arrays written by [createGrassGeometry], with their write cursors
    [i] and [idIdx].  A typed array ignores a write past its end, as list
    insertion does. *)
Record geometry := Geometry {
  offsets : list R;
  instanceIds : list R;
  i : nat;
  idIdx : nat
}.

(** The array written by [createPositionTexture], with its cursor [idx]. *)
Record texture := Texture {
  data : list R;
  idx : nat
}.

Section Grid.

(** The functions are stated over the three constants they import. *)
Variable gridSize : nat.
Variable grassBlades : nat.
Variable patchSize : R.

(** utils.ts, lines 45-47: the jitter of [createGrassGeometry]. *)
Definition geometryJitter (x z : nat) : R * R :=
  let seed := (INR x * 7919 + INR z * 7919) * 0.0001 in
  let jitterX := (seededRandom seed - 0.5) * 0.2 in
  let jitterZ := (seededRandom (seed + 1.0) - 0.5) * 0.2 in
  (jitterX, jitterZ).

(** utils.ts, lines 42-56: one iteration of the inner loop, after the
    [break] test. *)
Definition geometryBody (x z : nat) (g : geometry) : geometry :=
  let id := (x * gridSize + z)%nat in
  let fx := INR x / INR gridSize - 0.5 in
  let fz := INR z / INR gridSize - 0.5 in
  let '(jitterX, jitterZ) := geometryJitter x z in
  let px := fx * patchSize + jitterX in
  let pz := fz * patchSize + jitterZ in
  let o1 := <[i g := px]> (offsets g) in
  let o2 := <[S (i g) := 0]> o1 in
  let o3 := <[S (S (i g)) := pz]> o2 in
  {| offsets := o3;
     instanceIds := <[idIdx g := INR id]> (instanceIds g);
     i := i g + 3;
     idIdx := idIdx g + 1 |}.

(** The inner loop over [z], left by [break] when [id >= GRASS_BLADES]. *)
Fixpoint geometryInner (x : nat) (zs : list nat) (g : geometry) : geometry :=
  match zs with
  | [] => g
  | z :: zs' =>
      if (grassBlades <=? x * gridSize + z)%nat then g
      else geometryInner x zs' (geometryBody x z g)
  end.

Definition createGrassGeometry : geometry :=
  fold_left (fun g x => geometryInner x (seq 0 gridSize) g)
            (seq 0 gridSize)
            {| offsets := replicate (grassBlades * 3) 0;
               instanceIds := replicate grassBlades 0;
               i := 0%nat;
               idIdx := 0%nat |}.

(** utils.ts, lines 76-78: the jitter of [createPositionTexture]. *)
Definition textureJitter (x z : nat) : R * R :=
  let seed := (INR x * 7919 + INR z * 7919) * 0.0001 in
  let jitterX := (seededRandom seed - 0.5) * 0.2 in
  let jitterZ := (seededRandom (seed + 1.0) - 0.5) * 0.2 in
  (jitterX, jitterZ).

(** utils.ts, lines 72-86. *)
Definition textureBody (x z : nat) (t : texture) : texture :=
  let fx := INR x / INR gridSize - 0.5 in
  let fz := INR z / INR gridSize - 0.5 in
  let '(jitterX, jitterZ) := textureJitter x z in
  let px := fx * patchSize + jitterX in
  let pz := fz * patchSize + jitterZ in
  let d1 := <[idx t := px]> (data t) in
  let d2 := <[S (idx t) := 0]> d1 in
  let d3 := <[S (S (idx t)) := pz]> d2 in
  let d4 := <[S (S (S (idx t))) := 0]> d3 in
  {| data := d4; idx := idx t + 4 |}.

Definition createPositionTexture : texture :=
  fold_left (fun t x => fold_left (fun t z => textureBody x z t)
                                  (seq 0 gridSize) t)
            (seq 0 gridSize)
            {| data := replicate (gridSize * gridSize * 4) 0; idx := 0%nat |}.

(** Element [k] of an instanced attribute of item size 3. *)
Definition instanceOffset (g : geometry) (k : nat) : option vec3 :=
  match offsets g !! (3 * k)%nat, offsets g !! (3 * k + 1)%nat,
        offsets g !! (3 * k + 2)%nat with
  | Some a, Some b, Some c => Some (Vec3 a b c)
  | _, _, _ => None
  end.

Definition instanceId (g : geometry) (k : nat) : option R :=
  instanceIds g !! k.

(** [texelFetch] on an RGBA float texture of width [gridSize]: texel
    [(col, row)] starts at element [4 * (row * width + col)]. *)
Definition texelFetch (t : texture) (c : Z * Z) : option vec4 :=
  let '(col, row) := c in
  if (0 <=? col)%Z && (col <? Z.of_nat gridSize)%Z && (0 <=? row)%Z then
    let b := (4 * (Z.to_nat row * gridSize + Z.to_nat col))%nat in
    match data t !! b, data t !! (b + 1)%nat,
          data t !! (b + 2)%nat, data t !! (b + 3)%nat with
    | Some r, Some g, Some b', Some a => Some (Vec4 r g b' a)
    | _, _, _, _ => None
    end
  else None.

(** [texture()] on the position texture.  A [DataTexture] is created with
    nearest filtering: the sample at [uv] is the texel containing it. *)
Definition sample (t : texture) (uv : vec2) : vec4 :=
  match texelFetch t (int_ (floor (x2 uv * INR gridSize)),
                      int_ (floor (y2 uv * INR gridSize))) with
  | Some texel => texel
  | None => Vec4 0 0 0 0
  end.

End Grid.

End Layout.

(** ** Blade deformer (grassVertex.glsl) *)

Module Vertex.

Record uniforms := Uniforms {
  uGrassTextureSize : vec2;
  thicknessStrength : R;
  uTime : R;
  uWindDir : vec2;
  uWindSpeed : R;
  uWindStrength : R;
  uWindScale : R;
  modelMatrix : mat4;
  cameraPosition : vec3
}.

Definition set_uTime (u : uniforms) (time : R) : uniforms :=
  {| uGrassTextureSize := uGrassTextureSize u;
     thicknessStrength := thicknessStrength u;
     uTime := time;
     uWindDir := uWindDir u;
     uWindSpeed := uWindSpeed u;
     uWindStrength := uWindStrength u;
     uWindScale := uWindScale u;
     modelMatrix := modelMatrix u;
     cameraPosition := cameraPosition u |}.

(** What [main] writes: [csm_Position] and the varyings. *)
Record outputs := Outputs {
  csm_Position : vec3;
  vN : vec3;
  vTangent : vec3;
  vSide : vec3;
  vToCenter : vec2;
  vWorldPos : vec3;
  vTest : vec3;
  vUv : vec2;
  vHeight : R;
  vType : R;
  vPresence : R
}.

(** The control polygon and facing after the wind stage of [main]. *)
Record curve := Curve {
  anglePre : R;
  perpXZ : vec2;
  windS : R;
  cp0 : vec3;
  cp1 : vec3;
  cp2 : vec3
}.

Definition hash11 (x : R) : R :=
  fract (sin (x * 37.0) * 43758.5453123).

Definition bezier2 (p0 p1 p2 : vec3) (t : R) : vec3 :=
  let u := 1.0 - t in
  add3 (add3 (scale3 p0 (u * u)) (scale3 p1 (2.0 * u * t)))
       (scale3 p2 (t * t)).

Definition bezier2Tangent (p0 p1 p2 : vec3) (t : R) : vec3 :=
  add3 (scale3 (sub3 p1 p0) (2.0 * (1.0 - t)))
       (scale3 (sub3 p2 p1) (2.0 * t)).

(** [main], lines 72-79: the texel of an instance.  The arithmetic is that
    of the shader over the reals; in single precision it is exact for the
    integer ids and power-of-two texture sizes the repository uses, and
    rounds for other sizes. *)
Definition texelCoordOf (uGrassTextureSize : vec2) (instanceId : R) : Z * Z :=
  let id := instanceId in
  let texCoord :=
    Vec2 (mod_ id (x2 uGrassTextureSize) / x2 uGrassTextureSize)
         (floor (id / x2 uGrassTextureSize) / y2 uGrassTextureSize) in
  (int_ (floor (x2 texCoord * x2 uGrassTextureSize)),
   int_ (floor (y2 texCoord * y2 uGrassTextureSize))).

(** [main], lines 109-119: the control polygon of the blade at rest. *)
Definition restCurve (bladeType height bend : R) : vec3 * vec3 * vec3 :=
  let p0 := Vec3 0.0 0.0 0.0 in
  let p2 := Vec3 0.0 height 0.0 in
  let p1 :=
    if Rlt_dec bladeType 0.5 then Vec3 0.0 (height * 0.9) (bend * 0.7)
    else if Rlt_dec bladeType 1.5 then Vec3 0.0 (height * 0.85) (bend * 0.8)
    else Vec3 0.0 (height * 0.8) (bend * 1.0) in
  (p0, p1, p2).

(** [main], lines 141-143: the frame [(side, normal)] of a tangent. *)
Definition frameTBN (tangent : vec3) : option (vec3 * vec3) :=
  let ref := Vec3 0.0 0.0 1.0 in
  side ← normalize (cross ref tangent);
  normal ← normalize (cross side tangent);
  Some (side, normal).

Section Includes.

(** [fbm2] (fractal.glsl) and [rotate2D] (utility.glsl) are included from a
    shader package outside the repository. *)
Variable fbm2 : vec2 -> R -> R.
Variable rotate2D : vec2 -> R -> vec2.

Definition sampleWind (u : uniforms) (worldXZ : vec2) : R :=
  let n := fbm2 (scale2 worldXZ (uWindScale u)) (uTime u * uWindSpeed u) in
  n.

(** [main], lines 93-134: wind sampling, facing, push and sway. *)
Definition windCurve (u : uniforms) (worldXZ : vec2)
    (baseAngle bladeType height bend t : R) : curve :=
  let wind := sampleWind u worldXZ in
  let windS := (wind * 2.0 - 1.0) * uWindStrength u in
  let windAngle := atan2 (y2 (uWindDir u)) (x2 (uWindDir u)) in
  let windFacing := (wind * 2.0 - 1.0) * 0.35 * uWindStrength u in
  let anglePre :=
    mix baseAngle windAngle (0.25 * uWindStrength u) + windFacing in
  let facingXZ := Vec2 (cos anglePre) (sin anglePre) in
  let perpXZ := Vec2 (- y2 facingXZ) (x2 facingXZ) in
  let '(p0, p1, p2) := restCurve bladeType height bend in
  let tipPush := windS * height * 0.35 in
  let midPush := windS * height * 0.15 in
  let p1 := add3 p1 (scale3 (Vec3 (x2 perpXZ) 0.0 (y2 perpXZ)) midPush) in
  let p2 := add3 p2 (scale3 (Vec3 (x2 perpXZ) 0.0 (y2 perpXZ)) tipPush) in
  let phase := hash11 (x2 worldXZ * 12.3 + y2 worldXZ * 78.9) * 6.28318 in
  let sway := sin (uTime u * (1.8 + wind * 1.2) + phase + t * 2.2) in
  let swayAmt := uWindStrength u * 0.02 * height * wind in
  let p2 :=
    add3 p2 (scale3 (Vec3 (x2 perpXZ) 0.0 (y2 perpXZ)) (sway * swayAmt)) in
  {| anglePre := anglePre; perpXZ := perpXZ; windS := windS;
     cp0 := p0; cp1 := p1; cp2 := p2 |}.

(** The spine point of [main], line 137. *)
Definition spineOf (c : curve) (t : R) : vec3 :=
  bezier2 (cp0 c) (cp1 c) (cp2 c) t.

(** The normalised tangent of [main], line 138. *)
Definition tangentOf (c : curve) (t : R) : option vec3 :=
  normalize (bezier2Tangent (cp0 c) (cp1 c) (cp2 c) t).

Definition main (u : uniforms)
    (uBladeParamsTexture uClumpDataTexture : Z * Z -> vec4)
    (instanceOffset : vec3) (instanceId : R) (uv : vec2) : option outputs :=
  let t := y2 uv in
  let s := (x2 uv - 0.5) * 2.0 in
  let worldXZ := xz instanceOffset in
  let texelCoord := texelCoordOf (uGrassTextureSize u) instanceId in
  let bladeParams := uBladeParamsTexture texelCoord in
  let clumpData := uClumpDataTexture texelCoord in
  let toCenter := Vec2 (x4 clumpData) (y4 clumpData) in
  let presence := z4 clumpData in
  let baseAngle := w4 clumpData in
  let height := x4 bladeParams in
  let width := y4 bladeParams in
  let bend := z4 bladeParams in
  let bladeType := w4 bladeParams in
  let c := windCurve u worldXZ baseAngle bladeType height bend t in
  let perp := Vec3 (x2 (perpXZ c)) 0.0 (y2 (perpXZ c)) in
  let spine := spineOf c t in
  tangent ← tangentOf c t;
  '(side, normal) ← frameTBN tangent;
  let baseWidth := 0.35 in
  let tipThin := 0.9 in
  let widthFactor := (t + baseWidth) * pow (1.0 - t) tipThin in
  let lpos :=
    add3 spine
         (scale3 (scale3 (scale3 (scale3 side width) widthFactor) s)
                 presence) in
  let tipWeight := smoothstep 0.1 1.0 t in
  let lpos :=
    add3 lpos (scale3 (scale3 perp (windS c * height * 0.05)) tipWeight) in
  let angle := anglePre c in
  let lpos := set_xz lpos (rotate2D (xz lpos) angle) in
  let tangent := set_xz tangent (rotate2D (xz tangent) angle) in
  let side := set_xz side (rotate2D (xz side) angle) in
  let normal := set_xz normal (rotate2D (xz normal) angle) in
  tangent ← normalize tangent;
  side ← normalize side;
  normal ← normalize normal;
  let posObj := add3 lpos instanceOffset in
  let posW := xyz (mulM4 (modelMatrix u) (vec4_of posObj 1.0)) in
  camDirW ← normalize (sub3 (cameraPosition u) posW);
  tangentW ← normalize (xyz (mulM4 (modelMatrix u) (vec4_of tangent 0.0)));
  sideW ← normalize (xyz (mulM4 (modelMatrix u) (vec4_of side 0.0)));
  normalW ← normalize (xyz (mulM4 (modelMatrix u) (vec4_of normal 0.0)));
  let toLocal := Mat3 tangentW sideW normalW in
  camDirLocal ← normalize (mulM3 (transpose toLocal) camDirW);
  let edgeMask := (x2 uv - 0.5) * y3 camDirLocal in
  let weight := pow (Rabs (y3 camDirLocal)) 1.2 in
  let edgeMask := edgeMask * weight in
  let edgeMask := clamp edgeMask 0.0 1.0 in
  let centerMask := pow (1.0 - t) 0.5 * pow (t + 0.05) 0.33 in
  let centerMask := clamp centerMask 0.0 1.0 in
  let tilt := thicknessStrength u * edgeMask * centerMask in
  nXZ ← normalize (mul3 normal (Vec3 1.0 0.0 1.0));
  let posObjTilted := add3 posObj (scale3 nXZ tilt) in
  let posWTilted := xyz (mulM4 (modelMatrix u) (vec4_of posObjTilted 1.0)) in
  Some {| csm_Position := posObjTilted;
          vN := neg3 normal;
          vTangent := tangent;
          vSide := side;
          vToCenter := toCenter;
          vWorldPos := posWTilted;
          vTest := Vec3 edgeMask 0.0 0.0;
          vUv := uv;
          vHeight := t;
          vType := bladeType;
          vPresence := presence |}.

End Includes.

End Vertex.

(** ** Blade deformer, cubic variant with wind push and sway *)

Module VertexCubic.

Record uniforms := Uniforms {
  uGrassTextureSize : vec2;
  thicknessStrength : R;
  uTime : R;
  uWindStrength : R;
  uWindDir : vec2;
  uSwayFreqMin : R;
  uSwayFreqMax : R;
  uSwayStrength : R;
  modelMatrix : mat4;
  cameraPosition : vec3
}.

Definition set_uTime (u : uniforms) (time : R) : uniforms :=
  {| uGrassTextureSize := uGrassTextureSize u;
     thicknessStrength := thicknessStrength u;
     uTime := time;
     uWindStrength := uWindStrength u;
     uWindDir := uWindDir u;
     uSwayFreqMin := uSwayFreqMin u;
     uSwayFreqMax := uSwayFreqMax u;
     uSwayStrength := uSwayStrength u;
     modelMatrix := modelMatrix u;
     cameraPosition := cameraPosition u |}.

Definition safeNormalize (v : vec2) : vec2 :=
  let m2 := dot2 v v in
  if Rlt_dec 1e-6 m2 then scale2 v (inversesqrt m2) else Vec2 1.0 0.0.

Definition bezier3 (p0 p1 p2 p3 : vec3) (t : R) : vec3 :=
  let u := 1.0 - t in
  add3 (add3 (add3 (scale3 p0 (u * u * u)) (scale3 p1 (3.0 * u * u * t)))
             (scale3 p2 (3.0 * u * t * t)))
       (scale3 p3 (t * t * t)).

Definition bezier3Tangent (p0 p1 p2 p3 : vec3) (t : R) : vec3 :=
  let u := 1.0 - t in
  add3 (add3 (scale3 (sub3 p1 p0) (3.0 * u * u))
             (scale3 (sub3 p2 p1) (6.0 * u * t)))
       (scale3 (sub3 p3 p2) (3.0 * t * t)).

(** [vec3(safeNormalize(uWindDir), 0.0).xzy] *)
Definition getWindDirection (u : uniforms) : vec3 :=
  let n := safeNormalize (uWindDir u) in
  Vec3 (x2 n) 0.0 (y2 n).

(** The [inout] control points are passed in and returned. *)
Definition applyWindPush (u : uniforms) (p : vec3 * vec3 * vec3)
    (windStrength01 height : R) : vec3 * vec3 * vec3 :=
  let '(p1, p2, p3) := p in
  let windDir := getWindDirection u in
  let windScale := windStrength01 * uWindStrength u in
  let tipPush := windScale * height * 0.25 in
  let midPush1 := windScale * height * 0.08 in
  let midPush2 := windScale * height * 0.15 in
  (add3 p1 (scale3 windDir midPush1),
   add3 p2 (scale3 windDir midPush2),
   add3 p3 (scale3 windDir tipPush)).

Definition applyWindSway (u : uniforms) (p : vec3 * vec3 * vec3)
    (windStrength01 height perBladeHash01 t : R) (worldXZ : vec2)
  : option (vec3 * vec3 * vec3) :=
  let '(p1, p2, p3) := p in
  let W := getWindDirection u in
  CW ← normalize (Vec3 (- z3 W) 0.0 (x3 W));
  let windDir2 := Vec2 (x3 W) (z3 W) in
  let seed := mod_ (perBladeHash01 * 3.567) 1.0 in
  let gust := 0.65 + 0.35 * sin (uTime u * 0.35 + seed * 6.28318) in
  let wave := dot2 worldXZ windDir2 * 0.15 in
  let baseFreq := mix (uSwayFreqMin u) (uSwayFreqMax u) seed in
  let phase := perBladeHash01 * 6.28318 + wave in
  let low := sin (uTime u * baseFreq + phase + t * 2.2) in
  let high := sin (uTime u * (baseFreq * 5.0) + phase * 1.7 + t * 5.0) in
  let amp := uWindStrength u * height * windStrength01 in
  let swayLow := amp * gust * uSwayStrength u in
  let swayHigh := amp * 0.8 * uSwayStrength u in
  dir ← normalize (add3 W (scale3 CW (high * 0.35)));
  Some
    (add3 p1 (scale3 dir (low * swayLow * 0.25 + high * swayHigh * 0.25 * 0.3)),
     add3 p2 (scale3 dir (low * swayLow * 0.55 + high * swayHigh * 0.55 * 0.6)),
     add3 p3 (scale3 dir (low * swayLow * 1.00 + high * swayHigh * 1.00 * 1.0))).

(** The [out] parameters [(p1, p2)]. *)
Definition getBezierControlPoints (bladeType height bend : R) : vec3 * vec3 :=
  if Rlt_dec bladeType 0.5 then
    (Vec3 0.0 (height * 0.4) (bend * 0.5), Vec3 0.0 (height * 0.75) (bend * 0.7))
  else if Rlt_dec bladeType 1.5 then
    (Vec3 0.0 (height * 0.35) (bend * 0.6), Vec3 0.0 (height * 0.7) (bend * 0.8))
  else
    (Vec3 0.0 (height * 0.3) (bend * 0.7), Vec3 0.0 (height * 0.65) (bend * 1.0)).

(** [main], steps 4 and 5: the control points [(p0, p1, p2, p3)] after the
    wind effects. *)
Definition windCurve (u : uniforms) (worldXZ : vec2)
    (bladeType height bend windStrength01 perBladeHash01 t : R)
  : option (vec3 * (vec3 * vec3 * vec3)) :=
  let p0 := Vec3 0.0 0.0 0.0 in
  let p3 := Vec3 0.0 height 0.0 in
  let '(p1, p2) := getBezierControlPoints bladeType height bend in
  let p := applyWindPush u (p1, p2, p3) windStrength01 height in
  p ← applyWindSway u p windStrength01 height perBladeHash01 t worldXZ;
  Some (p0, p).

Section Includes.

(** [rotate2D] (utility.glsl) is included from a shader package outside the
    repository. *)
Variable rotate2D : vec2 -> R -> vec2.

Definition main (u : uniforms)
    (uBladeParamsTexture uClumpDataTexture uMotionSeedsTexture
       : Z * Z -> vec4)
    (instanceOffset : vec3) (instanceId : R) (uv : vec2)
  : option Vertex.outputs :=
  let t := y2 uv in
  let s := (x2 uv - 0.5) * 2.0 in
  let ix := int_ (mod_ instanceId (x2 (uGrassTextureSize u))) in
  let iy := int_ (floor (instanceId / x2 (uGrassTextureSize u))) in
  let texelCoord := (ix, iy) in
  let bladeParams := uBladeParamsTexture texelCoord in
  let clumpData := uClumpDataTexture texelCoord in
  let motionSeeds := uMotionSeedsTexture texelCoord in
  let height := x4 bladeParams in
  let width := y4 bladeParams in
  let bend := z4 bladeParams in
  let bladeType := w4 bladeParams in
  let toCenter := Vec2 (x4 clumpData) (y4 clumpData) in
  let presence := z4 clumpData in
  let facingAngle01 := x4 motionSeeds in
  let perBladeHash01 := y4 motionSeeds in
  let windStrength01 := z4 motionSeeds in
  let facingAngle := facingAngle01 * PI * 2.0 in
  '(p0, (p1, p2, p3)) ←
    windCurve u (xz instanceOffset) bladeType height bend
              windStrength01 perBladeHash01 t;
  let spine := bezier3 p0 p1 p2 p3 t in
  tangent ← normalize (bezier3Tangent p0 p1 p2 p3 t);
  let ref := Vec3 0.0 0.0 1.0 in
  side ← normalize (cross ref tangent);
  normal ← normalize (cross side tangent);
  let baseWidth := 0.35 in
  let tipThin := 0.9 in
  let widthFactor := (t + baseWidth) * pow (1.0 - t) tipThin in
  let lpos :=
    add3 spine
         (scale3 (scale3 (scale3 (scale3 side width) widthFactor) s)
                 presence) in
  let lpos := set_xz lpos (rotate2D (xz lpos) facingAngle) in
  let tangent := set_xz tangent (rotate2D (xz tangent) facingAngle) in
  let side := set_xz side (rotate2D (xz side) facingAngle) in
  tangent ← normalize tangent;
  side ← normalize side;
  normal ← normalize normal;
  let posObj := add3 lpos instanceOffset in
  let posW := xyz (mulM4 (modelMatrix u) (vec4_of posObj 1.0)) in
  camDirW ← normalize (sub3 (cameraPosition u) posW);
  tangentW ← normalize (xyz (mulM4 (modelMatrix u) (vec4_of tangent 0.0)));
  sideW ← normalize (xyz (mulM4 (modelMatrix u) (vec4_of side 0.0)));
  normalW ← normalize (xyz (mulM4 (modelMatrix u) (vec4_of normal 0.0)));
  let toLocal := Mat3 tangentW sideW normalW in
  camDirLocal ← normalize (mulM3 (transpose toLocal) camDirW);
  let edgeMask := (x2 uv - 0.5) * y3 camDirLocal in
  let edgeMask := edgeMask * pow (Rabs (y3 camDirLocal)) 1.2 in
  let edgeMask := clamp edgeMask 0.0 1.0 in
  let centerMask := pow (1.0 - t) 0.5 * pow (t + 0.05) 0.33 in
  let centerMask := clamp centerMask 0.0 1.0 in
  let tilt := thicknessStrength u * edgeMask * centerMask in
  nXZ ← normalize (mul3 normal (Vec3 1.0 0.0 1.0));
  let posObjTilted := add3 posObj (scale3 nXZ tilt) in
  let posWTilted := xyz (mulM4 (modelMatrix u) (vec4_of posObjTilted 1.0)) in
  Some {| Vertex.csm_Position := posObjTilted;
          Vertex.vN := neg3 normal;
          Vertex.vTangent := tangent;
          Vertex.vSide := side;
          Vertex.vToCenter := toCenter;
          Vertex.vWorldPos := posWTilted;
          Vertex.vTest := Vec3 (x2 toCenter) (y2 toCenter) 0.0;
          Vertex.vUv := uv;
          Vertex.vHeight := t;
          Vertex.vType := bladeType;
          Vertex.vPresence := presence |}.

End Includes.

End VertexCubic.

(** ** Blade deformer, first variant with a guarded frame *)

Module VertexEarly.

Record uniforms := Uniforms {
  bladeHeight : R;
  bladeWidth : R;
  bendAmount : R;
  projectionMatrix : mat4;
  modelViewMatrix : mat4
}.

Definition hash (p : vec2) : R :=
  fract (sin (dot2 p (Vec2 127.1 311.7)) * 43758.5453123).

(** [main], lines 52-59: reference axis, fallback, normal and side. *)
Definition frame (tangent : vec3) : option (vec3 * vec3) :=
  let ref := Vec3 1.0 0.0 0.0 in
  let ref :=
    if Rlt_dec 0.95 (Rabs (dot3 tangent ref)) then Vec3 0.0 0.0 1.0
    else ref in
  normal ← normalize (cross tangent ref);
  side ← normalize (cross normal tangent);
  Some (normal, side).

Section Includes.

Variable rotate2D : vec2 -> R -> vec2.

(** The result is [(gl_Position, vUv, vHeight)]. *)
Definition main (u : uniforms) (instanceOffset : vec3) (uv : vec2)
  : option (vec4 * vec2 * R) :=
  let t := y2 uv in
  let s := (x2 uv - 0.5) * 2.0 in
  let p0 := Vec3 0.0 0.0 0.0 in
  let p2 := Vec3 0.0 (bladeHeight u) 0.0 in
  let p1 := Vec3 0.0 (bladeHeight u * 0.5) (bendAmount u) in
  let spine := Vertex.bezier2 p0 p1 p2 t in
  tangent ← normalize (Vertex.bezier2Tangent p0 p1 p2 t);
  '(normal, side) ← frame tangent;
  let widthFactor := 1.0 - t in
  let lpos :=
    add3 spine (scale3 (scale3 (scale3 side (bladeWidth u)) widthFactor) s) in
  let seed := xz instanceOffset in
  let perBladeHash := hash (scale2 seed 37.0) in
  let randomAngle := perBladeHash * 6.2831 in
  let lpos := set_xz lpos (rotate2D (xz lpos) randomAngle) in
  let worldPos := add3 lpos instanceOffset in
  Some (mulM4 (mulMM4 (projectionMatrix u) (modelViewMatrix u))
              (vec4_of worldPos 1.0),
        uv, t).

End Includes.

End VertexEarly.

(** ** TSL compute function (createGrassCompute) *)

Module Tsl.

Record uniforms := Uniforms {
  uBladeHeightMin : R;
  uBladeHeightMax : R;
  uBladeWidthMin : R;
  uBladeWidthMax : R;
  uBendAmountMin : R;
  uBendAmountMax : R;
  uBladeRandomness : vec3
}.

(** The element of [grassData] written by one invocation. *)
Record blade := Blade {
  bladeHeight : R;
  bladeWidth : R;
  bladeBend : R;
  bladeType : R
}.

Definition hash11 (x : R) : R := fract (sin (x * 37.0) * 43758.5453123).

Definition hash21 (p : vec2) : vec2 :=
  let h1 := hash11 (dot2 p (Vec2 127.1 311.7)) in
  let h2 := hash11 (dot2 p (Vec2 269.5 183.3)) in
  Vec2 h1 h2.

(** computeFn, clump base parameters of a cell id:
    [(clumpBaseHeight, clumpBaseWidth, clumpBaseBend)]. *)
Definition clumpBase (u : uniforms) (cellId : vec2) : R * R * R :=
  let c1 := hash21 (scale2 cellId 11.0) in
  let c2 := hash21 (scale2 cellId 23.0) in
  let clumpBaseHeight := mix (uBladeHeightMin u) (uBladeHeightMax u) (x2 c1) in
  let clumpBaseWidth := mix (uBladeWidthMin u) (uBladeWidthMax u) (y2 c1) in
  let clumpBaseBend := mix (uBendAmountMin u) (uBendAmountMax u) (x2 c2) in
  (clumpBaseHeight, clumpBaseWidth, clumpBaseBend).

(** computeFn: the cell id of a blade is its own position. *)
Definition cellIdOf (instancePos : vec3) : vec2 :=
  let worldXZ := Vec2 (x3 instancePos) (z3 instancePos) in
  let cellId := worldXZ in
  cellId.

Definition computeFn (u : uniforms) (instancePos : vec3) : blade :=
  let worldXZ := Vec2 (x3 instancePos) (z3 instancePos) in
  let '(clumpBaseHeight, clumpBaseWidth, clumpBaseBend) :=
    clumpBase u (cellIdOf instancePos) in
  let clumpType := 0.5 in
  let seed := worldXZ in
  let h1 := hash21 (scale2 seed 13.0) in
  let h2 := hash21 (scale2 seed 29.0) in
  let height :=
    clumpBaseHeight * mix (1.0 - x3 (uBladeRandomness u))
                          (1.0 + x3 (uBladeRandomness u)) (x2 h1) in
  let width :=
    clumpBaseWidth * mix (1.0 - y3 (uBladeRandomness u))
                         (1.0 + y3 (uBladeRandomness u)) (y2 h1) in
  let bend :=
    clumpBaseBend * mix (1.0 - z3 (uBladeRandomness u))
                        (1.0 + z3 (uBladeRandomness u)) (x2 h2) in
  let type := clumpType in
  {| bladeHeight := height; bladeWidth := width;
     bladeBend := bend; bladeType := type |}.

End Tsl.

(** ** Blade shader (fragment shader of Grass.tsx, grassFragment.glsl) *)

Module Fragment.

Record uniforms := Uniforms {
  baseColor : vec3;
  tipColor : vec3;
  cameraPosition : vec3
}.

Record varyings := Varyings {
  vHeight : R;
  vUv : vec2;
  vPresence : R;
  vTest : vec3;
  vN : vec3;
  vTangent : vec3;
  vSide : vec3;
  vToCenter : vec2;
  vWorldPos : vec3
}.

(** [mix] on vectors with a scalar weight. *)
Definition mix3 (a b : vec3) (t : R) : vec3 :=
  add3 (scale3 a (1 - t)) (scale3 b t).

Definition computeLightingNormal (u : uniforms)
    (geoNormal : vec3) (toCenter : vec2) (t : R) (worldPos : vec3)
  : option vec3 :=
  clumpNormal ← normalize (Vec3 (x2 toCenter) 0.7 (y2 toCenter));
  let heightMask := pow (1.0 - t) 0.7 in
  let dist := length3 (sub3 (cameraPosition u) worldPos) in
  let distMask := smoothstep 4.0 12.0 dist in
  normalize (mix3 geoNormal clumpNormal (heightMask * distMask)).

(** [main], step 2: the rim and midrib profile [ny] across the blade, as a
    function of [u = vUv.x - 0.5]. *)
Definition nyOf (u : R) : R :=
  let au := Rabs u in
  let midSoft := 0.2 in
  let mid01 := smoothstep (- midSoft) midSoft u in
  let rimPos := 0.42 in
  let rimSoft := 0.2 in
  let rimMask := smoothstep rimPos (rimPos + rimSoft) au in
  let v01 := mix mid01 (1.0 - mid01) rimMask in
  v01 * 2.0 - 1.0.

(** [main], steps 1 to 3: the geometric normal. *)
Definition geoNormalOf (v : varyings) : option vec3 :=
  S ← normalize (vSide v);
  baseNormal ← normalize (vN v);
  let u := x2 (vUv v) - 0.5 in
  let ny := nyOf u in
  let widthNormalStrength := 0.35 in
  normalize (add3 baseNormal (scale3 (scale3 S ny) widthNormalStrength)).

(** The result is [(csm_FragNormal, csm_DiffuseColor)]; the normal is
    undefined when one of its normalisations is. *)
Definition main (u : uniforms) (v : varyings) : option vec3 * vec4 :=
  let lightingNormal :=
    geoNormal ← geoNormalOf v;
    computeLightingNormal u geoNormal (vToCenter v) (vHeight v) (vWorldPos v)
  in
  let color := mix3 (baseColor u) (tipColor u) (vHeight v) in
  let ao := mix 0.4 1.0 (vHeight v) in
  (lightingNormal, vec4_of color 1.0).

End Fragment.

(** ** Clump profile of the in-vertex variant (Grass.tsx with GRID_SIZE 64) *)

Module VertexClump.

(** [main], clump profile factors: [(heightFactor, presence)] from the
    distance to the clump centre. *)
Definition profile (distToCenter clumpRadius : R) : R * R :=
  let r := clamp (distToCenter / clumpRadius) 0.0 1.0 in
  let heightFactor := mix 1.3 0.3 r in
  let presence := 1.0 - smoothstep 0.7 1.0 r in
  (heightFactor, presence).

Definition getClumpCenterWorld (clumpSize : R) (cellId : vec2) : vec2 :=
  let seedCoord := add2 cellId (Compute.hash2 cellId) in
  scale2 seedCoord clumpSize.

End VertexClump.

(** ** Vocabulary of the statements *)

(** World position of grid cell [(x, z)] of a grid of side [G] spanning
    [P] world units, as the loop bodies of utils.ts compute it. *)
Definition cellX (G : nat) (P : R) (x z : nat) : R :=
  (INR x / INR G - 0.5) * P + fst (Layout.geometryJitter x z).
Definition cellZ (G : nat) (P : R) (x z : nat) : R :=
  (INR z / INR G - 0.5) * P + snd (Layout.geometryJitter x z).

(** Loop invariant of [createGrassGeometry] after [n] cells. *)
Definition geometryInv (G : nat) (P : R) (n : nat) (g : Layout.geometry)
  : Prop :=
  Layout.i g = (3 * n)%nat /\ Layout.idIdx g = n /\
  length (Layout.offsets g) = (G * G * 3)%nat /\
  length (Layout.instanceIds g) = (G * G)%nat /\
  forall m, (m < n)%nat ->
    Layout.offsets g !! (3 * m)%nat = Some (cellX G P (m / G) (m mod G)) /\
    Layout.offsets g !! (3 * m + 1)%nat = Some 0 /\
    Layout.offsets g !! (3 * m + 2)%nat = Some (cellZ G P (m / G) (m mod G)) /\
    Layout.instanceIds g !! m = Some (INR m).

(** Loop invariant of [createPositionTexture] after [n] cells. *)
Definition textureInv (G : nat) (P : R) (n : nat) (t : Layout.texture)
  : Prop :=
  Layout.idx t = (4 * n)%nat /\
  length (Layout.data t) = (G * G * 4)%nat /\
  forall m, (m < n)%nat ->
    Layout.data t !! (4 * m)%nat = Some (cellX G P (m / G) (m mod G)) /\
    Layout.data t !! (4 * m + 1)%nat = Some 0 /\
    Layout.data t !! (4 * m + 2)%nat = Some (cellZ G P (m / G) (m mod G)) /\
    Layout.data t !! (4 * m + 3)%nat = Some 0.

(** Loop invariant of [createGrassGeometry] for an instance count [B] that
    may be smaller than the grid: [n] instances written so far. *)
Definition geometryInvB (G B : nat) (P : R) (n : nat) (g : Layout.geometry)
  : Prop :=
  Layout.i g = (3 * n)%nat /\ Layout.idIdx g = n /\
  length (Layout.offsets g) = (B * 3)%nat /\
  length (Layout.instanceIds g) = B /\
  forall m, (m < n)%nat ->
    Layout.offsets g !! (3 * m)%nat = Some (cellX G P (m / G) (m mod G)) /\
    Layout.offsets g !! (3 * m + 1)%nat = Some 0 /\
    Layout.offsets g !! (3 * m + 2)%nat = Some (cellZ G P (m / G) (m mod G)) /\
    Layout.instanceIds g !! m = Some (INR m).

(** The fragment of the parameter pass that writes texel [(col, row)]. *)
Definition fragCoordOf (col row : nat) : vec2 :=
  Vec2 (INR col + 0.5) (INR row + 0.5).

(** The curve of the blade without wind: facing at the stored base angle,
    control polygon at rest. *)
Definition calmCurve (baseAngle bladeType height bend : R) : Vertex.curve :=
  let '(p0, p1, p2) := Vertex.restCurve bladeType height bend in
  {| Vertex.anglePre := baseAngle;
     Vertex.perpXZ := Vec2 (- sin baseAngle) (cos baseAngle);
     Vertex.windS := 0;
     Vertex.cp0 := p0; Vertex.cp1 := p1; Vertex.cp2 := p2 |}.

(** ** Sample inputs, used to instantiate the properties below *)

Module Example.

Definition identity4 : mat4 :=
  Mat4 (Vec4 1 0 0 0) (Vec4 0 1 0 0) (Vec4 0 0 1 0) (Vec4 0 0 0 1).

(** The controls of Grass.tsx at their defaults, wind strength at 0. *)
Definition calm : Vertex.uniforms :=
  {| Vertex.uGrassTextureSize := Vec2 256 256;
     Vertex.thicknessStrength := 0.02;
     Vertex.uTime := 0;
     Vertex.uWindDir := Vec2 1 0;
     Vertex.uWindSpeed := 0.6;
     Vertex.uWindStrength := 0;
     Vertex.uWindScale := 0.25;
     Vertex.modelMatrix := identity4;
     Vertex.cameraPosition := Vec3 0 3 10 |}.

Definition calmCubic : VertexCubic.uniforms :=
  {| VertexCubic.uGrassTextureSize := Vec2 256 256;
     VertexCubic.thicknessStrength := 0.02;
     VertexCubic.uTime := 0;
     VertexCubic.uWindStrength := 0;
     VertexCubic.uWindDir := Vec2 1 0;
     VertexCubic.uSwayFreqMin := 0.4;
     VertexCubic.uSwayFreqMax := 1.5;
     VertexCubic.uSwayStrength := 0.1;
     VertexCubic.modelMatrix := identity4;
     VertexCubic.cameraPosition := Vec3 0 3 10 |}.

(** A time-dependent wind field and a plane rotation for the two included
    functions. *)
Definition fbm2 (p : vec2) (time : R) : R := x2 p + time.
Definition rotate2D (v : vec2) (a : R) : vec2 :=
  Vec2 (x2 v * cos a - y2 v * sin a) (x2 v * sin a + y2 v * cos a).

(** Controls of Grass.tsx within their ranges: the lowest blade height
    (0.1) with the largest bend amount (10). *)
Definition shortBent : Compute.uniforms :=
  Compute.Uniforms (Vec2 256 256) 0.1 0.02 10 0.8 1.5.

Definition bladeTexel (c : Z * Z) : vec4 := Vec4 0.6 0.02 0.4 0.
Definition clumpTexel (c : Z * Z) : vec4 := Vec4 1 0 1 0.
Definition motionTexel (c : Z * Z) : vec4 := Vec4 0.25 0.5 0.5 0.

(** The defaults of [createGrassCompute] (part_002, lines 24-29) with the
    blade randomness set to 0. *)
Definition steady : Tsl.uniforms :=
  Tsl.Uniforms 0.4 0.8 0.01 0.05 0.2 0.6 (Vec3 0 0 0).

(** Two blade positions about 1e-5 apart on the x axis. *)
Definition originBlade : vec3 := Vec3 0 0 0.
Definition nearBlade : vec3 := Vec3 (PI / 310378.2) 0 0.

End Example.

(** * Properties *)

Lemma Rdiv_eq (a b c : R) : b <> 0 -> a = c * b -> a / b = c.
Proof. intros Hb ->. field. exact Hb. Qed.

Lemma clamp_bounds (x lo hi : R) : lo <= hi -> lo <= clamp x lo hi <= hi.
Proof.
  unfold clamp, Rmin, Rmax.
  repeat destruct Rle_dec; lra.
Qed.

Lemma clamp_mono (x y lo hi : R) :
  x <= y -> clamp x lo hi <= clamp y lo hi.
Proof.
  unfold clamp, Rmin, Rmax.
  repeat destruct Rle_dec; lra.
Qed.

Lemma clamp_unit (x : R) : 0 <= clamp x 0.0 1.0 <= 1.
Proof. pose proof (clamp_bounds x 0.0 1.0). lra. Qed.


(** ** Instance layout: both generators write cell [(k / G, k mod G)] at
    index [k] *)

Lemma lookup_insert_at (l : list R) (i j : nat) (v : R) :
  i = j -> (j < length l)%nat -> <[i:=v]> l !! j = Some v.
Proof. intros ->. apply list_lookup_insert_eq. Qed.

Ltac lookup_insert :=
  repeat first
    [ rewrite list_lookup_insert_ne by lia
    | rewrite lookup_insert_at by (rewrite ?length_insert; lia) ].

Section LayoutProps.

Variable G : nat.
Variable P : R.

Abbreviation N := (G * G)%nat.

Lemma cell_index (x z : nat) :
  (z < G)%nat -> ((x * G + z) / G = x /\ (x * G + z) mod G = z)%nat.
Proof.
  intros Hz. split.
  - rewrite Nat.div_add_l by lia. rewrite Nat.div_small by lia. lia.
  - rewrite Nat.add_comm, Nat.Div0.mod_add. apply Nat.mod_small. lia.
Qed.

Lemma geometryBody_inv (x z : nat) (g : Layout.geometry) :
  (z < G)%nat -> (x < G)%nat ->
  geometryInv G P (x * G + z) g ->
  geometryInv G P (x * G + z + 1) (Layout.geometryBody G P x z g).
Proof.
  intros Hz Hx (Hi & Hid & Hlo & Hli & Hm).
  assert (HN : (x * G + z < N)%nat) by nia.
  unfold geometryInv, Layout.geometryBody.
  cbn [Layout.offsets Layout.instanceIds Layout.i Layout.idIdx
       Layout.geometryJitter].
  rewrite !length_insert, Hi, Hid.
  split; [lia|]. split; [lia|]. split; [lia|]. split; [lia|].
  intros m Hlt.
  destruct (decide (m = x * G + z)%nat) as [->|Hne].
  - destruct (cell_index x z Hz) as [-> ->].
    repeat split; lookup_insert; reflexivity.
  - destruct (Hm m) as (H1 & H2 & H3 & H4); [lia|].
    repeat split; lookup_insert; assumption.
Qed.

Lemma geometryInner_inv (x : nat) (len z0 : nat) (g : Layout.geometry) :
  (x < G)%nat -> (z0 + len <= G)%nat ->
  geometryInv G P (x * G + z0) g ->
  geometryInv G P (x * G + z0 + len)
              (Layout.geometryInner G N P x (seq z0 len) g).
Proof.
  intros Hx. revert z0 g.
  induction len as [|len IH]; intros z0 g Hle Hinv; simpl.
  - rewrite Nat.add_0_r. exact Hinv.
  - destruct (Nat.leb_spec N (x * G + z0)) as [Hbreak|_]; [nia|].
    replace (x * G + z0 + S len)%nat with (x * G + S z0 + len)%nat by lia.
    apply IH; [lia|].
    replace (x * G + S z0)%nat with (x * G + z0 + 1)%nat by lia.
    apply geometryBody_inv; [lia | exact Hx | exact Hinv].
Qed.

Lemma geometryOuter_inv (n : nat) (g : Layout.geometry) :
  (n <= G)%nat ->
  geometryInv G P 0 g ->
  geometryInv G P (n * G)
    (fold_left (fun g x => Layout.geometryInner G N P x (seq 0 G) g)
               (seq 0 n) g).
Proof.
  intros Hn Hinv. induction n as [|n IH].
  - exact Hinv.
  - rewrite seq_S, fold_left_app. simpl.
    replace (G + n * G)%nat with (n * G + 0 + G)%nat by lia.
    apply geometryInner_inv; [lia | lia |].
    rewrite Nat.add_0_r. apply IH. lia.
Qed.

Lemma createGrassGeometry_inv :
  geometryInv G P N (Layout.createGrassGeometry G N P).
Proof.
  unfold Layout.createGrassGeometry.
  apply geometryOuter_inv; [lia|].
  unfold geometryInv. simpl. rewrite !length_replicate.
  repeat split; try lia.
Qed.

End LayoutProps.

Section TextureProps.

Variable G : nat.
Variable P : R.

Lemma textureBody_inv (x z : nat) (t : Layout.texture) :
  (z < G)%nat -> (x < G)%nat ->
  textureInv G P (x * G + z) t ->
  textureInv G P (x * G + z + 1) (Layout.textureBody G P x z t).
Proof.
  intros Hz Hx (Hi & Hl & Hm).
  assert (HN : (x * G + z < G * G)%nat) by nia.
  unfold textureInv, Layout.textureBody.
  cbn [Layout.data Layout.idx Layout.textureJitter].
  rewrite !length_insert, Hi.
  split; [lia|]. split; [lia|].
  intros m Hlt.
  destruct (decide (m = x * G + z)%nat) as [->|Hne].
  - destruct (cell_index G x z Hz) as [-> ->].
    repeat split; lookup_insert; reflexivity.
  - destruct (Hm m) as (H1 & H2 & H3 & H4); [lia|].
    repeat split; lookup_insert; assumption.
Qed.

Lemma textureInner_inv (x : nat) (len z0 : nat) (t : Layout.texture) :
  (x < G)%nat -> (z0 + len <= G)%nat ->
  textureInv G P (x * G + z0) t ->
  textureInv G P (x * G + z0 + len)
    (fold_left (fun t z => Layout.textureBody G P x z t) (seq z0 len) t).
Proof.
  intros Hx. revert z0 t.
  induction len as [|len IH]; intros z0 t Hle Hinv; simpl.
  - rewrite Nat.add_0_r. exact Hinv.
  - replace (x * G + z0 + S len)%nat with (x * G + S z0 + len)%nat by lia.
    apply IH; [lia|].
    replace (x * G + S z0)%nat with (x * G + z0 + 1)%nat by lia.
    apply textureBody_inv; [lia | exact Hx | exact Hinv].
Qed.

Lemma textureOuter_inv (n : nat) (t : Layout.texture) :
  (n <= G)%nat ->
  textureInv G P 0 t ->
  textureInv G P (n * G)
    (fold_left (fun t x => fold_left (fun t z => Layout.textureBody G P x z t)
                                     (seq 0 G) t)
               (seq 0 n) t).
Proof.
  intros Hn Hinv. induction n as [|n IH].
  - exact Hinv.
  - rewrite seq_S, fold_left_app. simpl.
    replace (G + n * G)%nat with (n * G + 0 + G)%nat by lia.
    apply textureInner_inv; [lia | lia |].
    rewrite Nat.add_0_r. apply IH. lia.
Qed.

Lemma createPositionTexture_inv :
  textureInv G P (G * G) (Layout.createPositionTexture G P).
Proof.
  unfold Layout.createPositionTexture.
  apply textureOuter_inv; [lia|].
  unfold textureInv. simpl. rewrite !length_replicate.
  repeat split; try lia.
Qed.

End TextureProps.

(** The deformer's texel address of instance [k] is column [k mod G],
    row [k / G]. *)

Lemma floor_INR (n : nat) : floor (INR n) = INR n.
Proof. unfold floor. rewrite Int_part_INR. symmetry. apply INR_IZR_INZ. Qed.

Lemma floor_div_INR (k G : nat) :
  (0 < G)%nat -> floor (INR k / INR G) = INR (k / G).
Proof.
  intros HG. unfold floor. rewrite (INR_IZR_INZ (k / G)). f_equal.
  symmetry. apply Int_part_spec.
  assert (HGR : 0 < INR G) by (apply lt_0_INR; lia).
  pose proof (Nat.div_mod_eq k G) as Hk.
  pose proof (Nat.mod_upper_bound k G ltac:(lia)) as Hr.
  apply lt_INR in Hr.
  pose proof (pos_INR (k mod G)) as Hr0.
  apply (f_equal INR) in Hk. rewrite plus_INR, mult_INR in Hk.
  rewrite <- INR_IZR_INZ.
  assert (Hq : INR k / INR G = INR (k / G) + INR (k mod G) / INR G).
  { rewrite Hk. field. lra. }
  rewrite Hq.
  assert (0 <= INR (k mod G) / INR G < 1).
  { split.
    - apply Rmult_le_pos; [lra|]. left. apply Rinv_0_lt_compat. lra.
    - apply Rmult_lt_reg_r with (INR G); [lra|].
      unfold Rdiv. rewrite Rmult_assoc, Rinv_l by lra. lra. }
  lra.
Qed.

Lemma mod_INR (k G : nat) :
  (0 < G)%nat -> mod_ (INR k) (INR G) = INR (k mod G).
Proof.
  intros HG. unfold mod_. rewrite floor_div_INR by exact HG.
  pose proof (Nat.div_mod_eq k G) as Hk.
  apply (f_equal INR) in Hk. rewrite plus_INR, mult_INR in Hk. lra.
Qed.

Lemma int_INR (n : nat) : int_ (INR n) = Z.of_nat n.
Proof.
  unfold int_. destruct (Rle_dec 0 (INR n)) as [_|Hn].
  - apply Int_part_INR.
  - exfalso. apply Hn, pos_INR.
Qed.

Lemma texelCoordOf_index (G k : nat) :
  (0 < G)%nat ->
  Vertex.texelCoordOf (Vec2 (INR G) (INR G)) (INR k)
  = (Z.of_nat (k mod G), Z.of_nat (k / G)).
Proof.
  intros HG.
  assert (HGR : 0 < INR G) by (apply lt_0_INR; lia).
  unfold Vertex.texelCoordOf. cbn [x2 y2].
  rewrite mod_INR, floor_div_INR by exact HG.
  replace (INR (k mod G) / INR G * INR G) with (INR (k mod G))
    by (field; lra).
  replace (INR (k / G) / INR G * INR G) with (INR (k / G))
    by (field; lra).
  rewrite !floor_INR, !int_INR. reflexivity.
Qed.

Lemma floor_half (n : nat) : floor (INR n + 0.5) = INR n.
Proof.
  unfold floor. rewrite (INR_IZR_INZ n). f_equal.
  symmetry. apply Int_part_spec. rewrite <- INR_IZR_INZ. lra.
Qed.

(** C1 (index alignment).  For every instance index [k < G * G], the layout
    generator stores identifier [k] and the jittered position of grid cell
    [(k / G, k mod G)] for instance [k]; the deformer addresses texel
    (column [k mod G], row [k / G]) from that identifier; the position
    texture holds the same x and z at that texel; and the fragment of the
    parameter pass that writes that texel samples this position. *)
Theorem index_alignment (G : nat) (P : R) (k : nat) :
  (k < G * G)%nat ->
  let geom := Layout.createGrassGeometry G (G * G) P in
  let tex := Layout.createPositionTexture G P in
  let x := (k / G)%nat in
  let z := (k mod G)%nat in
  let size := Vec2 (INR G) (INR G) in
  let frag := fragCoordOf z x in
  Layout.instanceId geom k = Some (INR k) /\
  Layout.instanceOffset geom k
    = Some (Vec3 (cellX G P x z) 0 (cellZ G P x z)) /\
  Vertex.texelCoordOf size (INR k) = (Z.of_nat z, Z.of_nat x) /\
  Layout.texelFetch G tex (Vertex.texelCoordOf size (INR k))
    = Some (Vec4 (cellX G P x z) 0 (cellZ G P x z) 0) /\
  Layout.sample G tex (Vec2 (x2 frag / x2 size) (y2 frag / y2 size))
    = Vec4 (cellX G P x z) 0 (cellZ G P x z) 0.
Proof.
  intros Hk. cbv zeta.
  assert (HG : (0 < G)%nat) by (destruct G; simpl in Hk; lia).
  assert (HGR : 0 < INR G) by (apply lt_0_INR; lia).
  destruct (createGrassGeometry_inv G P) as (_ & _ & _ & _ & Hg).
  destruct (createPositionTexture_inv G P) as (_ & _ & Ht).
  destruct (Hg k Hk) as (Ho1 & Ho2 & Ho3 & Hid).
  destruct (Ht k Hk) as (Ht1 & Ht2 & Ht3 & Ht4).
  assert (Hfetch :
    Layout.texelFetch G (Layout.createPositionTexture G P)
      (Z.of_nat (k mod G), Z.of_nat (k / G))
    = Some (Vec4 (cellX G P (k / G) (k mod G)) 0
                 (cellZ G P (k / G) (k mod G)) 0)).
  { unfold Layout.texelFetch.
    pose proof (Nat.mod_upper_bound k G ltac:(lia)) as Hz.
    replace (0 <=? Z.of_nat (k mod G))%Z with true
      by (symmetry; apply Z.leb_le; lia).
    replace (Z.of_nat (k mod G) <? Z.of_nat G)%Z with true
      by (symmetry; apply Z.ltb_lt; lia).
    replace (0 <=? Z.of_nat (k / G))%Z with true
      by (symmetry; apply Z.leb_le; lia).
    cbn [andb]. cbv zeta. rewrite !Nat2Z.id.
    replace (k / G * G + k mod G)%nat with k
      by (pose proof (Nat.div_mod_eq k G); lia).
    rewrite Ht1, Ht2, Ht3, Ht4. reflexivity. }
  split; [exact Hid|].
  split.
  { unfold Layout.instanceOffset. rewrite Ho1, Ho2, Ho3. reflexivity. }
  split; [apply texelCoordOf_index; exact HG|].
  split; [rewrite texelCoordOf_index by exact HG; exact Hfetch|].
  unfold Layout.sample, fragCoordOf. cbn [x2 y2].
  replace ((INR (k mod G) + 0.5) / INR G * INR G) with (INR (k mod G) + 0.5)
    by (field; lra).
  replace ((INR (k / G) + 0.5) / INR G * INR G) with (INR (k / G) + 0.5)
    by (field; lra).
  rewrite !floor_half, !int_INR, Hfetch. reflexivity.
Qed.

Lemma index_alignment_witness :
  (300 < Layout.GRID_SIZE * Layout.GRID_SIZE)%nat /\
  Layout.instanceId
    (Layout.createGrassGeometry Layout.GRID_SIZE Layout.GRASS_BLADES
                                Layout.PATCH_SIZE) 300
  = Some (INR 300).
Proof.
  assert (H : (300 < Layout.GRID_SIZE * Layout.GRID_SIZE)%nat)
    by (unfold Layout.GRID_SIZE; lia).
  split; [exact H|].
  exact (proj1 (index_alignment Layout.GRID_SIZE Layout.PATCH_SIZE 300 H)).
Defined.

(** C10 (jitter symmetry).  The jitter seed is [(x*7919 + z*7919) * 0.0001],
    a function of [x + z]: cells with equal coordinate sums, and so the
    transposed cells [(x, z)] and [(z, x)], get the same jitter offsets,
    in the geometry and in the position texture. *)
Theorem jitter_depends_on_sum (x z x' z' : nat) :
  (x + z = x' + z')%nat ->
  Layout.geometryJitter x z = Layout.geometryJitter x' z' /\
  Layout.textureJitter x z = Layout.textureJitter x' z' /\
  Layout.geometryJitter x z = Layout.geometryJitter z x /\
  Layout.textureJitter x z = Layout.textureJitter z x.
Proof.
  intros Hsum.
  assert (Hseed : forall a b c d : nat, (a + b = c + d)%nat ->
            (INR a * 7919 + INR b * 7919) * 0.0001
            = (INR c * 7919 + INR d * 7919) * 0.0001).
  { intros a b c d H. apply (f_equal INR) in H.
    rewrite !plus_INR in H. lra. }
  unfold Layout.geometryJitter, Layout.textureJitter.
  rewrite (Hseed x z x' z' Hsum).
  rewrite (Hseed x' z' z x) by lia.
  repeat split; try reflexivity.
  all: rewrite (Hseed z x x' z') by lia; reflexivity.
Qed.

Lemma jitter_depends_on_sum_witness :
  (1 + 2 = 2 + 1)%nat /\
  Layout.geometryJitter 1 2 = Layout.geometryJitter 2 1.
Proof.
  split; [reflexivity|].
  exact (proj1 (jitter_depends_on_sum 1 2 2 1 eq_refl)).
Defined.

(** ** Presence *)

Lemma smooth_mono (a b : R) :
  0 <= a -> a <= b -> b <= 1 ->
  a * a * (3 - 2 * a) <= b * b * (3 - 2 * b).
Proof.
  intros Ha Hab Hb.
  assert (H : b * b * (3 - 2 * b) - a * a * (3 - 2 * a)
              = (b - a) * (3 * (a + b) - 2 * (a * a + a * b + b * b)))
    by ring.
  assert (0 <= 3 * (a + b) - 2 * (a * a + a * b + b * b)) by nra.
  nra.
Qed.

(** C3 (presence).  For a clump radius [clumpRadius > 0], presence is
    non-increasing in the distance, lies in [0, 1], is 1 at distance 0 and
    is 0 from distance [clumpRadius] on. *)
Theorem presence_falloff (clumpRadius : R) :
  0 < clumpRadius ->
  (forall d1 d2, d1 <= d2 ->
     Compute.presenceOf d2 clumpRadius <= Compute.presenceOf d1 clumpRadius) /\
  (forall d, 0 <= d -> 0 <= Compute.presenceOf d clumpRadius <= 1) /\
  Compute.presenceOf 0 clumpRadius = 1 /\
  (forall d, clumpRadius <= d -> Compute.presenceOf d clumpRadius = 0).
Proof.
  intros Hr.
  assert (Hinv : 0 < / clumpRadius) by (apply Rinv_0_lt_compat; exact Hr).
  repeat split.
  - intros d1 d2 Hd. unfold Compute.presenceOf. cbv zeta.
    set (t1 := clamp ((clamp (d1 / clumpRadius) 0.0 1.0 - 0.7) / (1.0 - 0.7))
                     0.0 1.0).
    set (t2 := clamp ((clamp (d2 / clumpRadius) 0.0 1.0 - 0.7) / (1.0 - 0.7))
                     0.0 1.0).
    assert (H1 : 0 <= t1 <= 1) by apply clamp_unit.
    assert (H2 : 0 <= t2 <= 1) by apply clamp_unit.
    assert (H12 : t1 <= t2).
    { unfold t1, t2. apply clamp_mono.
      assert (clamp (d1 / clumpRadius) 0.0 1.0
              <= clamp (d2 / clumpRadius) 0.0 1.0).
      { apply clamp_mono. unfold Rdiv. nra. }
      lra. }
    pose proof (smooth_mono t1 t2 (proj1 H1) H12 (proj2 H2)). lra.
  - unfold Compute.presenceOf. cbv zeta.
    match goal with |- context [clamp ?e 0.0 1.0 * _ * _] =>
      pose proof (clamp_unit e) as Ht; set (t := clamp e 0.0 1.0) in * end.
    pose proof (smooth_mono t 1 (proj1 Ht) (proj2 Ht) (Rle_refl 1)). lra.
  - unfold Compute.presenceOf. cbv zeta.
    match goal with |- context [clamp ?e 0.0 1.0 * _ * _] =>
      pose proof (clamp_unit e) as Ht; set (t := clamp e 0.0 1.0) in * end.
    pose proof (smooth_mono 0 t (Rle_refl 0) (proj1 Ht) (proj2 Ht)). lra.
  - unfold Compute.presenceOf, clamp, Rmin, Rmax. cbv zeta.
    replace (0 / clumpRadius) with 0 by (unfold Rdiv; ring).
    repeat destruct Rle_dec; lra.
  - intros d Hd. unfold Compute.presenceOf. cbv zeta.
    assert (Hone : clamp (d / clumpRadius) 0.0 1.0 = 1).
    { assert (1 <= d / clumpRadius).
      { apply Rmult_le_reg_r with clumpRadius; [exact Hr|].
        unfold Rdiv. rewrite Rmult_assoc, Rinv_l by lra. lra. }
      unfold clamp, Rmin, Rmax. repeat destruct Rle_dec; lra. }
    rewrite Hone.
    replace ((1 - 0.7) / (1.0 - 0.7)) with 1
      by (symmetry; apply Rdiv_eq; lra).
    unfold clamp, Rmin, Rmax. repeat destruct Rle_dec; lra.
Qed.

Lemma presence_falloff_witness :
  0 < 1.5 /\ Compute.presenceOf 0 1.5 = 1.
Proof.
  assert (H : 0 < 1.5) by lra.
  split; [exact H|].
  exact (proj1 (proj2 (proj2 (presence_falloff 1.5 H)))).
Defined.

(** ** Clump locator *)

Lemma fract_bounds (x : R) : 0 <= fract x < 1.
Proof.
  destruct (base_fp x) as [H0 H1].
  unfold fract, floor. unfold frac_part in H0, H1. lra.
Qed.

Lemma floor_bounds (x : R) : floor x <= x < floor x + 1.
Proof. pose proof (fract_bounds x) as H. unfold fract in H. lra. Qed.

Lemma hash2_bounds (p : vec2) :
  0 <= x2 (Compute.hash2 p) < 1 /\ 0 <= y2 (Compute.hash2 p) < 1.
Proof. unfold Compute.hash2. cbn [x2 y2]. split; apply fract_bounds. Qed.

Lemma hash11_bounds (x : R) : 0 <= Compute.hash11 x < 1.
Proof. apply fract_bounds. Qed.

Lemma in_neighborhood (ij : Z * Z) :
  In ij Compute.neighborhood ->
  (-1 <= IZR (fst ij) <= 1) /\ (-1 <= IZR (snd ij) <= 1).
Proof.
  unfold Compute.neighborhood. simpl.
  intros H. repeat (destruct H as [<-|H]; [simpl; lra|]). destruct H.
Qed.

(** Every candidate seed is closer than the initial [minDist]. *)
Lemma seedDist2_small (cell : vec2) (ij : Z * Z) :
  In ij Compute.neighborhood ->
  0 <= Compute.seedDist2 cell (Compute.neighborCellOf (floor2 cell) ij) < 8.
Proof.
  intros Hin. destruct (in_neighborhood ij Hin) as [Hi Hj].
  unfold Compute.seedDist2. cbv zeta.
  set (nc := Compute.neighborCellOf (floor2 cell) ij).
  destruct (hash2_bounds nc) as [Hsx Hsy].
  pose proof (floor_bounds (x2 cell)) as Hfx.
  pose proof (floor_bounds (y2 cell)) as Hfy.
  unfold dot2, sub2, add2. cbn [x2 y2].
  assert (Hnx : x2 nc = floor (x2 cell) + IZR (fst ij)) by reflexivity.
  assert (Hny : y2 nc = floor (y2 cell) + IZR (snd ij)) by reflexivity.
  rewrite Hnx, Hny.
  set (dx := x2 cell - (floor (x2 cell) + IZR (fst ij) + x2 (Compute.hash2 nc))).
  set (dy := y2 cell - (floor (y2 cell) + IZR (snd ij) + y2 (Compute.hash2 nc))).
  assert (-2 < dx < 2) by (unfold dx; lra).
  assert (-2 < dy < 2) by (unfold dy; lra).
  nra.
Qed.

Section ArgMin.

Variables cell baseCell : vec2.

Abbreviation dist ij :=
  (Compute.seedDist2 cell (Compute.neighborCellOf baseCell ij)).

(** The loop keeps the first cell of least distance among those that beat
    the incoming [minDist]; it keeps its state when none does. *)
Lemma clumpFold_spec (l : list (Z * Z)) (st : R * vec2) :
  let st' := fold_left (Compute.clumpStep cell baseCell) l st in
  (st' = st /\ forall ij, In ij l -> fst st <= dist ij) \/
  (exists l1 ij l2,
      l = l1 ++ ij :: l2 /\
      st' = (dist ij, Compute.neighborCellOf baseCell ij) /\
      dist ij < fst st /\
      (forall ij', In ij' l1 -> dist ij < dist ij') /\
      (forall ij', In ij' l2 -> dist ij <= dist ij')).
Proof.
  revert st. induction l as [|c l IH]; intros st; cbn [fold_left].
  - left. split; [reflexivity | intros ij []].
  - specialize (IH (Compute.clumpStep cell baseCell st c)).
    cbv zeta in IH.
    assert (Hstep : Compute.clumpStep cell baseCell st c
                    = if Rlt_dec (dist c) (fst st)
                      then (dist c, Compute.neighborCellOf baseCell c)
                      else st) by reflexivity.
    destruct (Rlt_dec (dist c) (fst st)) as [Hlt|Hge];
      rewrite Hstep in IH |- *; clear Hstep.
    + destruct IH as [[Heq Hall] | (l1 & ij & l2 & Hl & Heq & Hd & H1 & H2)].
      * right. exists [], c, l. cbn [fst] in Hall.
        repeat split; [exact Heq | exact Hlt | intros ij' [] | exact Hall].
      * right. exists (c :: l1), ij, l2. cbn [fst] in Hd.
        repeat split; [rewrite Hl; reflexivity | exact Heq | lra | | exact H2].
        intros ij' [<-|Hin]; [exact Hd | apply H1; exact Hin].
    + destruct IH as [[Heq Hall] | (l1 & ij & l2 & Hl & Heq & Hd & H1 & H2)].
      * left. split; [exact Heq|].
        intros ij [<-|Hin]; [lra | apply Hall; exact Hin].
      * right. exists (c :: l1), ij, l2.
        repeat split; [rewrite Hl; reflexivity | exact Heq | exact Hd | | exact H2].
        intros ij' [<-|Hin]; [lra | apply H1; exact Hin].
Qed.

End ArgMin.

(** The state after the loop of [getClumpInfo], and what it returns. *)
Lemma getClumpInfo_spec (clumpSize : R) (worldXZ : vec2) :
  let cell := div2 worldXZ clumpSize in
  let baseCell := floor2 cell in
  exists l1 ij l2,
    Compute.neighborhood = l1 ++ ij :: l2 /\
    let best := Compute.neighborCellOf baseCell ij in
    Compute.getClumpInfo clumpSize worldXZ
    = Vec3 (sqrt (Compute.seedDist2 cell best) * clumpSize)
           (x2 best) (y2 best) /\
    (forall ij', In ij' l1 ->
       Compute.seedDist2 cell best
       < Compute.seedDist2 cell (Compute.neighborCellOf baseCell ij')) /\
    (forall ij', In ij' l2 ->
       Compute.seedDist2 cell best
       <= Compute.seedDist2 cell (Compute.neighborCellOf baseCell ij')).
Proof.
  intros cell baseCell.
  destruct (clumpFold_spec cell baseCell Compute.neighborhood
              (1e9, Vec2 0.0 0.0))
    as [[_ Hall] | (l1 & ij & l2 & Hl & Heq & _ & H1 & H2)].
  - exfalso.
    assert (Hin : In (0, 0)%Z Compute.neighborhood)
      by (unfold Compute.neighborhood; simpl; tauto).
    specialize (Hall _ Hin). cbn [fst] in Hall.
    pose proof (seedDist2_small cell _ Hin) as Hs.
    fold baseCell in Hs. lra.
  - exists l1, ij, l2. split; [exact Hl|]. cbv zeta.
    split; [|split; assumption].
    unfold Compute.getClumpInfo. cbv zeta.
    fold cell. fold baseCell. rewrite Heq. reflexivity.
Qed.

Lemma seed_in_cell (c : vec2) :
  let s := add2 c (Compute.hash2 c) in
  x2 c <= x2 s < x2 c + 1 /\ y2 c <= y2 s < y2 c + 1.
Proof.
  destruct (hash2_bounds c) as [Hx Hy].
  unfold add2. cbn [x2 y2]. lra.
Qed.

Lemma world_distance (clumpSize : R) (worldXZ c : vec2) :
  0 < clumpSize ->
  sqrt (Compute.seedDist2 (div2 worldXZ clumpSize) c) * clumpSize
  = length2 (sub2 worldXZ (scale2 (add2 c (Compute.hash2 c)) clumpSize)).
Proof.
  intros Hcs. unfold length2, Compute.seedDist2. cbv zeta.
  set (s := add2 c (Compute.hash2 c)).
  set (d := dot2 (sub2 (div2 worldXZ clumpSize) s)
                 (sub2 (div2 worldXZ clumpSize) s)).
  assert (Hd : 0 <= d) by (unfold d, dot2; nra).
  assert (Heq : dot2 (sub2 worldXZ (scale2 s clumpSize))
                     (sub2 worldXZ (scale2 s clumpSize))
                = clumpSize * clumpSize * d).
  { unfold d, dot2, sub2, scale2, div2. cbn [x2 y2]. field. lra. }
  rewrite Heq, sqrt_mult by nra.
  rewrite sqrt_square by lra. ring.
Qed.

(** C2 (clump locator).  For [clumpSize > 0] the position lies in cell
    [baseCell] of the grid of side [clumpSize]; every cell has one seed,
    placed inside it by hashing the cell coordinates.  The candidates are the
    nine cells [baseCell + (i, j)] with [i] and [j] in {-1, 0, 1}, visited
    row by row ([j] outer, [i] inner).  [getClumpInfo] returns the candidate
    whose seed is nearest, the first in that order on ties: strictly nearer
    than every candidate visited before it, at least as near as every one
    visited after it.  The distance returned is the distance to that seed in
    world units. *)
Theorem clump_locator (clumpSize : R) (worldXZ : vec2) :
  0 < clumpSize ->
  let cell := div2 worldXZ clumpSize in
  let baseCell := floor2 cell in
  let info := Compute.getClumpInfo clumpSize worldXZ in
  let best := Vec2 (y3 info) (z3 info) in
  let seedOf (c : vec2) := add2 c (Compute.hash2 c) in
  let candidate (ij : Z * Z) :=
    add2 baseCell (Vec2 (IZR (fst ij)) (IZR (snd ij))) in
  let d2 (c : vec2) :=
    dot2 (sub2 cell (seedOf c)) (sub2 cell (seedOf c)) in
  (x2 baseCell * clumpSize <= x2 worldXZ < (x2 baseCell + 1) * clumpSize /\
   y2 baseCell * clumpSize <= y2 worldXZ < (y2 baseCell + 1) * clumpSize) /\
  (forall c : vec2,
     x2 c <= x2 (seedOf c) < x2 c + 1 /\ y2 c <= y2 (seedOf c) < y2 c + 1) /\
  exists l1 ij l2,
    [(-1, -1); (0, -1); (1, -1);
     (-1, 0);  (0, 0);  (1, 0);
     (-1, 1);  (0, 1);  (1, 1)]%Z = l1 ++ ij :: l2 /\
    best = candidate ij /\
    (forall ij', In ij' l1 -> d2 best < d2 (candidate ij')) /\
    (forall ij', In ij' l2 -> d2 best <= d2 (candidate ij')) /\
    x3 info = sqrt (d2 best) * clumpSize /\
    x3 info = length2 (sub2 worldXZ (scale2 (seedOf best) clumpSize)).
Proof.
  intros Hcs cell baseCell info best seedOf candidate d2.
  split.
  { pose proof (floor_bounds (x2 cell)) as Hx.
    pose proof (floor_bounds (y2 cell)) as Hy.
    assert (Hwx : x2 worldXZ = x2 cell * clumpSize)
      by (unfold cell, div2; cbn [x2]; field; lra).
    assert (Hwy : y2 worldXZ = y2 cell * clumpSize)
      by (unfold cell, div2; cbn [y2]; field; lra).
    unfold baseCell, floor2. cbn [x2 y2]. rewrite Hwx, Hwy. nra. }
  split; [intros c; apply seed_in_cell|].
  destruct (getClumpInfo_spec clumpSize worldXZ)
    as (l1 & ij & l2 & Hl & Hinfo & H1 & H2).
  fold cell in Hinfo, H1, H2. fold baseCell in Hinfo, H1, H2.
  assert (Hbest : best = candidate ij).
  { unfold best, info. rewrite Hinfo. cbn [y3 z3].
    change (candidate ij) with (Compute.neighborCellOf baseCell ij).
    destruct (Compute.neighborCellOf baseCell ij). reflexivity. }
  exists l1, ij, l2. rewrite Hbest.
  split; [exact Hl|]. split; [reflexivity|].
  split; [exact H1|]. split; [exact H2|].
  split.
  - unfold info. rewrite Hinfo. reflexivity.
  - unfold info. rewrite Hinfo. cbn [x3].
    apply world_distance. exact Hcs.
Qed.

Lemma clump_locator_witness :
  0 < 0.8 /\
  exists l1 ij l2,
    [(-1, -1); (0, -1); (1, -1);
     (-1, 0);  (0, 0);  (1, 0);
     (-1, 1);  (0, 1);  (1, 1)]%Z = l1 ++ ij :: l2 /\
    Vec2 (y3 (Compute.getClumpInfo 0.8 (Vec2 0 0)))
         (z3 (Compute.getClumpInfo 0.8 (Vec2 0 0)))
    = add2 (floor2 (div2 (Vec2 0 0) 0.8))
           (Vec2 (IZR (fst ij)) (IZR (snd ij))).
Proof.
  assert (H : 0 < 0.8) by lra.
  split; [exact H|].
  destruct (clump_locator 0.8 (Vec2 0 0) H)
    as (_ & _ & l1 & ij & l2 & Hl & Hb & _).
  exists l1, ij, l2. split; [exact Hl | exact Hb].
Defined.

(** ** Parameter synthesis is a function of the sampled position *)

(** C9 (pure function of the position).  Two fragments of the parameter
    pass whose sampled positions have the same x and z, under the same
    uniforms, produce the same blade-parameter and clump-data records in
    every component.  The shader reads no time value. *)
Theorem main_depends_on_xz
    (u : Compute.uniforms) (uPositions1 uPositions2 : vec2 -> vec4)
    (frag1 frag2 : vec2) :
  let uv (f : vec2) :=
    Vec2 (x2 f / x2 (Compute.uResolution u))
         (y2 f / y2 (Compute.uResolution u)) in
  x4 (uPositions1 (uv frag1)) = x4 (uPositions2 (uv frag2)) ->
  z4 (uPositions1 (uv frag1)) = z4 (uPositions2 (uv frag2)) ->
  Compute.main u uPositions1 frag1 = Compute.main u uPositions2 frag2.
Proof.
  intros uv Hx Hz. unfold Compute.main. cbv zeta.
  fold (uv frag1). fold (uv frag2).
  assert (H : xz4 (uPositions1 (uv frag1)) = xz4 (uPositions2 (uv frag2)))
    by (unfold xz4; rewrite Hx, Hz; reflexivity).
  rewrite H. reflexivity.
Qed.

Lemma main_depends_on_xz_witness :
  x4 (Vec4 1 5 2 7) = x4 (Vec4 1 0 2 0) /\
  z4 (Vec4 1 5 2 7) = z4 (Vec4 1 0 2 0) /\
  Compute.main (Compute.Uniforms (Vec2 256 256) 0.6 0.02 0.4 0.8 1.5)
               (fun _ => Vec4 1 5 2 7) (Vec2 0.5 0.5)
  = Compute.main (Compute.Uniforms (Vec2 256 256) 0.6 0.02 0.4 0.8 1.5)
                 (fun _ => Vec4 1 0 2 0) (Vec2 3.5 0.5).
Proof.
  split; [reflexivity|]. split; [reflexivity|].
  apply (main_depends_on_xz
           (Compute.Uniforms (Vec2 256 256) 0.6 0.02 0.4 0.8 1.5)
           (fun _ => Vec4 1 5 2 7) (fun _ => Vec4 1 0 2 0)
           (Vec2 0.5 0.5) (Vec2 3.5 0.5));
    reflexivity.
Defined.

(** ** Facing angle *)

Lemma fract_0 (x : R) : x = 0 -> fract x = 0.
Proof.
  intros ->. unfold fract. change 0 with (INR 0). rewrite floor_INR.
  simpl. ring.
Qed.

Lemma hash11_0 (x : R) : x = 0 -> Compute.hash11 x = 0.
Proof.
  intros ->. unfold Compute.hash11. apply fract_0.
  rewrite Rmult_0_l, sin_0. ring.
Qed.

Lemma hash2_origin (p : vec2) :
  x2 p = 0 -> y2 p = 0 -> Compute.hash2 p = Vec2 0 0.
Proof.
  intros Hx Hy. unfold Compute.hash2, dot2. cbv zeta. rewrite Hx, Hy.
  rewrite !Rmult_0_l, Rplus_0_l, sin_0.
  rewrite !fract_0 by ring. reflexivity.
Qed.

Lemma atan2_bounds (y x : R) : - PI < atan2 y x <= PI.
Proof.
  pose proof PI_RGT_0 as Hpi.
  unfold atan2.
  destruct (Rlt_dec 0 x) as [Hx|Hx].
  { pose proof (atan_bound (y / x)). lra. }
  destruct (Rlt_dec x 0) as [Hx'|Hx'].
  { pose proof (atan_bound (y / x)) as Hb.
    assert (Hix : / x < 0) by (apply Rinv_lt_0_compat; exact Hx').
    destruct (Rle_dec 0 y) as [Hy|Hy].
    - assert (Hq : y / x <= 0) by (unfold Rdiv; nra).
      assert (atan (y / x) <= 0).
      { destruct Hq as [Hq|Hq].
        - pose proof (atan_increasing _ _ Hq) as Hi. rewrite atan_0 in Hi. lra.
        - rewrite Hq, atan_0. lra. }
      lra.
    - assert (Hq : 0 < y / x) by (unfold Rdiv; nra).
      pose proof (atan_increasing _ _ Hq) as Hi. rewrite atan_0 in Hi. lra. }
  repeat destruct Rlt_dec; lra.
Qed.

Lemma baseAngleOf_bounds (toCenter worldXZ cellId : vec2) :
  - PI - 0.725 < Compute.baseAngleOf toCenter worldXZ cellId < PI + 0.725.
Proof.
  unfold Compute.baseAngleOf. cbv zeta.
  pose proof (atan2_bounds (y2 toCenter) (x2 toCenter)) as Ha.
  pose proof (hash11_bounds (dot2 worldXZ (Vec2 37.0 17.0))) as Hb.
  pose proof (hash11_bounds (dot2 cellId (Vec2 9.7 3.1))) as Hc.
  lra.
Qed.

(** C5, as the code has it.  The base facing angle written by the parameter
    pass is the plain sum of the clump angle (in (-PI, PI]), the per-blade
    offset (in [-0.6, 0.6)) and the clump yaw (in [-0.125, 0.125)); it is not
    reduced modulo 2 PI and lies strictly between [-PI - 0.725] and
    [PI + 0.725]. *)
Theorem base_angle_range
    (u : Compute.uniforms) (uPositions : vec2 -> vec4) (frag : vec2) :
  let clumpData := snd (Compute.main u uPositions frag) in
  let clumpAngle := atan2 (y4 clumpData) (x4 clumpData) in
  let baseAngle := w4 clumpData in
  exists randomOffset clumpYaw,
    baseAngle = clumpAngle + randomOffset + clumpYaw /\
    - PI < clumpAngle <= PI /\
    - 0.6 <= randomOffset < 0.6 /\
    - 0.125 <= clumpYaw < 0.125 /\
    - PI - 0.725 < baseAngle < PI + 0.725.
Proof.
  unfold Compute.main. cbv zeta. cbn [snd x4 y4 w4].
  match goal with |- context [Compute.baseAngleOf ?tc ?w ?c] =>
    set (toCenter := tc); set (worldXZ := w); set (cellId := c) end.
  exists ((Compute.hash11 (dot2 worldXZ (Vec2 37.0 17.0)) - 0.5) * 1.2),
         ((Compute.hash11 (dot2 cellId (Vec2 9.7 3.1)) - 0.5) * 0.25).
  pose proof (hash11_bounds (dot2 worldXZ (Vec2 37.0 17.0))) as Hb.
  pose proof (hash11_bounds (dot2 cellId (Vec2 9.7 3.1))) as Hc.
  split; [reflexivity|].
  split; [apply atan2_bounds|].
  split; [lra|]. split; [lra|].
  apply baseAngleOf_bounds.
Qed.

(** At the world origin the nearest seed is the seed of cell (0, 0), at
    distance 0. *)
Lemma origin_dist_zero (ij : Z * Z) :
  In ij Compute.neighborhood ->
  Compute.seedDist2 (Vec2 0 0) (Compute.neighborCellOf (Vec2 0 0) ij) <= 0 ->
  ij = (0, 0)%Z.
Proof.
  intros Hin Hd.
  unfold Compute.neighborhood in Hin. simpl in Hin.
  repeat (destruct Hin as [Heq|Hin];
    [ subst ij; try reflexivity; exfalso;
      unfold Compute.seedDist2 in Hd; cbv zeta in Hd;
      match type of Hd with context [Compute.hash2 ?c] =>
        destruct (hash2_bounds c) as [Hsx Hsy];
        unfold Compute.neighborCellOf, dot2, sub2, add2 in Hd, Hsx, Hsy;
        cbn [x2 y2 fst snd] in Hd, Hsx, Hsy
      end;
      nra
    | ]).
  destruct Hin.
Qed.

Lemma getClumpInfo_origin (clumpSize : R) :
  Compute.getClumpInfo clumpSize (Vec2 0 0) = Vec3 0 0 0.
Proof.
  destruct (getClumpInfo_spec clumpSize (Vec2 0 0))
    as (l1 & ij & l2 & Hl & Hinfo & H1 & H2).
  cbv zeta in Hinfo, H1, H2.
  assert (Hcell : div2 (Vec2 0 0) clumpSize = Vec2 0 0).
  { unfold div2, Rdiv. cbn [x2 y2]. rewrite Rmult_0_l. reflexivity. }
  assert (Hbase : floor2 (Vec2 0 0) = Vec2 0 0).
  { unfold floor2. cbn [x2 y2]. change 0 with (INR 0).
    rewrite floor_INR. reflexivity. }
  rewrite Hcell, Hbase in Hinfo, H1, H2.
  assert (Hzero : Compute.seedDist2 (Vec2 0 0)
                    (Compute.neighborCellOf (Vec2 0 0) (0, 0)%Z) = 0).
  { unfold Compute.seedDist2. cbv zeta.
    rewrite hash2_origin
      by (unfold Compute.neighborCellOf, add2; cbn [x2 y2 fst snd]; ring).
    unfold Compute.neighborCellOf, dot2, sub2, add2. cbn [x2 y2 fst snd].
    ring. }
  assert (Hin0 : In (0, 0)%Z Compute.neighborhood)
    by (unfold Compute.neighborhood; simpl; tauto).
  assert (Hle : Compute.seedDist2 (Vec2 0 0)
                  (Compute.neighborCellOf (Vec2 0 0) ij) <= 0).
  { rewrite Hl in Hin0. apply in_app_or in Hin0.
    destruct Hin0 as [Hin|[Heq|Hin]].
    - specialize (H1 _ Hin). lra.
    - rewrite Heq. lra.
    - specialize (H2 _ Hin). lra. }
  assert (Hij : ij = (0, 0)%Z).
  { apply origin_dist_zero; [|exact Hle].
    rewrite Hl. apply in_or_app. right. left. reflexivity. }
  rewrite Hinfo, Hij, Hzero, sqrt_0.
  unfold Compute.neighborCellOf, add2. cbn [x2 y2 fst snd].
  f_equal; ring.
Qed.

Lemma atan2_x_axis : atan2 0.0 1.0 = 0.
Proof.
  unfold atan2. destruct (Rlt_dec 0 1.0) as [_|H]; [|exfalso; lra].
  replace (0.0 / 1.0) with 0 by (symmetry; apply Rdiv_eq; lra).
  apply atan_0.
Qed.

(** The parameter pass on a blade at the world origin: the clump seed of
    cell (0, 0) is the origin itself, so the guarded direction is the
    default (1, 0) and both hashes are 0. *)
Lemma main_origin (u : Compute.uniforms) (frag : vec2) :
  snd (Compute.main u (fun _ => Vec4 0 0 0 0) frag)
  = Vec4 1.0 0.0 (Compute.presenceOf 0 (Compute.clumpRadius u)) (- 0.725).
Proof.
  unfold Compute.main. cbv zeta. cbn [snd].
  change (xz4 (Vec4 0 0 0 0)) with (Vec2 0 0).
  rewrite getClumpInfo_origin. cbn [x3 y3 z3].
  rewrite hash2_origin by reflexivity.
  assert (Hdir : sub2 (scale2 (add2 (Vec2 0 0) (Vec2 0 0))
                              (Compute.clumpSize u)) (Vec2 0 0)
                 = Vec2 0 0).
  { unfold sub2, scale2, add2. cbn [x2 y2]. f_equal; ring. }
  rewrite Hdir.
  assert (Hto : Compute.toCenterOf (Vec2 0 0) = Vec2 1.0 0.0).
  { unfold Compute.toCenterOf, length2, dot2. cbv zeta. cbn [x2 y2].
    replace (0 * 0 + 0 * 0) with 0 by ring. rewrite sqrt_0.
    destruct (Rlt_dec 1e-5 0) as [H|_]; [exfalso; lra | reflexivity]. }
  rewrite Hto. cbn [x2 y2].
  f_equal.
  unfold Compute.baseAngleOf. cbv zeta. cbn [x2 y2].
  rewrite atan2_x_axis.
  rewrite !hash11_0 by (unfold dot2; cbn [x2 y2]; ring).
  lra.
Qed.

(** C5 as stated fails: the blade at the world origin gets the base facing
    angle -0.725, which is outside [0, 2 PI). *)
Lemma facing_angle_negative :
  ~ (0 <= w4 (snd (Compute.main
                     (Compute.Uniforms (Vec2 256 256) 0.6 0.02 0.4 0.8 1.5)
                     (fun _ => Vec4 0 0 0 0) (Vec2 0.5 0.5)))
     < 2 * PI).
Proof.
  rewrite main_origin. cbn [w4]. lra.
Qed.

(** ** Zero blade randomness (TSL compute function) *)

Lemma mix_same (a t : R) : mix (1.0 - a) (1.0 + a) t = 1 + a * (2 * t - 1).
Proof. unfold mix. lra. Qed.

Lemma zero_randomness_base (u : Tsl.uniforms) (pos : vec3) :
  Tsl.uBladeRandomness u = Vec3 0 0 0 ->
  (Tsl.bladeHeight (Tsl.computeFn u pos),
   Tsl.bladeWidth (Tsl.computeFn u pos),
   Tsl.bladeBend (Tsl.computeFn u pos))
  = Tsl.clumpBase u (Tsl.cellIdOf pos).
Proof.
  intros Hr. unfold Tsl.computeFn. cbv zeta. rewrite Hr. cbn [x3 y3 z3].
  destruct (Tsl.clumpBase u (Tsl.cellIdOf pos)) as [[h w] b].
  cbn [Tsl.bladeHeight Tsl.bladeWidth Tsl.bladeBend].
  rewrite !mix_same. f_equal; [f_equal|]; ring.
Qed.

Lemma fract_value (x f : R) (n : Z) :
  x = IZR n + f -> 0 <= f < 1 -> fract x = f.
Proof.
  intros Hx Hf. unfold fract, floor.
  rewrite <- (Int_part_spec x n) by lra. lra.
Qed.

Lemma floor_unit (x : R) : 0 <= x < 1 -> floor x = 0.
Proof.
  intros Hx. unfold floor.
  rewrite <- (Int_part_spec x 0%Z) by lra. reflexivity.
Qed.

(** C8, the defect.  [computeFn] takes the blade's own position as its cell
    id, so the clump base values are hashed from the blade, not from a clump.
    With the defaults of [createGrassCompute] and the blade randomness at
    (0, 0, 0), the blade at the origin and a blade less than 1.3e-5 away, in
    the same cell of the clump grid of side 0.8, get the heights 0.4 and
    0.50906246: blades of one clump do not collapse to one height. *)
Theorem clump_base_follows_blade :
  Tsl.uBladeRandomness Example.steady = Vec3 0 0 0 /\
  length3 (sub3 Example.nearBlade Example.originBlade) < 1.3e-5 /\
  floor2 (div2 (xz Example.nearBlade) 0.8)
  = floor2 (div2 (xz Example.originBlade) 0.8) /\
  Tsl.bladeHeight (Tsl.computeFn Example.steady Example.originBlade) = 0.4 /\
  Tsl.bladeHeight (Tsl.computeFn Example.steady Example.nearBlade)
  = 0.50906246.
Proof.
  pose proof PI_RGT_0 as Hpos. pose proof PI_4 as Hle.
  assert (Hx : 0 < PI / 310378.2 < 1.3e-5) by lra.
  split; [reflexivity|]. split; [|split; [|split]].
  - unfold length3, dot3, sub3, Example.nearBlade, Example.originBlade.
    cbn [x3 y3 z3].
    replace ((PI / 310378.2 - 0) * (PI / 310378.2 - 0)
             + (0 - 0) * (0 - 0) + (0 - 0) * (0 - 0))
      with ((PI / 310378.2) * (PI / 310378.2)) by ring.
    rewrite sqrt_square by lra. lra.
  - unfold floor2, div2, xz, Example.nearBlade, Example.originBlade.
    cbn [x2 y2 x3 y3 z3].
    rewrite (floor_unit (PI / 310378.2 / 0.8)) by lra.
    rewrite (floor_unit (0 / 0.8)) by lra. reflexivity.
  - pose proof (zero_randomness_base Example.steady Example.originBlade
                  eq_refl) as Hb.
    apply (f_equal (fun p => fst (fst p))) in Hb. cbn [fst] in Hb.
    rewrite Hb.
    unfold Tsl.clumpBase, Tsl.cellIdOf, Tsl.hash21, Tsl.hash11,
      Example.originBlade, Example.steady, scale2, dot2.
    cbv zeta. cbn [fst x2 y2 x3 z3 Tsl.uBladeHeightMin Tsl.uBladeHeightMax].
    replace ((0 * 11.0 * 127.1 + 0 * 11.0 * 311.7) * 37.0) with 0 by lra.
    rewrite sin_0, (fract_value (0 * 43758.5453123) 0 0%Z) by lra.
    unfold mix. lra.
  - pose proof (zero_randomness_base Example.steady Example.nearBlade
                  eq_refl) as Hb.
    apply (f_equal (fun p => fst (fst p))) in Hb. cbn [fst] in Hb.
    rewrite Hb.
    unfold Tsl.clumpBase, Tsl.cellIdOf, Tsl.hash21, Tsl.hash11,
      Example.nearBlade, Example.steady, scale2, dot2.
    cbv zeta. cbn [fst x2 y2 x3 z3 Tsl.uBladeHeightMin Tsl.uBladeHeightMax].
    replace ((PI / 310378.2 * 11.0 * 127.1 + 0 * 11.0 * 311.7) * 37.0)
      with (PI / 6) by lra.
    rewrite sin_PI6.
    rewrite (fract_value (1 / 2 * 43758.5453123) 0.27265615 21879%Z) by lra.
    unfold mix. lra.
Qed.

(** ** Zero wind strength *)

Lemma add3_scale_0 (p v : vec3) (k : R) : k = 0 -> add3 p (scale3 v k) = p.
Proof.
  intros ->. destruct p. unfold add3, scale3. cbn [x3 y3 z3].
  f_equal; ring.
Qed.

Section Calm.

Variable fbm2 : vec2 -> R -> R.
Variable rotate2D : vec2 -> R -> vec2.

Lemma windCurve_calm (u : Vertex.uniforms) (worldXZ : vec2)
    (baseAngle bladeType height bend t : R) :
  Vertex.uWindStrength u = 0 ->
  Vertex.windCurve fbm2 u worldXZ baseAngle bladeType height bend t
  = calmCurve baseAngle bladeType height bend.
Proof.
  intros H0. unfold Vertex.windCurve, calmCurve. cbv zeta. rewrite H0.
  destruct (Vertex.restCurve bladeType height bend) as [[p0 p1] p2].
  set (wind := Vertex.sampleWind fbm2 u worldXZ).
  assert (Ha : mix baseAngle
                 (atan2 (y2 (Vertex.uWindDir u)) (x2 (Vertex.uWindDir u)))
                 (0.25 * 0) + (wind * 2.0 - 1.0) * 0.35 * 0 = baseAngle)
    by (unfold mix; lra).
  rewrite Ha. cbn [x2 y2].
  rewrite !add3_scale_0 by ring.
  f_equal. ring.
Qed.

Lemma main_calm (u : Vertex.uniforms)
    (uBladeParamsTexture uClumpDataTexture : Z * Z -> vec4)
    (instanceOffset : vec3) (instanceId : R) (uv : vec2) (t1 t2 : R) :
  Vertex.uWindStrength u = 0 ->
  Vertex.main fbm2 rotate2D (Vertex.set_uTime u t1) uBladeParamsTexture
              uClumpDataTexture instanceOffset instanceId uv
  = Vertex.main fbm2 rotate2D (Vertex.set_uTime u t2) uBladeParamsTexture
                uClumpDataTexture instanceOffset instanceId uv.
Proof.
  intros H0. unfold Vertex.main. cbv zeta.
  rewrite !windCurve_calm by exact H0.
  reflexivity.
Qed.

End Calm.

(** *** Cubic variant *)

Lemma normalize_defined (v : vec3) :
  0 < dot3 v v -> normalize v = Some (scale3 v (/ length3 v)).
Proof.
  intros Hv. unfold normalize.
  destruct (Req_dec_T (length3 v) 0) as [H0|_]; [|reflexivity].
  exfalso. unfold length3 in H0. apply sqrt_eq_0 in H0; lra.
Qed.

Lemma normalize_unit (v w : vec3) : normalize v = Some w -> dot3 w w = 1.
Proof.
  unfold normalize.
  destruct (Req_dec_T (length3 v) 0) as [H0|Hn]; [discriminate|].
  intros [= <-].
  assert (Hd : 0 <= dot3 v v) by (unfold dot3; nra).
  pose proof (sqrt_sqrt _ Hd) as Hs. fold (length3 v) in Hs.
  unfold dot3, scale3 in *. cbn [x3 y3 z3] in *.
  set (L := length3 v) in *.
  assert (Hi : L * / L = 1) by (apply Rinv_r; exact Hn).
  set (i := / L) in *.
  replace (x3 v * i * (x3 v * i) + y3 v * i * (y3 v * i)
           + z3 v * i * (z3 v * i))
    with ((x3 v * x3 v + y3 v * y3 v + z3 v * z3 v) * (i * i)) by ring.
  rewrite <- Hs.
  replace (L * L * (i * i)) with ((L * i) * (L * i)) by ring.
  rewrite Hi. ring.
Qed.

Lemma safeNormalize_unit (v : vec2) :
  dot2 (VertexCubic.safeNormalize v) (VertexCubic.safeNormalize v) = 1.
Proof.
  unfold VertexCubic.safeNormalize. cbv zeta.
  destruct (Rlt_dec 1e-6 (dot2 v v)) as [Hm|Hm].
  - assert (Hd : 0 <= dot2 v v) by lra.
    pose proof (sqrt_sqrt _ Hd) as Hs.
    assert (Hn : sqrt (dot2 v v) <> 0).
    { intros H0. rewrite H0 in Hs. lra. }
    unfold inversesqrt, scale2.
    set (L := sqrt (dot2 v v)) in *.
    assert (Hi : L * / L = 1) by (apply Rinv_r; exact Hn).
    set (i := / L) in *.
    unfold dot2 in *. cbn [x2 y2].
    replace (x2 v * i * (x2 v * i) + y2 v * i * (y2 v * i))
      with ((x2 v * x2 v + y2 v * y2 v) * (i * i)) by ring.
    rewrite <- Hs.
    replace (L * L * (i * i)) with ((L * i) * (L * i)) by ring.
    rewrite Hi. ring.
  - unfold dot2. cbn [x2 y2]. lra.
Qed.

Lemma windDirection_unit (u : VertexCubic.uniforms) :
  let W := VertexCubic.getWindDirection u in
  x3 W * x3 W + z3 W * z3 W = 1 /\ y3 W = 0.
Proof.
  pose proof (safeNormalize_unit (VertexCubic.uWindDir u)) as Hn.
  unfold VertexCubic.getWindDirection. cbv zeta. cbn [x3 y3 z3].
  unfold dot2 in Hn. split; lra.
Qed.

Lemma applyWindPush_calm (u : VertexCubic.uniforms) (p : vec3 * vec3 * vec3)
    (windStrength01 height : R) :
  VertexCubic.uWindStrength u = 0 ->
  VertexCubic.applyWindPush u p windStrength01 height = p.
Proof.
  intros H0. destruct p as [[p1 p2] p3].
  unfold VertexCubic.applyWindPush. cbv zeta. rewrite H0.
  rewrite !add3_scale_0 by ring. reflexivity.
Qed.

Lemma applyWindSway_calm (u : VertexCubic.uniforms) (p : vec3 * vec3 * vec3)
    (windStrength01 height perBladeHash01 t : R) (worldXZ : vec2) :
  VertexCubic.uWindStrength u = 0 ->
  VertexCubic.applyWindSway u p windStrength01 height perBladeHash01 t worldXZ
  = Some p.
Proof.
  intros H0. destruct p as [[p1 p2] p3].
  unfold VertexCubic.applyWindSway. cbv zeta.
  destruct (windDirection_unit u) as [HW Hy]. cbv zeta in HW, Hy.
  set (W := VertexCubic.getWindDirection u) in *.
  assert (Hcw : 0 < dot3 (Vec3 (- z3 W) 0.0 (x3 W)) (Vec3 (- z3 W) 0.0 (x3 W))).
  { unfold dot3. cbn [x3 y3 z3]. lra. }
  rewrite (normalize_defined _ Hcw). cbn [mbind option_bind].
  set (c := / length3 (Vec3 (- z3 W) 0.0 (x3 W))).
  match goal with |- context [scale3 (scale3 _ c) ?k] => set (h := k) end.
  assert (Hdir : 0 < dot3 (add3 W (scale3 (scale3 (Vec3 (- z3 W) 0.0 (x3 W)) c) h))
                          (add3 W (scale3 (scale3 (Vec3 (- z3 W) 0.0 (x3 W)) c) h))).
  { unfold dot3, add3, scale3. cbn [x3 y3 z3]. rewrite Hy.
    replace ((x3 W + - z3 W * c * h) * (x3 W + - z3 W * c * h)
             + (0 + 0.0 * c * h) * (0 + 0.0 * c * h)
             + (z3 W + x3 W * c * h) * (z3 W + x3 W * c * h))
      with ((x3 W * x3 W + z3 W * z3 W) * (1 + (c * h) * (c * h)))
      by lra.
    rewrite HW. nra. }
  rewrite (normalize_defined _ Hdir). cbn [mbind option_bind].
  rewrite H0. rewrite !add3_scale_0 by ring. reflexivity.
Qed.

Lemma cubic_windCurve_calm (u : VertexCubic.uniforms) (worldXZ : vec2)
    (bladeType height bend windStrength01 perBladeHash01 t : R) :
  VertexCubic.uWindStrength u = 0 ->
  VertexCubic.windCurve u worldXZ bladeType height bend
                        windStrength01 perBladeHash01 t
  = Some (Vec3 0.0 0.0 0.0,
          (fst (VertexCubic.getBezierControlPoints bladeType height bend),
           snd (VertexCubic.getBezierControlPoints bladeType height bend),
           Vec3 0.0 height 0.0)).
Proof.
  intros H0. unfold VertexCubic.windCurve. cbv zeta.
  destruct (VertexCubic.getBezierControlPoints bladeType height bend)
    as [p1 p2].
  rewrite applyWindPush_calm by exact H0.
  rewrite applyWindSway_calm by exact H0.
  reflexivity.
Qed.

Lemma cubic_main_calm (rotate2D : vec2 -> R -> vec2)
    (u : VertexCubic.uniforms)
    (uBladeParamsTexture uClumpDataTexture uMotionSeedsTexture
       : Z * Z -> vec4)
    (instanceOffset : vec3) (instanceId : R) (uv : vec2) (t1 t2 : R) :
  VertexCubic.uWindStrength u = 0 ->
  VertexCubic.main rotate2D (VertexCubic.set_uTime u t1) uBladeParamsTexture
                   uClumpDataTexture uMotionSeedsTexture
                   instanceOffset instanceId uv
  = VertexCubic.main rotate2D (VertexCubic.set_uTime u t2) uBladeParamsTexture
                     uClumpDataTexture uMotionSeedsTexture
                     instanceOffset instanceId uv.
Proof.
  intros H0. unfold VertexCubic.main. cbv zeta.
  rewrite !cubic_windCurve_calm by exact H0.
  reflexivity.
Qed.

(** C4 (zero wind strength).  With [uWindStrength = 0] the quadratic
    deformer faces the blade at the stored base angle and evaluates the spine
    of the control polygon at rest, the cubic deformer leaves its control
    points at rest, and the whole output of either deformer is the same at
    any two time values. *)
Theorem calm_wind_is_static
    (fbm2 : vec2 -> R -> R) (rotate2D : vec2 -> R -> vec2)
    (u : Vertex.uniforms) (uc : VertexCubic.uniforms)
    (uBladeParamsTexture uClumpDataTexture uMotionSeedsTexture
       : Z * Z -> vec4)
    (instanceOffset : vec3) (instanceId : R) (uv : vec2) :
  Vertex.uWindStrength u = 0 ->
  VertexCubic.uWindStrength uc = 0 ->
  (forall time baseAngle bladeType height bend t,
     let c := Vertex.windCurve fbm2 (Vertex.set_uTime u time)
                (xz instanceOffset) baseAngle bladeType height bend t in
     Vertex.anglePre c = baseAngle /\
     (Vertex.cp0 c, Vertex.cp1 c, Vertex.cp2 c)
     = Vertex.restCurve bladeType height bend /\
     Vertex.spineOf c t
     = (let '(p0, p1, p2) := Vertex.restCurve bladeType height bend in
        Vertex.bezier2 p0 p1 p2 t)) /\
  (forall t1 t2,
     Vertex.main fbm2 rotate2D (Vertex.set_uTime u t1) uBladeParamsTexture
                 uClumpDataTexture instanceOffset instanceId uv
     = Vertex.main fbm2 rotate2D (Vertex.set_uTime u t2) uBladeParamsTexture
                   uClumpDataTexture instanceOffset instanceId uv) /\
  (forall time bladeType height bend windStrength01 perBladeHash01 t,
     VertexCubic.windCurve (VertexCubic.set_uTime uc time) (xz instanceOffset)
       bladeType height bend windStrength01 perBladeHash01 t
     = Some (Vec3 0.0 0.0 0.0,
             (fst (VertexCubic.getBezierControlPoints bladeType height bend),
              snd (VertexCubic.getBezierControlPoints bladeType height bend),
              Vec3 0.0 height 0.0))) /\
  (forall t1 t2,
     VertexCubic.main rotate2D (VertexCubic.set_uTime uc t1)
       uBladeParamsTexture uClumpDataTexture uMotionSeedsTexture
       instanceOffset instanceId uv
     = VertexCubic.main rotate2D (VertexCubic.set_uTime uc t2)
         uBladeParamsTexture uClumpDataTexture uMotionSeedsTexture
         instanceOffset instanceId uv).
Proof.
  intros H0 Hc0. repeat split.
  - rewrite windCurve_calm by exact H0. unfold calmCurve.
    destruct (Vertex.restCurve bladeType height bend) as [[p0 p1] p2].
    reflexivity.
  - rewrite windCurve_calm by exact H0. unfold calmCurve.
    destruct (Vertex.restCurve bladeType height bend) as [[p0 p1] p2].
    reflexivity.
  - rewrite windCurve_calm by exact H0. unfold calmCurve, Vertex.spineOf.
    destruct (Vertex.restCurve bladeType height bend) as [[p0 p1] p2].
    reflexivity.
  - intros t1 t2. apply main_calm. exact H0.
  - intros. apply cubic_windCurve_calm. exact Hc0.
  - intros t1 t2. apply cubic_main_calm. exact Hc0.
Qed.

Lemma calm_wind_is_static_witness :
  Vertex.uWindStrength Example.calm = 0 /\
  VertexCubic.uWindStrength Example.calmCubic = 0 /\
  Vertex.main Example.fbm2 Example.rotate2D
    (Vertex.set_uTime Example.calm 0) Example.bladeTexel Example.clumpTexel
    (Vec3 1 0 2) 7 (Vec2 0.5 0.5)
  = Vertex.main Example.fbm2 Example.rotate2D
      (Vertex.set_uTime Example.calm 10) Example.bladeTexel Example.clumpTexel
      (Vec3 1 0 2) 7 (Vec2 0.5 0.5).
Proof.
  split; [reflexivity|]. split; [reflexivity|].
  exact (proj1 (proj2 (calm_wind_is_static
                         Example.fbm2 Example.rotate2D
                         Example.calm Example.calmCubic
                         Example.bladeTexel Example.clumpTexel
                         Example.motionTexel
                         (Vec3 1 0 2) 7 (Vec2 0.5 0.5) eq_refl eq_refl))
               0 10).
Defined.

(** ** Frame construction *)

Lemma lagrange (a b : vec3) :
  dot3 (cross a b) (cross a b)
  = dot3 a a * dot3 b b - dot3 a b * dot3 a b.
Proof. unfold dot3, cross. cbn [x3 y3 z3]. ring. Qed.

Lemma cross_orthogonal (a b : vec3) (k : R) :
  dot3 (scale3 (cross a b) k) a = 0.
Proof. unfold dot3, scale3, cross. cbn [x3 y3 z3]. ring. Qed.

(** The first deformer's frame: after the parallelism test the cross product
    of a unit tangent with the chosen reference axis has squared length at
    least 1 - 0.95^2, and both normalisations are defined. *)
Lemma early_frame_guarded (tangent : vec3) :
  dot3 tangent tangent = 1 ->
  exists ref normal side,
    (ref = Vec3 1.0 0.0 0.0 \/ ref = Vec3 0.0 0.0 1.0) /\
    0.0975 <= dot3 (cross tangent ref) (cross tangent ref) /\
    normalize (cross tangent ref) = Some normal /\
    VertexEarly.frame tangent = Some (normal, side).
Proof.
  intros Hunit. unfold VertexEarly.frame. cbv zeta.
  set (ref := if Rlt_dec 0.95 (Rabs (dot3 tangent (Vec3 1.0 0.0 0.0)))
              then Vec3 0.0 0.0 1.0 else Vec3 1.0 0.0 0.0).
  assert (Href : (ref = Vec3 1.0 0.0 0.0 \/ ref = Vec3 0.0 0.0 1.0) /\
                 0.0975 <= dot3 (cross tangent ref) (cross tangent ref)).
  { unfold ref.
    destruct (Rlt_dec 0.95 (Rabs (dot3 tangent (Vec3 1.0 0.0 0.0))))
      as [Hpar|Hpar]; (split; [auto|]).
    - assert (Hx : 0.9025 < x3 tangent * x3 tangent).
      { unfold dot3 in Hpar. cbn [x3 y3 z3] in Hpar.
        unfold Rabs in Hpar. destruct Rcase_abs; nra. }
      unfold dot3, cross in *. cbn [x3 y3 z3] in *. nra.
    - assert (Hx : x3 tangent * x3 tangent <= 0.9025).
      { unfold dot3 in Hpar. cbn [x3 y3 z3] in Hpar.
        unfold Rabs in Hpar. destruct Rcase_abs; nra. }
      unfold dot3, cross in *. cbn [x3 y3 z3] in *. nra. }
  destruct Href as [Hcases Hbig].
  assert (Hn : 0 < dot3 (cross tangent ref) (cross tangent ref)) by lra.
  pose proof (normalize_defined _ Hn) as Hnormal.
  set (normal := scale3 (cross tangent ref) (/ length3 (cross tangent ref))) in *.
  assert (Hnu : dot3 normal normal = 1) by (apply (normalize_unit _ _ Hnormal)).
  assert (Hs : 0 < dot3 (cross normal tangent) (cross normal tangent)).
  { rewrite lagrange, Hnu, Hunit. unfold normal.
    rewrite cross_orthogonal. lra. }
  exists ref, normal, (scale3 (cross normal tangent)
                              (/ length3 (cross normal tangent))).
  split; [exact Hcases|]. split; [exact Hbig|]. split; [exact Hnormal|].
  rewrite Hnormal. cbn [mbind option_bind].
  rewrite (normalize_defined _ Hs). reflexivity.
Qed.

Lemma normalize_zero (v : vec3) : dot3 v v = 0 -> normalize v = None.
Proof.
  intros H0. unfold normalize, length3. rewrite H0, sqrt_0.
  destruct (Req_dec_T 0 0) as [_|H]; [reflexivity | exfalso; apply H; reflexivity].
Qed.

Lemma hash21_bounds (p : vec2) :
  0 <= x2 (Compute.hash21 p) < 1 /\ 0 <= y2 (Compute.hash21 p) < 1.
Proof. unfold Compute.hash21. cbn [x2 y2]. split; apply hash11_bounds. Qed.

(** The frame of grassVertex.glsl on a vector in the y-z plane that leans
    by at most 0.05 off the z axis. *)
Lemma near_parallel_frame (v : vec3) :
  x3 v = 0 -> 0 < y3 v -> y3 v <= 0.05 * z3 v ->
  let ref := Vec3 0.0 0.0 1.0 in
  exists tangent side normal,
    normalize v = Some tangent /\
    0.95 < Rabs (dot3 tangent ref) /\
    dot3 (cross ref tangent) (cross ref tangent) < 0.01 /\
    Vertex.frameTBN tangent = Some (side, normal) /\
    side = scale3 (cross ref tangent) (/ length3 (cross ref tangent)).
Proof.
  intros Hx Hy Hyz ref.
  assert (Hd : dot3 v v = y3 v * y3 v + z3 v * z3 v)
    by (unfold dot3; rewrite Hx; ring).
  assert (Hpos : 0 < dot3 v v) by nra.
  pose proof (sqrt_sqrt (dot3 v v) ltac:(lra)) as HL.
  pose proof (sqrt_pos (dot3 v v)) as HL0.
  fold (length3 v) in HL, HL0. rewrite Hd in HL.
  set (L := length3 v) in *.
  assert (HLpos : 0 < L) by nra.
  assert (HzL : 0.95 * L < z3 v <= L) by nra.
  assert (Hi : L * / L = 1) by (apply Rinv_r; lra).
  assert (Hi0 : 0 < / L) by (apply Rinv_0_lt_compat; lra).
  set (tangent := scale3 v (/ L)).
  assert (Hdot : dot3 tangent ref = z3 v * / L)
    by (unfold tangent, ref, dot3, scale3; cbn [x3 y3 z3]; lra).
  assert (Hcross : cross ref tangent = Vec3 (- (y3 v * / L)) 0 0).
  { unfold tangent, ref, cross, scale3. cbn [x3 y3 z3]. rewrite Hx.
    f_equal; lra. }
  assert (Hyi : 0 < y3 v * / L <= 0.05) by nra.
  assert (Hc2 : dot3 (cross ref tangent) (cross ref tangent)
                = (y3 v * / L) * (y3 v * / L))
    by (rewrite Hcross; unfold dot3; cbn [x3 y3 z3]; lra).
  assert (Hcpos : 0 < dot3 (cross ref tangent) (cross ref tangent))
    by (rewrite Hc2; nra).
  pose proof (normalize_defined _ Hcpos) as Hside.
  set (side := scale3 (cross ref tangent) (/ length3 (cross ref tangent))) in *.
  assert (Hsu : dot3 side side = 1) by (apply (normalize_unit _ _ Hside)).
  assert (Htu : dot3 tangent tangent = 1)
    by (apply (normalize_unit v), normalize_defined; exact Hpos).
  assert (Hn : 0 < dot3 (cross side tangent) (cross side tangent)).
  { rewrite lagrange, Hsu, Htu.
    assert (Hst : dot3 side tangent = 0).
    { unfold side. rewrite Hcross. unfold tangent, dot3, scale3.
      cbn [x3 y3 z3]. rewrite Hx. ring. }
    rewrite Hst. lra. }
  exists tangent, side,
    (scale3 (cross side tangent) (/ length3 (cross side tangent))).
  split; [apply normalize_defined; exact Hpos|].
  split; [rewrite Hdot, Rabs_pos_eq by nra; nra|].
  split; [rewrite Hc2; nra|].
  split; [|reflexivity].
  unfold Vertex.frameTBN. cbv zeta. fold ref.
  rewrite Hside. cbn [mbind option_bind].
  rewrite (normalize_defined _ Hn). reflexivity.
Qed.

(** C6, the defect.  In grassVertex.glsl the side vector is the normalised
    cross product of the fixed axis (0, 0, 1) and the tangent, with no test
    for parallelism.  With the controls at blade height 0.1 and bend amount
    10, for every blade of the parameter pass the root tangent without wind
    has [|dot(tangent, ref)| > 0.95], the test of the first deformer; the
    cross product has squared length below 0.01 and the side is that cross
    product normalised.  For the tangent (0, 0, 1) itself the frame is
    undefined. *)
Theorem frame_unguarded_near_parallel
    (fbm2 : vec2 -> R -> R) (uPositions : vec2 -> vec4) (frag : vec2)
    (worldXZ : vec2) (baseAngle : R) :
  let ref := Vec3 0.0 0.0 1.0 in
  let bladeParams := fst (Compute.main Example.shortBent uPositions frag) in
  (exists tangent side normal,
     Vertex.tangentOf
       (Vertex.windCurve fbm2 Example.calm worldXZ baseAngle
          (w4 bladeParams) (x4 bladeParams) (z4 bladeParams) 0) 0
     = Some tangent /\
     0.95 < Rabs (dot3 tangent ref) /\
     dot3 (cross ref tangent) (cross ref tangent) < 0.01 /\
     Vertex.frameTBN tangent = Some (side, normal) /\
     side = scale3 (cross ref tangent) (/ length3 (cross ref tangent))) /\
  Vertex.frameTBN ref = None.
Proof.
  intros ref bladeParams. split.
  - rewrite windCurve_calm by reflexivity.
    unfold bladeParams, Compute.main. cbv zeta. cbn [fst].
    unfold Compute.getGrassParams, Compute.getClumpParams. cbv zeta.
    cbn [x4 y4 z4 w4 Example.shortBent Compute.bladeHeight
         Compute.bladeWidth Compute.bendAmount].
    match goal with
    | |- context [0.1 * (0.8 + x2 (Compute.hash21 ?a) * 0.4)
                  * (0.6 + x2 (Compute.hash21 ?b) * 0.6)] =>
        destruct (hash21_bounds a) as [Ha _];
        destruct (hash21_bounds b) as [Hb _];
        set (height := 0.1 * (0.8 + x2 (Compute.hash21 a) * 0.4)
                       * (0.6 + x2 (Compute.hash21 b) * 0.6)) in *
    end.
    match goal with
    | |- context [10 * (0.7 + x2 (Compute.hash21 ?a) * 0.5)
                  * (0.8 + x2 (Compute.hash21 ?b) * 0.4)] =>
        destruct (hash21_bounds a) as [Hc _];
        destruct (hash21_bounds b) as [He _];
        set (bend := 10 * (0.7 + x2 (Compute.hash21 a) * 0.5)
                     * (0.8 + x2 (Compute.hash21 b) * 0.4)) in *
    end.
    assert (Hh : 0.048 <= height <= 0.144) by (unfold height; nra).
    assert (Hbend : 5.6 <= bend <= 14.4) by (unfold bend; nra).
    clearbody height bend.
    unfold calmCurve, Vertex.restCurve, Vertex.tangentOf. cbv zeta.
    destruct (Rlt_dec _ 0.5) as [H1|H1];
      [|destruct (Rlt_dec _ 1.5) as [H2|H2]];
      cbn [Vertex.cp0 Vertex.cp1 Vertex.cp2];
      apply near_parallel_frame;
      unfold Vertex.bezier2Tangent, add3, scale3, sub3; cbn [x3 y3 z3];
      lra.
  - unfold Vertex.frameTBN. cbv zeta. fold ref.
    rewrite normalize_zero; [reflexivity|].
    unfold ref, dot3, cross. cbn [x3 y3 z3]. lra.
Qed.

(** ** Guarded and unguarded normalisations *)

Lemma toCenterOf_unit (dir : vec2) :
  dot2 (Compute.toCenterOf dir) (Compute.toCenterOf dir) = 1.
Proof.
  unfold Compute.toCenterOf. cbv zeta.
  destruct (Rlt_dec 1e-5 (length2 dir)) as [Hlen|Hlen].
  - assert (Hd : 0 <= dot2 dir dir) by (unfold dot2; nra).
    pose proof (sqrt_sqrt _ Hd) as Hs. fold (length2 dir) in Hs.
    set (L := length2 dir) in *.
    assert (Hi : L * / L = 1) by (apply Rinv_r; lra).
    unfold div2, Rdiv, dot2 in *. cbn [x2 y2].
    set (i := / L) in *.
    replace (x2 dir * i * (x2 dir * i) + y2 dir * i * (y2 dir * i))
      with ((x2 dir * x2 dir + y2 dir * y2 dir) * (i * i)) by ring.
    rewrite <- Hs.
    replace (L * L * (i * i)) with ((L * i) * (L * i)) by ring.
    rewrite Hi. ring.
  - unfold dot2. cbn [x2 y2]. lra.
Qed.

Lemma positive_y_defined (v : vec3) :
  0 < y3 v -> exists w, normalize v = Some w /\ dot3 w w = 1.
Proof.
  intros Hy.
  assert (Hv : 0 < dot3 v v) by (unfold dot3; nra).
  exists (scale3 v (/ length3 v)).
  split; [apply normalize_defined; exact Hv|].
  apply (normalize_unit v), normalize_defined. exact Hv.
Qed.

Lemma tangent_defined (fbm2 : vec2 -> R -> R) (u : Vertex.uniforms)
    (worldXZ : vec2) (baseAngle bladeType height bend t : R) :
  0 < height -> 0 <= t <= 1 ->
  exists tangent,
    Vertex.tangentOf
      (Vertex.windCurve fbm2 u worldXZ baseAngle bladeType height bend t) t
    = Some tangent /\
    dot3 tangent tangent = 1.
Proof.
  intros Hh Ht. unfold Vertex.tangentOf. apply positive_y_defined.
  unfold Vertex.windCurve, Vertex.restCurve. cbv zeta.
  destruct (Rlt_dec bladeType 0.5) as [H1|H1];
    [|destruct (Rlt_dec bladeType 1.5) as [H2|H2]];
    cbn [Vertex.cp0 Vertex.cp1 Vertex.cp2];
    unfold Vertex.bezier2Tangent, add3, scale3, sub3; cbn [x3 y3 z3]; nra.
Qed.

(** C7 as stated fails for the curve tangent: for a blade of height 0 and
    bend 0 the tangent is the zero vector and its normalisation is
    undefined; no default vector is substituted. *)
Lemma tangent_normalize_unguarded :
  ~ (exists tangent,
       Vertex.tangentOf
         (Vertex.windCurve Example.fbm2 Example.calm (Vec2 1 2) 0 0 0 0 0.5)
         0.5
       = Some tangent).
Proof.
  intros [tangent H].
  rewrite windCurve_calm in H by reflexivity.
  unfold calmCurve, Vertex.restCurve, Vertex.tangentOf in H. cbv zeta in H.
  destruct (Rlt_dec 0 0.5) as [_|Hn]; [|apply Hn; lra].
  cbn [Vertex.cp0 Vertex.cp1 Vertex.cp2] in H.
  rewrite normalize_zero in H; [discriminate|].
  unfold Vertex.bezier2Tangent, dot3, add3, scale3, sub3. cbn [x3 y3 z3].
  lra.
Qed.

(** C7, as the code has it.  The direction to the clump centre and the wind
    direction are normalised behind a length test: each result is a unit
    vector, the default (1, 0) when the length is at most 1e-5 (squared
    length at most 1e-6), and the division is by a non-zero length.  The
    curve tangent is normalised without a test; it is defined, and a unit
    vector, whenever the blade height is positive and [0 <= t <= 1]. *)
Theorem normalizations_guarded
    (fbm2 : vec2 -> R -> R) (u : Vertex.uniforms) (worldXZ : vec2)
    (baseAngle bladeType height bend t : R) :
  0 < height -> 0 <= t <= 1 ->
  (forall dir : vec2,
     dot2 (Compute.toCenterOf dir) (Compute.toCenterOf dir) = 1 /\
     (length2 dir <= 1e-5 -> Compute.toCenterOf dir = Vec2 1.0 0.0) /\
     (1e-5 < length2 dir ->
      length2 dir <> 0 /\
      Compute.toCenterOf dir = div2 dir (length2 dir))) /\
  (forall v : vec2,
     dot2 (VertexCubic.safeNormalize v) (VertexCubic.safeNormalize v) = 1 /\
     (dot2 v v <= 1e-6 -> VertexCubic.safeNormalize v = Vec2 1.0 0.0) /\
     (1e-6 < dot2 v v ->
      sqrt (dot2 v v) <> 0 /\
      VertexCubic.safeNormalize v = scale2 v (inversesqrt (dot2 v v)))) /\
  (exists tangent,
     Vertex.tangentOf
       (Vertex.windCurve fbm2 u worldXZ baseAngle bladeType height bend t) t
     = Some tangent /\
     dot3 tangent tangent = 1).
Proof.
  intros Hh Ht. split; [|split].
  - intros dir. split; [apply toCenterOf_unit|].
    unfold Compute.toCenterOf. cbv zeta.
    destruct (Rlt_dec 1e-5 (length2 dir)) as [Hlen|Hlen]; split.
    + intros Hle. exfalso. lra.
    + intros _. split; [lra | reflexivity].
    + intros _. reflexivity.
    + intros Hlt. exfalso. lra.
  - intros v. split; [apply safeNormalize_unit|].
    unfold VertexCubic.safeNormalize. cbv zeta.
    destruct (Rlt_dec 1e-6 (dot2 v v)) as [Hm|Hm]; split.
    + intros Hle. exfalso. lra.
    + intros _. split; [|reflexivity].
      intros H0. pose proof (sqrt_sqrt (dot2 v v) ltac:(lra)) as Hs.
      rewrite H0 in Hs. lra.
    + intros _. reflexivity.
    + intros Hlt. exfalso. lra.
  - apply tangent_defined; assumption.
Qed.

Lemma normalizations_guarded_witness :
  0 < 0.6 /\ 0 <= 0.5 <= 1 /\
  exists tangent,
    Vertex.tangentOf
      (Vertex.windCurve Example.fbm2 Example.calm (Vec2 1 2) 0 0 0.6 0.4 0.5)
      0.5
    = Some tangent /\
    dot3 tangent tangent = 1.
Proof.
  assert (Hh : 0 < 0.6) by lra.
  assert (Ht : 0 <= 0.5 <= 1) by lra.
  split; [exact Hh|]. split; [exact Ht|].
  exact (proj2 (proj2 (normalizations_guarded
                         Example.fbm2 Example.calm (Vec2 1 2)
                         0 0 0.6 0.4 0.5 Hh Ht))).
Defined.

(** * Further properties of the modelled code *)

(** ** Layout: the field stays inside the patch *)

Lemma seededRandom_bounds (seed : R) : 0 <= Layout.seededRandom seed < 1.
Proof. unfold Layout.seededRandom. cbv zeta. apply fract_bounds. Qed.

Lemma jitter_bounds (x z : nat) :
  - 0.1 <= fst (Layout.geometryJitter x z) < 0.1 /\
  - 0.1 <= snd (Layout.geometryJitter x z) < 0.1.
Proof.
  unfold Layout.geometryJitter. cbv zeta. cbn [fst snd].
  pose proof (seededRandom_bounds ((INR x * 7919 + INR z * 7919) * 0.0001)).
  pose proof (seededRandom_bounds
                ((INR x * 7919 + INR z * 7919) * 0.0001 + 1.0)).
  lra.
Qed.

Lemma grid_fraction (G x : nat) :
  (x < G)%nat -> 0 <= INR x / INR G < 1.
Proof.
  intros Hx.
  assert (HG : 0 < INR G) by (apply lt_0_INR; lia).
  pose proof (pos_INR x) as Hx0. apply lt_INR in Hx.
  assert (Hi : 0 < / INR G) by (apply Rinv_0_lt_compat; exact HG).
  split.
  - unfold Rdiv. nra.
  - apply Rmult_lt_reg_r with (INR G); [exact HG|].
    unfold Rdiv. rewrite Rmult_assoc, Rinv_l by lra. lra.
Qed.

(** Every blade base position lies on the ground plane, within the patch
    of side [P] centred at the origin, widened by the jitter amplitude 0.1
    on each side. *)
Theorem offsets_within_patch (G : nat) (P : R) (k : nat) :
  0 <= P -> (k < G * G)%nat ->
  exists off,
    Layout.instanceOffset (Layout.createGrassGeometry G (G * G) P) k
    = Some off /\
    - (P / 2) - 0.1 <= x3 off < P / 2 + 0.1 /\
    y3 off = 0 /\
    - (P / 2) - 0.1 <= z3 off < P / 2 + 0.1.
Proof.
  intros HP Hk.
  assert (HG : (0 < G)%nat) by (destruct G; simpl in Hk; lia).
  destruct (createGrassGeometry_inv G P) as (_ & _ & _ & _ & Hg).
  destruct (Hg k Hk) as (Ho1 & Ho2 & Ho3 & _).
  exists (Vec3 (cellX G P (k / G) (k mod G)) 0 (cellZ G P (k / G) (k mod G))).
  split.
  { unfold Layout.instanceOffset. rewrite Ho1, Ho2, Ho3. reflexivity. }
  cbn [x3 y3 z3]. unfold cellX, cellZ.
  destruct (jitter_bounds (k / G) (k mod G)) as [Hjx Hjz].
  assert (Hx : (k / G < G)%nat) by (apply Nat.Div0.div_lt_upper_bound; lia).
  assert (Hz : (k mod G < G)%nat) by (apply Nat.mod_upper_bound; lia).
  pose proof (grid_fraction G _ Hx) as Hfx.
  pose proof (grid_fraction G _ Hz) as Hfz.
  repeat split; try reflexivity; nra.
Qed.

Lemma offsets_within_patch_witness :
  0 <= Layout.PATCH_SIZE /\
  (300 < Layout.GRID_SIZE * Layout.GRID_SIZE)%nat /\
  exists off,
    Layout.instanceOffset
      (Layout.createGrassGeometry Layout.GRID_SIZE Layout.GRASS_BLADES
                                  Layout.PATCH_SIZE) 300
    = Some off /\
    y3 off = 0.
Proof.
  assert (HP : 0 <= Layout.PATCH_SIZE) by (unfold Layout.PATCH_SIZE; lra).
  assert (Hk : (300 < Layout.GRID_SIZE * Layout.GRID_SIZE)%nat)
    by (unfold Layout.GRID_SIZE; lia).
  split; [exact HP|]. split; [exact Hk|].
  destruct (offsets_within_patch Layout.GRID_SIZE Layout.PATCH_SIZE 300 HP Hk)
    as (off & Hoff & _ & Hy & _).
  exists off. split; [exact Hoff | exact Hy].
Defined.

(** ** Parameter pass: ranges of the synthesised parameters *)

Lemma floor_third (c : R) :
  0 <= c < 1 -> floor (c * 3.0) = 0 \/ floor (c * 3.0) = 1 \/ floor (c * 3.0) = 2.
Proof.
  intros Hc. unfold floor.
  destruct (Rlt_dec (c * 3.0) 1) as [H1|H1].
  { left. rewrite <- (Int_part_spec (c * 3.0) 0%Z); [reflexivity | lra]. }
  destruct (Rlt_dec (c * 3.0) 2) as [H2|H2].
  { right. left.
    rewrite <- (Int_part_spec (c * 3.0) 1%Z); [reflexivity | lra]. }
  right. right.
  rewrite <- (Int_part_spec (c * 3.0) 2%Z); [reflexivity | lra].
Qed.

Lemma product_range (a f la ua lf uf : R) :
  0 <= la -> la <= a <= ua -> 0 <= lf -> lf <= f <= uf ->
  la * lf <= a * f <= ua * uf.
Proof.
  intros Hla Ha Hlf Hf. split.
  - apply Rmult_le_compat; lra.
  - apply Rmult_le_compat; lra.
Qed.

Lemma getClumpParams_bounds (u : Compute.uniforms) (cellId : vec2) :
  0 <= Compute.bladeHeight u -> 0 <= Compute.bladeWidth u ->
  0 <= Compute.bendAmount u ->
  let cp := Compute.getClumpParams u cellId in
  0.8 * Compute.bladeHeight u <= x4 cp <= 1.2 * Compute.bladeHeight u /\
  0.6 * Compute.bladeWidth u <= y4 cp <= 1.4 * Compute.bladeWidth u /\
  0.7 * Compute.bendAmount u <= z4 cp <= 1.2 * Compute.bendAmount u /\
  (w4 cp = 0 \/ w4 cp = 1 \/ w4 cp = 2).
Proof.
  intros HH HW HB. unfold Compute.getClumpParams. cbv zeta. cbn [x4 y4 z4 w4].
  destruct (hash21_bounds (scale2 cellId 11.0)) as [H1x H1y].
  destruct (hash21_bounds (scale2 cellId 23.0)) as [H2x H2y].
  repeat split; try nra.
  apply floor_third. exact H2y.
Qed.

(** The blade parameters written by the parameter pass stay within fixed
    multiples of the configured height, width and bend, and the blade type
    is 0, 1 or 2. *)
Theorem blade_parameter_ranges
    (u : Compute.uniforms) (uPositions : vec2 -> vec4) (frag : vec2) :
  0 <= Compute.bladeHeight u -> 0 <= Compute.bladeWidth u ->
  0 <= Compute.bendAmount u ->
  let bladeParams := fst (Compute.main u uPositions frag) in
  0.48 * Compute.bladeHeight u <= x4 bladeParams
    <= 1.44 * Compute.bladeHeight u /\
  0.36 * Compute.bladeWidth u <= y4 bladeParams
    <= 1.68 * Compute.bladeWidth u /\
  0.56 * Compute.bendAmount u <= z4 bladeParams
    <= 1.44 * Compute.bendAmount u /\
  (w4 bladeParams = 0 \/ w4 bladeParams = 1 \/ w4 bladeParams = 2).
Proof.
  intros HH HW HB. unfold Compute.main. cbv zeta. cbn [fst].
  match goal with |- context [Compute.getGrassParams ?w _] =>
    set (worldXZ := w) end.
  match goal with |- context [Compute.getClumpParams u ?c] =>
    set (cellId := c) end.
  destruct (getClumpParams_bounds u cellId HH HW HB) as (Hx & Hy & Hz & Hw).
  set (cp := Compute.getClumpParams u cellId) in *.
  unfold Compute.getGrassParams. cbv zeta. cbn [x4 y4 z4 w4].
  destruct (hash21_bounds (scale2 worldXZ 13.0)) as [H1x H1y].
  destruct (hash21_bounds (scale2 worldXZ 29.0)) as [H2x _].
  pose proof (product_range (x4 cp) (0.6 + x2 (Compute.hash21 (scale2 worldXZ 13.0)) * 0.6)
                (0.8 * Compute.bladeHeight u) (1.2 * Compute.bladeHeight u)
                0.6 1.2 ltac:(lra) Hx ltac:(lra) ltac:(lra)) as Px.
  pose proof (product_range (y4 cp) (0.6 + y2 (Compute.hash21 (scale2 worldXZ 13.0)) * 0.6)
                (0.6 * Compute.bladeWidth u) (1.4 * Compute.bladeWidth u)
                0.6 1.2 ltac:(lra) Hy ltac:(lra) ltac:(lra)) as Py.
  pose proof (product_range (z4 cp) (0.8 + x2 (Compute.hash21 (scale2 worldXZ 29.0)) * 0.4)
                (0.7 * Compute.bendAmount u) (1.2 * Compute.bendAmount u)
                0.8 1.2 ltac:(lra) Hz ltac:(lra) ltac:(lra)) as Pz.
  split; [lra|]. split; [lra|]. split; [lra|]. exact Hw.
Qed.

Lemma blade_parameter_ranges_witness :
  0 <= Compute.bladeHeight Example.shortBent /\
  0 <= Compute.bladeWidth Example.shortBent /\
  0 <= Compute.bendAmount Example.shortBent /\
  0.48 * Compute.bladeHeight Example.shortBent
  <= x4 (fst (Compute.main Example.shortBent (fun _ => Vec4 1 0 2 0)
                           (Vec2 0.5 0.5))).
Proof.
  assert (HH : 0 <= Compute.bladeHeight Example.shortBent) by (simpl; lra).
  assert (HW : 0 <= Compute.bladeWidth Example.shortBent) by (simpl; lra).
  assert (HB : 0 <= Compute.bendAmount Example.shortBent) by (simpl; lra).
  split; [exact HH|]. split; [exact HW|]. split; [exact HB|].
  exact (proj1 (proj1 (blade_parameter_ranges Example.shortBent
                         (fun _ => Vec4 1 0 2 0) (Vec2 0.5 0.5) HH HW HB))).
Defined.

(** Two blades that the clump locator assigns to the same cell get the same
    blade type, and their heights differ by less than a factor of two. *)
Theorem same_clump_coherence
    (u : Compute.uniforms) (uPositions1 uPositions2 : vec2 -> vec4)
    (frag1 frag2 : vec2) :
  let worldXZ (uPositions : vec2 -> vec4) (frag : vec2) :=
    xz4 (uPositions (Vec2 (x2 frag / x2 (Compute.uResolution u))
                          (y2 frag / y2 (Compute.uResolution u)))) in
  let cellOf (w : vec2) :=
    Vec2 (y3 (Compute.getClumpInfo (Compute.clumpSize u) w))
         (z3 (Compute.getClumpInfo (Compute.clumpSize u) w)) in
  0 < Compute.bladeHeight u ->
  cellOf (worldXZ uPositions1 frag1) = cellOf (worldXZ uPositions2 frag2) ->
  let bp1 := fst (Compute.main u uPositions1 frag1) in
  let bp2 := fst (Compute.main u uPositions2 frag2) in
  w4 bp1 = w4 bp2 /\ x4 bp1 < 2 * x4 bp2 /\ x4 bp2 < 2 * x4 bp1.
Proof.
  intros worldXZ cellOf HH Hcell. unfold Compute.main. cbv zeta. cbn [fst].
  fold (worldXZ uPositions1 frag1). fold (worldXZ uPositions2 frag2).
  fold (cellOf (worldXZ uPositions1 frag1)).
  fold (cellOf (worldXZ uPositions2 frag2)).
  rewrite Hcell.
  set (w1 := worldXZ uPositions1 frag1). set (w2 := worldXZ uPositions2 frag2).
  set (cp := Compute.getClumpParams u (cellOf w2)).
  assert (Hcp : 0 < x4 cp).
  { unfold cp, Compute.getClumpParams. cbv zeta. cbn [x4].
    destruct (hash21_bounds (scale2 (cellOf w2) 11.0)) as [H1x _]. nra. }
  unfold Compute.getGrassParams. cbv zeta. cbn [x4 w4].
  destruct (hash21_bounds (scale2 w1 13.0)) as [Ha _].
  destruct (hash21_bounds (scale2 w2 13.0)) as [Hb _].
  repeat split; nra.
Qed.

Lemma same_clump_coherence_witness :
  0 < Compute.bladeHeight Example.shortBent /\
  w4 (fst (Compute.main Example.shortBent (fun _ => Vec4 1 0 2 0)
                        (Vec2 0.5 0.5)))
  = w4 (fst (Compute.main Example.shortBent (fun _ => Vec4 1 5 2 7)
                          (Vec2 1.5 0.5))).
Proof.
  assert (HH : 0 < Compute.bladeHeight Example.shortBent) by (simpl; lra).
  split; [exact HH|].
  exact (proj1 (same_clump_coherence Example.shortBent
                  (fun _ => Vec4 1 0 2 0) (fun _ => Vec4 1 5 2 7)
                  (Vec2 0.5 0.5) (Vec2 1.5 0.5) HH eq_refl)).
Defined.

(** ** Clump locator: reach of the 3x3 search *)

Lemma own_cell_close (cell : vec2) :
  Compute.seedDist2 cell (Compute.neighborCellOf (floor2 cell) (0, 0)%Z) < 2.
Proof.
  unfold Compute.seedDist2. cbv zeta.
  set (nc := Compute.neighborCellOf (floor2 cell) (0, 0)%Z).
  destruct (hash2_bounds nc) as [Hsx Hsy].
  pose proof (floor_bounds (x2 cell)) as Hfx.
  pose proof (floor_bounds (y2 cell)) as Hfy.
  assert (Hnx : x2 nc = floor (x2 cell) + 0) by reflexivity.
  assert (Hny : y2 nc = floor (y2 cell) + 0) by reflexivity.
  unfold dot2, sub2, add2. cbn [x2 y2]. rewrite Hnx, Hny.
  set (dx := x2 cell - (floor (x2 cell) + 0 + x2 (Compute.hash2 nc))).
  set (dy := y2 cell - (floor (y2 cell) + 0 + y2 (Compute.hash2 nc))).
  assert (-1 < dx < 1) by (unfold dx; lra).
  assert (-1 < dy < 1) by (unfold dy; lra).
  nra.
Qed.

Lemma seedDist2_nonneg (cell c : vec2) : 0 <= Compute.seedDist2 cell c.
Proof. unfold Compute.seedDist2, dot2. cbv zeta. nra. Qed.

(** The squared distance kept by the loop is below 2 and is least over the
    whole neighbourhood. *)
Lemma getClumpInfo_least (clumpSize : R) (worldXZ : vec2) :
  let cell := div2 worldXZ clumpSize in
  let baseCell := floor2 cell in
  exists best,
    Compute.getClumpInfo clumpSize worldXZ
    = Vec3 (sqrt (Compute.seedDist2 cell best) * clumpSize)
           (x2 best) (y2 best) /\
    Compute.seedDist2 cell best < 2 /\
    forall ij, In ij Compute.neighborhood ->
      Compute.seedDist2 cell best
      <= Compute.seedDist2 cell (Compute.neighborCellOf baseCell ij).
Proof.
  intros cell baseCell.
  destruct (getClumpInfo_spec clumpSize worldXZ)
    as (l1 & ij & l2 & Hl & Hinfo & H1 & H2).
  fold cell in Hinfo, H1, H2. fold baseCell in Hinfo, H1, H2.
  cbv zeta in Hinfo, H1, H2.
  assert (Hall : forall ij', In ij' Compute.neighborhood ->
            Compute.seedDist2 cell (Compute.neighborCellOf baseCell ij)
            <= Compute.seedDist2 cell (Compute.neighborCellOf baseCell ij')).
  { intros ij' Hin. rewrite Hl in Hin. apply in_app_or in Hin.
    destruct Hin as [Hin|[Heq|Hin]].
    - left. apply H1. exact Hin.
    - rewrite Heq. lra.
    - apply H2. exact Hin. }
  exists (Compute.neighborCellOf baseCell ij).
  split; [exact Hinfo|]. split; [|exact Hall].
  assert (Hin0 : In (0, 0)%Z Compute.neighborhood)
    by (unfold Compute.neighborhood; simpl; tauto).
  pose proof (Hall _ Hin0) as Hle.
  pose proof (own_cell_close cell) as Hown. fold baseCell in Hown. lra.
Qed.

(** The distance returned by the clump locator is non-negative and below
    [sqrt 2] cell sides: the seed of the blade's own cell is always among
    the candidates. *)
Theorem clump_distance_bound (clumpSize : R) (worldXZ : vec2) :
  0 < clumpSize ->
  let dist := x3 (Compute.getClumpInfo clumpSize worldXZ) in
  0 <= dist /\ dist * dist < 2 * (clumpSize * clumpSize).
Proof.
  intros Hcs. cbv zeta.
  destruct (getClumpInfo_least clumpSize worldXZ) as (best & Hinfo & Hlt & _).
  cbv zeta in Hinfo, Hlt. rewrite Hinfo. cbn [x3].
  set (d := Compute.seedDist2 (div2 worldXZ clumpSize) best) in *.
  assert (Hd : 0 <= d) by apply seedDist2_nonneg.
  pose proof (sqrt_pos d) as Hs. pose proof (sqrt_sqrt d Hd) as Hss.
  split; [apply Rmult_le_pos; lra|].
  replace (sqrt d * clumpSize * (sqrt d * clumpSize))
    with (sqrt d * sqrt d * (clumpSize * clumpSize)) by ring.
  rewrite Hss. apply Rmult_lt_compat_r; [nra | exact Hlt].
Qed.

Lemma clump_distance_bound_witness :
  0 < 0.8 /\ 0 <= x3 (Compute.getClumpInfo 0.8 (Vec2 1 2)).
Proof.
  assert (H : 0 < 0.8) by lra.
  split; [exact H|].
  exact (proj1 (clump_distance_bound 0.8 (Vec2 1 2) H)).
Defined.

Lemma far_cell_dist (cell : vec2) (i j : Z) :
  ~ In (i, j) Compute.neighborhood ->
  1 < Compute.seedDist2 cell (Compute.neighborCellOf (floor2 cell) (i, j)).
Proof.
  intros Hout.
  assert (Hfar : (i <= -2 \/ 2 <= i \/ j <= -2 \/ 2 <= j)%Z).
  { destruct (Z_le_gt_dec i (-2)) as [?|Hi1]; [lia|].
    destruct (Z_le_gt_dec 2 i) as [?|Hi2]; [lia|].
    destruct (Z_le_gt_dec j (-2)) as [?|Hj1]; [lia|].
    destruct (Z_le_gt_dec 2 j) as [?|Hj2]; [lia|].
    exfalso. apply Hout. unfold Compute.neighborhood. simpl.
    assert (Hi : (i = -1 \/ i = 0 \/ i = 1)%Z) by lia.
    assert (Hj : (j = -1 \/ j = 0 \/ j = 1)%Z) by lia.
    destruct Hi as [->|[->| ->]]; destruct Hj as [->|[->| ->]]; tauto. }
  unfold Compute.seedDist2. cbv zeta.
  set (nc := Compute.neighborCellOf (floor2 cell) (i, j)).
  destruct (hash2_bounds nc) as [Hsx Hsy].
  pose proof (floor_bounds (x2 cell)) as Hfx.
  pose proof (floor_bounds (y2 cell)) as Hfy.
  assert (Hnx : x2 nc = floor (x2 cell) + IZR i) by reflexivity.
  assert (Hny : y2 nc = floor (y2 cell) + IZR j) by reflexivity.
  unfold dot2, sub2, add2. cbn [x2 y2]. rewrite Hnx, Hny.
  set (dx := x2 cell - (floor (x2 cell) + IZR i + x2 (Compute.hash2 nc))).
  set (dy := y2 cell - (floor (y2 cell) + IZR j + y2 (Compute.hash2 nc))).
  destruct Hfar as [H|[H|[H|H]]]; apply IZR_le in H.
  - assert (1 < dx) by (unfold dx; lra). nra.
  - assert (dx < -1) by (unfold dx; lra). nra.
  - assert (1 < dy) by (unfold dy; lra). nra.
  - assert (dy < -1) by (unfold dy; lra). nra.
Qed.

(** Whenever the returned distance is at most one cell side, the returned
    seed is the nearest seed of the whole plane, not only of the 3x3
    neighbourhood: every seed of a cell outside the neighbourhood is more
    than one cell side away. *)
Theorem clump_locator_global (clumpSize : R) (worldXZ : vec2) (i j : Z) :
  0 < clumpSize ->
  x3 (Compute.getClumpInfo clumpSize worldXZ) <= clumpSize ->
  let cell := div2 worldXZ clumpSize in
  let info := Compute.getClumpInfo clumpSize worldXZ in
  let best := Vec2 (y3 info) (z3 info) in
  Compute.seedDist2 cell best
  <= Compute.seedDist2 cell (Compute.neighborCellOf (floor2 cell) (i, j)).
Proof.
  intros Hcs Hdist cell info best.
  destruct (getClumpInfo_least clumpSize worldXZ) as (b & Hinfo & Hlt & Hall).
  cbv zeta in Hinfo, Hlt, Hall. fold cell in Hinfo, Hlt, Hall.
  assert (Hb : best = b).
  { unfold best, info. rewrite Hinfo. cbn [y3 z3]. destruct b. reflexivity. }
  rewrite Hb.
  destruct (in_dec (fun a b : Z * Z => decide (a = b)) (i, j)
                   Compute.neighborhood) as [Hin|Hout].
  - apply Hall. exact Hin.
  - pose proof (far_cell_dist cell i j Hout) as Hfar.
    rewrite Hinfo in Hdist. cbn [x3] in Hdist.
    set (d := Compute.seedDist2 cell b) in *.
    assert (Hd : 0 <= d) by apply seedDist2_nonneg.
    pose proof (sqrt_pos d) as Hs. pose proof (sqrt_sqrt d Hd) as Hss.
    assert (sqrt d <= 1) by nra.
    assert (d <= 1) by nra.
    lra.
Qed.

Lemma clump_locator_global_witness :
  0 < 0.8 /\
  x3 (Compute.getClumpInfo 0.8 (Vec2 0 0)) <= 0.8 /\
  Compute.seedDist2 (div2 (Vec2 0 0) 0.8)
    (Vec2 (y3 (Compute.getClumpInfo 0.8 (Vec2 0 0)))
          (z3 (Compute.getClumpInfo 0.8 (Vec2 0 0))))
  <= Compute.seedDist2 (div2 (Vec2 0 0) 0.8)
       (Compute.neighborCellOf (floor2 (div2 (Vec2 0 0) 0.8)) (2, -3)%Z).
Proof.
  assert (H : 0 < 0.8) by lra.
  assert (Hd : x3 (Compute.getClumpInfo 0.8 (Vec2 0 0)) <= 0.8)
    by (rewrite getClumpInfo_origin; cbn [x3]; lra).
  split; [exact H|]. split; [exact Hd|].
  exact (clump_locator_global 0.8 (Vec2 0 0) 2 (-3) H Hd).
Defined.

(** ** Parameter pass: direction and distance agree *)

Lemma length2_opp (a b : vec2) : length2 (sub2 a b) = length2 (sub2 b a).
Proof.
  unfold length2. f_equal. unfold dot2, sub2. cbn [x2 y2]. ring.
Qed.

(** In [main] the clump centre is recomputed from the returned cell id; its
    distance to the blade is exactly the distance the clump locator returned,
    and the stored direction, scaled by that distance, leads from the blade
    to the centre.  Within 1e-5 of the centre the direction is (1, 0). *)
Theorem direction_matches_distance
    (u : Compute.uniforms) (uPositions : vec2 -> vec4) (frag : vec2) :
  0 < Compute.clumpSize u ->
  let worldXZ :=
    xz4 (uPositions (Vec2 (x2 frag / x2 (Compute.uResolution u))
                          (y2 frag / y2 (Compute.uResolution u)))) in
  let info := Compute.getClumpInfo (Compute.clumpSize u) worldXZ in
  let dist := x3 info in
  let cellId := Vec2 (y3 info) (z3 info) in
  let center :=
    scale2 (add2 cellId (Compute.hash2 cellId)) (Compute.clumpSize u) in
  let clumpData := snd (Compute.main u uPositions frag) in
  let toCenter := Vec2 (x4 clumpData) (y4 clumpData) in
  length2 (sub2 center worldXZ) = dist /\
  (1e-5 < dist -> add2 worldXZ (scale2 toCenter dist) = center) /\
  (dist <= 1e-5 -> toCenter = Vec2 1.0 0.0).
Proof.
  intros Hcs worldXZ info dist cellId center clumpData toCenter.
  destruct (getClumpInfo_spec (Compute.clumpSize u) worldXZ)
    as (l1 & ij & l2 & _ & Hinfo & _).
  cbv zeta in Hinfo.
  set (best := Compute.neighborCellOf
                 (floor2 (div2 worldXZ (Compute.clumpSize u))) ij) in *.
  assert (Hcell : cellId = best).
  { unfold cellId, info. rewrite Hinfo. cbn [y3 z3]. destruct best.
    reflexivity. }
  assert (Hlen : length2 (sub2 center worldXZ) = dist).
  { unfold center, dist, info. rewrite Hcell, Hinfo. cbn [x3].
    rewrite length2_opp. symmetry. apply world_distance. exact Hcs. }
  assert (Hto : toCenter = Compute.toCenterOf (sub2 center worldXZ)).
  { unfold toCenter, clumpData, Compute.main. cbv zeta. cbn [snd x4 y4].
    fold worldXZ. fold info. fold cellId. fold center.
    destruct (Compute.toCenterOf (sub2 center worldXZ)). reflexivity. }
  split; [exact Hlen|].
  rewrite Hto. unfold Compute.toCenterOf. cbv zeta. rewrite Hlen.
  split.
  - intros Hd. destruct (Rlt_dec 1e-5 dist) as [_|Hn]; [|exfalso; lra].
    destruct worldXZ as [wx wz]. destruct center as [cx cz].
    unfold add2, scale2, div2, sub2. cbn [x2 y2].
    f_equal; field; lra.
  - intros Hd. destruct (Rlt_dec 1e-5 dist) as [Hn|_]; [exfalso; lra|].
    reflexivity.
Qed.

Lemma direction_matches_distance_witness :
  0 < Compute.clumpSize Example.shortBent /\
  length2
    (sub2 (scale2
             (add2 (Vec2 (y3 (Compute.getClumpInfo 0.8 (Vec2 1 2)))
                         (z3 (Compute.getClumpInfo 0.8 (Vec2 1 2))))
                   (Compute.hash2
                      (Vec2 (y3 (Compute.getClumpInfo 0.8 (Vec2 1 2)))
                            (z3 (Compute.getClumpInfo 0.8 (Vec2 1 2))))))
             0.8)
          (Vec2 1 2))
  = x3 (Compute.getClumpInfo 0.8 (Vec2 1 2)).
Proof.
  assert (H : 0 < Compute.clumpSize Example.shortBent) by (simpl; lra).
  split; [exact H|].
  exact (proj1 (direction_matches_distance Example.shortBent
                  (fun _ => Vec4 1 0 2 0) (Vec2 0.5 0.5) H)).
Defined.

(** ** Deformer frames *)

Lemma dot3_scale_l (a b : vec3) (k : R) : dot3 (scale3 a k) b = k * dot3 a b.
Proof. unfold dot3, scale3. cbn [x3 y3 z3]. ring. Qed.

Lemma dot3_comm (a b : vec3) : dot3 a b = dot3 b a.
Proof. unfold dot3. ring. Qed.

Lemma cross_dot_l (a b : vec3) : dot3 (cross a b) a = 0.
Proof. unfold dot3, cross. cbn [x3 y3 z3]. ring. Qed.

Lemma cross_dot_r (a b : vec3) : dot3 (cross a b) b = 0.
Proof. unfold dot3, cross. cbn [x3 y3 z3]. ring. Qed.

Lemma normalize_Some (v w : vec3) :
  normalize v = Some w -> w = scale3 v (/ length3 v).
Proof.
  unfold normalize. destruct (Req_dec_T (length3 v) 0); [discriminate|].
  intros [= <-]. reflexivity.
Qed.

(** Whenever the frame of grassVertex.glsl is defined for a unit tangent,
    tangent, side and normal are orthonormal. *)
Theorem frameTBN_orthonormal (tangent : vec3) :
  dot3 tangent tangent = 1 ->
  match Vertex.frameTBN tangent with
  | Some (side, normal) =>
      dot3 side side = 1 /\ dot3 normal normal = 1 /\
      dot3 side tangent = 0 /\ dot3 normal tangent = 0 /\
      dot3 side normal = 0
  | None => True
  end.
Proof.
  intros Hunit. unfold Vertex.frameTBN. cbv zeta.
  destruct (normalize (cross (Vec3 0.0 0.0 1.0) tangent)) as [side|] eqn:Hs;
    cbn [mbind option_bind]; [|exact I].
  destruct (normalize (cross side tangent)) as [normal|] eqn:Hn;
    cbn [mbind option_bind]; [|exact I].
  pose proof (normalize_unit _ _ Hs) as Hsu.
  pose proof (normalize_unit _ _ Hn) as Hnu.
  apply normalize_Some in Hs. apply normalize_Some in Hn.
  split; [exact Hsu|]. split; [exact Hnu|].
  assert (Hst : dot3 side tangent = 0)
    by (rewrite Hs, dot3_scale_l, cross_dot_r; ring).
  split; [exact Hst|].
  split; [rewrite Hn, dot3_scale_l, cross_dot_r; ring|].
  rewrite Hn, dot3_comm, dot3_scale_l, cross_dot_l. ring.
Qed.

Lemma frameTBN_orthonormal_witness :
  dot3 (Vec3 0 1 0) (Vec3 0 1 0) = 1 /\
  match Vertex.frameTBN (Vec3 0 1 0) with
  | Some (side, normal) =>
      dot3 side side = 1 /\ dot3 normal normal = 1 /\
      dot3 side (Vec3 0 1 0) = 0 /\ dot3 normal (Vec3 0 1 0) = 0 /\
      dot3 side normal = 0
  | None => True
  end.
Proof.
  assert (H : dot3 (Vec3 0 1 0) (Vec3 0 1 0) = 1)
    by (unfold dot3; cbn [x3 y3 z3]; lra).
  split; [exact H|].
  exact (frameTBN_orthonormal (Vec3 0 1 0) H).
Defined.

(** A vector with positive y normalises to a tangent with a defined frame. *)
Lemma positive_y_frame (v : vec3) :
  0 < y3 v ->
  exists tangent side normal,
    normalize v = Some tangent /\
    dot3 tangent tangent = 1 /\
    Vertex.frameTBN tangent = Some (side, normal).
Proof.
  intros Hy.
  assert (Hv : 0 < dot3 v v) by (unfold dot3; nra).
  pose proof (normalize_defined _ Hv) as Ht.
  set (L := length3 v) in *.
  assert (HL : 0 < L).
  { unfold L, length3. apply sqrt_lt_R0. exact Hv. }
  assert (Hi : 0 < / L) by (apply Rinv_0_lt_compat; exact HL).
  set (tangent := scale3 v (/ L)) in *.
  assert (Htu : dot3 tangent tangent = 1) by (apply (normalize_unit _ _ Ht)).
  set (ref := Vec3 0.0 0.0 1.0).
  assert (Hc : 0 < dot3 (cross ref tangent) (cross ref tangent)).
  { unfold tangent, ref, dot3, cross, scale3. cbn [x3 y3 z3].
    assert (0 < y3 v * / L) by nra. nra. }
  pose proof (normalize_defined _ Hc) as Hs.
  set (side := scale3 (cross ref tangent) (/ length3 (cross ref tangent))) in *.
  assert (Hsu : dot3 side side = 1) by (apply (normalize_unit _ _ Hs)).
  assert (Hn : 0 < dot3 (cross side tangent) (cross side tangent)).
  { rewrite lagrange, Hsu, Htu.
    assert (Hst : dot3 side tangent = 0)
      by (unfold side; rewrite dot3_scale_l, cross_dot_r; ring).
    rewrite Hst. lra. }
  exists tangent, side,
    (scale3 (cross side tangent) (/ length3 (cross side tangent))).
  split; [exact Ht|]. split; [exact Htu|].
  unfold Vertex.frameTBN. cbv zeta. fold ref.
  rewrite Hs. cbn [mbind option_bind].
  rewrite (normalize_defined _ Hn). reflexivity.
Qed.

Lemma windCurve_tangent_y (fbm2 : vec2 -> R -> R) (u : Vertex.uniforms)
    (worldXZ : vec2) (baseAngle bladeType height bend t : R) :
  0 < height -> 0 <= t <= 1 ->
  let c := Vertex.windCurve fbm2 u worldXZ baseAngle bladeType height bend t in
  0 < y3 (Vertex.bezier2Tangent (Vertex.cp0 c) (Vertex.cp1 c) (Vertex.cp2 c) t).
Proof.
  intros Hh Ht. unfold Vertex.windCurve, Vertex.restCurve. cbv zeta.
  destruct (Rlt_dec bladeType 0.5) as [H1|H1];
    [|destruct (Rlt_dec bladeType 1.5) as [H2|H2]];
    cbn [Vertex.cp0 Vertex.cp1 Vertex.cp2];
    unfold Vertex.bezier2Tangent, add3, scale3, sub3; cbn [x3 y3 z3]; nra.
Qed.

(** For a positive blade height the tangent and the whole frame of the
    deformer are defined along the blade, for every wind sample, wind
    strength and time: the cross product with the fixed axis can be small
    but is never zero. *)
Theorem deformer_frame_defined
    (fbm2 : vec2 -> R -> R) (u : Vertex.uniforms) (worldXZ : vec2)
    (baseAngle bladeType height bend t : R) :
  0 < height -> 0 <= t <= 1 ->
  exists tangent side normal,
    Vertex.tangentOf
      (Vertex.windCurve fbm2 u worldXZ baseAngle bladeType height bend t) t
    = Some tangent /\
    dot3 tangent tangent = 1 /\
    Vertex.frameTBN tangent = Some (side, normal).
Proof.
  intros Hh Ht. unfold Vertex.tangentOf. apply positive_y_frame.
  apply windCurve_tangent_y; assumption.
Qed.

Lemma deformer_frame_defined_witness :
  0 < 0.6 /\ 0 <= 0.5 <= 1 /\
  exists tangent side normal,
    Vertex.tangentOf
      (Vertex.windCurve Example.fbm2 Example.calm (Vec2 1 2) 0 0 0.6 0.4 0.5)
      0.5
    = Some tangent /\
    dot3 tangent tangent = 1 /\
    Vertex.frameTBN tangent = Some (side, normal).
Proof.
  assert (Hh : 0 < 0.6) by lra.
  assert (Ht : 0 <= 0.5 <= 1) by lra.
  split; [exact Hh|]. split; [exact Ht|].
  exact (deformer_frame_defined Example.fbm2 Example.calm (Vec2 1 2)
           0 0 0.6 0.4 0.5 Hh Ht).
Defined.

(** The two stages compose: with a positive [bladeHeight] control, the
    parameters the pass writes for any blade give the deformer a defined
    tangent and frame at every point of the blade. *)
Theorem pipeline_frame_defined
    (fbm2 : vec2 -> R -> R) (uc : Compute.uniforms) (u : Vertex.uniforms)
    (uPositions : vec2 -> vec4) (frag worldXZ : vec2) (baseAngle t : R) :
  0 < Compute.bladeHeight uc -> 0 <= t <= 1 ->
  let bladeParams := fst (Compute.main uc uPositions frag) in
  exists tangent side normal,
    Vertex.tangentOf
      (Vertex.windCurve fbm2 u worldXZ baseAngle (w4 bladeParams)
         (x4 bladeParams) (z4 bladeParams) t) t
    = Some tangent /\
    Vertex.frameTBN tangent = Some (side, normal).
Proof.
  intros HH Ht bladeParams.
  assert (Hpos : 0 < x4 bladeParams).
  { unfold bladeParams, Compute.main. cbv zeta. cbn [fst].
    unfold Compute.getGrassParams, Compute.getClumpParams. cbv zeta.
    cbn [x4].
    match goal with
    | |- 0 < Compute.bladeHeight uc * (0.8 + x2 (Compute.hash21 ?a) * 0.4)
             * (0.6 + x2 (Compute.hash21 ?b) * 0.6) =>
        destruct (hash21_bounds a) as [Ha _];
        destruct (hash21_bounds b) as [Hb _]
    end.
    apply Rmult_lt_0_compat; [apply Rmult_lt_0_compat|]; lra. }
  destruct (positive_y_frame _
              (windCurve_tangent_y fbm2 u worldXZ baseAngle (w4 bladeParams)
                 (x4 bladeParams) (z4 bladeParams) t Hpos Ht))
    as (tangent & side & normal & H1 & _ & H2).
  exists tangent, side, normal. split; assumption.
Qed.

Lemma pipeline_frame_defined_witness :
  0 < Compute.bladeHeight Example.shortBent /\ 0 <= 0.5 <= 1 /\
  exists tangent side normal,
    Vertex.tangentOf
      (Vertex.windCurve Example.fbm2 Example.calm (Vec2 1 2) 0
         (w4 (fst (Compute.main Example.shortBent (fun _ => Vec4 1 0 2 0)
                                (Vec2 0.5 0.5))))
         (x4 (fst (Compute.main Example.shortBent (fun _ => Vec4 1 0 2 0)
                                (Vec2 0.5 0.5))))
         (z4 (fst (Compute.main Example.shortBent (fun _ => Vec4 1 0 2 0)
                                (Vec2 0.5 0.5))))
         0.5) 0.5
    = Some tangent /\
    Vertex.frameTBN tangent = Some (side, normal).
Proof.
  assert (HH : 0 < Compute.bladeHeight Example.shortBent) by (simpl; lra).
  assert (Ht : 0 <= 0.5 <= 1) by lra.
  split; [exact HH|]. split; [exact Ht|].
  exact (pipeline_frame_defined Example.fbm2 Example.shortBent Example.calm
           (fun _ => Vec4 1 0 2 0) (Vec2 0.5 0.5) (Vec2 1 2) 0 0.5 HH Ht).
Defined.

(** ** The first deformer never needs its fallback axis *)

(** In the first deformer the curve lies in the y-z plane, so the tangent is
    orthogonal to the reference axis (1, 0, 0): for a positive blade height
    the parallelism test always fails, the frame is built from (1, 0, 0), and
    [main] is defined at every vertex. *)
Theorem early_deformer_total
    (rotate2D : vec2 -> R -> vec2) (u : VertexEarly.uniforms)
    (instanceOffset : vec3) (uv : vec2) :
  0 < VertexEarly.bladeHeight u ->
  let p0 := Vec3 0.0 0.0 0.0 in
  let p1 := Vec3 0.0 (VertexEarly.bladeHeight u * 0.5)
                 (VertexEarly.bendAmount u) in
  let p2 := Vec3 0.0 (VertexEarly.bladeHeight u) 0.0 in
  exists tangent normal side out,
    normalize (Vertex.bezier2Tangent p0 p1 p2 (y2 uv)) = Some tangent /\
    dot3 tangent (Vec3 1.0 0.0 0.0) = 0 /\
    normalize (cross tangent (Vec3 1.0 0.0 0.0)) = Some normal /\
    VertexEarly.frame tangent = Some (normal, side) /\
    VertexEarly.main rotate2D u instanceOffset uv = Some out.
Proof.
  intros Hh p0 p1 p2.
  set (v := Vertex.bezier2Tangent p0 p1 p2 (y2 uv)).
  assert (Hvx : x3 v = 0).
  { unfold v, p0, p1, p2, Vertex.bezier2Tangent, add3, scale3, sub3.
    cbn [x3 y3 z3]. lra. }
  assert (Hvy : y3 v = VertexEarly.bladeHeight u).
  { unfold v, p0, p1, p2, Vertex.bezier2Tangent, add3, scale3, sub3.
    cbn [x3 y3 z3]. lra. }
  assert (Hv : 0 < dot3 v v) by (unfold dot3; nra).
  pose proof (normalize_defined _ Hv) as Ht.
  assert (HL : 0 < length3 v) by (apply sqrt_lt_R0; exact Hv).
  assert (Hi : 0 < / length3 v) by (apply Rinv_0_lt_compat; exact HL).
  set (tangent := scale3 v (/ length3 v)) in *.
  assert (Htu : dot3 tangent tangent = 1) by (apply (normalize_unit _ _ Ht)).
  assert (Hdot : dot3 tangent (Vec3 1.0 0.0 0.0) = 0).
  { unfold tangent, dot3, scale3. cbn [x3 y3 z3]. rewrite Hvx. lra. }
  assert (Hframe : VertexEarly.frame tangent
                   = (normal ← normalize (cross tangent (Vec3 1.0 0.0 0.0));
                      side ← normalize (cross normal tangent);
                      Some (normal, side))).
  { unfold VertexEarly.frame. cbv zeta. rewrite Hdot, Rabs_R0.
    destruct (Rlt_dec 0.95 0) as [H|_]; [exfalso; lra | reflexivity]. }
  assert (Hc : 0 < dot3 (cross tangent (Vec3 1.0 0.0 0.0))
                        (cross tangent (Vec3 1.0 0.0 0.0))).
  { rewrite lagrange, Htu, Hdot. unfold dot3. cbn [x3 y3 z3]. lra. }
  pose proof (normalize_defined _ Hc) as Hn.
  set (normal := scale3 (cross tangent (Vec3 1.0 0.0 0.0))
                        (/ length3 (cross tangent (Vec3 1.0 0.0 0.0)))) in *.
  assert (Hnu : dot3 normal normal = 1) by (apply (normalize_unit _ _ Hn)).
  assert (Hs : 0 < dot3 (cross normal tangent) (cross normal tangent)).
  { rewrite lagrange, Hnu, Htu.
    assert (Hnt : dot3 normal tangent = 0)
      by (unfold normal; rewrite dot3_scale_l, cross_dot_l; ring).
    rewrite Hnt. lra. }
  pose proof (normalize_defined _ Hs) as Hside.
  rewrite Hn in Hframe. cbn [mbind option_bind] in Hframe.
  rewrite Hside in Hframe. cbn [mbind option_bind] in Hframe.
  eexists tangent, normal, _, _.
  split; [exact Ht|]. split; [exact Hdot|]. split; [exact Hn|].
  split; [exact Hframe|].
  unfold VertexEarly.main. cbv zeta.
  fold p0. fold p1. fold p2. fold v.
  rewrite Ht. cbn [mbind option_bind].
  rewrite Hframe. cbn [mbind option_bind]. reflexivity.
Qed.

Lemma early_deformer_total_witness :
  0 < VertexEarly.bladeHeight
        (VertexEarly.Uniforms 0.6 0.02 0.4 Example.identity4 Example.identity4)
  /\
  exists out,
    VertexEarly.main Example.rotate2D
      (VertexEarly.Uniforms 0.6 0.02 0.4 Example.identity4 Example.identity4)
      (Vec3 1 0 2) (Vec2 0.5 0.5)
    = Some out.
Proof.
  assert (H : 0 < VertexEarly.bladeHeight
                    (VertexEarly.Uniforms 0.6 0.02 0.4 Example.identity4
                                          Example.identity4))
    by (simpl; lra).
  split; [exact H|].
  destruct (early_deformer_total Example.rotate2D
              (VertexEarly.Uniforms 0.6 0.02 0.4 Example.identity4
                                    Example.identity4)
              (Vec3 1 0 2) (Vec2 0.5 0.5) H)
    as (_ & _ & _ & out & _ & _ & _ & _ & Hout).
  exists out. exact Hout.
Defined.

(** ** Cubic deformer: wind effects are defined and horizontal *)

Lemma add3_y (p v : vec3) (k : R) :
  y3 v = 0 -> y3 (add3 p (scale3 v k)) = y3 p.
Proof. intros Hv. unfold add3, scale3. cbn [y3]. rewrite Hv. ring. Qed.

(** The sway direction: a horizontal unit vector, for every wind direction
    uniform (the zero vector included) and every time. *)
Lemma sway_defined (u : VertexCubic.uniforms) (p1 p2 p3 : vec3)
    (windStrength01 height perBladeHash01 t : R) (worldXZ : vec2) :
  exists dir k1 k2 k3,
    VertexCubic.applyWindSway u (p1, p2, p3) windStrength01 height
                              perBladeHash01 t worldXZ
    = Some (add3 p1 (scale3 dir k1), add3 p2 (scale3 dir k2),
            add3 p3 (scale3 dir k3)) /\
    y3 dir = 0 /\ dot3 dir dir = 1.
Proof.
  unfold VertexCubic.applyWindSway. cbv zeta.
  destruct (windDirection_unit u) as [HW Hy]. cbv zeta in HW, Hy.
  set (W := VertexCubic.getWindDirection u) in *.
  assert (Hcw : 0 < dot3 (Vec3 (- z3 W) 0.0 (x3 W)) (Vec3 (- z3 W) 0.0 (x3 W))).
  { unfold dot3. cbn [x3 y3 z3]. lra. }
  rewrite (normalize_defined _ Hcw). cbn [mbind option_bind].
  set (c := / length3 (Vec3 (- z3 W) 0.0 (x3 W))).
  match goal with |- context [scale3 (scale3 _ c) ?k] => set (h := k) end.
  set (d := add3 W (scale3 (scale3 (Vec3 (- z3 W) 0.0 (x3 W)) c) h)).
  assert (Hdy : y3 d = 0).
  { unfold d, add3, scale3. cbn [x3 y3 z3]. rewrite Hy. lra. }
  assert (Hdir : 0 < dot3 d d).
  { unfold d, dot3, add3, scale3. cbn [x3 y3 z3]. rewrite Hy.
    replace ((x3 W + - z3 W * c * h) * (x3 W + - z3 W * c * h)
             + (0 + 0.0 * c * h) * (0 + 0.0 * c * h)
             + (z3 W + x3 W * c * h) * (z3 W + x3 W * c * h))
      with ((x3 W * x3 W + z3 W * z3 W) * (1 + (c * h) * (c * h)))
      by lra.
    rewrite HW. nra. }
  pose proof (normalize_defined _ Hdir) as Hn.
  rewrite Hn. cbn [mbind option_bind].
  eexists (scale3 d (/ length3 d)), _, _, _.
  split; [reflexivity|].
  split; [unfold scale3; cbn [y3]; rewrite Hdy; ring|].
  apply (normalize_unit _ _ Hn).
Qed.

Lemma cubic_windCurve_shape (u : VertexCubic.uniforms) (worldXZ : vec2)
    (bladeType height bend windStrength01 perBladeHash01 t : R) :
  exists p1 p2 p3,
    VertexCubic.windCurve u worldXZ bladeType height bend
                          windStrength01 perBladeHash01 t
    = Some (Vec3 0.0 0.0 0.0, (p1, p2, p3)) /\
    y3 p1 = y3 (fst (VertexCubic.getBezierControlPoints bladeType height bend))
    /\
    y3 p2 = y3 (snd (VertexCubic.getBezierControlPoints bladeType height bend))
    /\
    y3 p3 = height.
Proof.
  unfold VertexCubic.windCurve. cbv zeta.
  destruct (VertexCubic.getBezierControlPoints bladeType height bend)
    as [q1 q2]. cbn [fst snd].
  unfold VertexCubic.applyWindPush. cbv zeta.
  destruct (windDirection_unit u) as [_ Hy]. cbv zeta in Hy.
  match goal with |- context [VertexCubic.applyWindSway u (?a, ?b, ?c)] =>
    destruct (sway_defined u a b c windStrength01 height perBladeHash01 t
                           worldXZ)
      as (dir & k1 & k2 & k3 & Hs & Hdy & _)
  end.
  rewrite Hs. cbn [mbind option_bind].
  eexists _, _, _. split; [reflexivity|].
  rewrite !(add3_y _ dir) by exact Hdy.
  rewrite !add3_y by exact Hy.
  repeat split; reflexivity.
Qed.

(** The wind stage of the cubic deformer is always defined, keeps the root
    at the origin and leaves the height of every control point unchanged:
    push and sway move the control points horizontally only. *)
Theorem cubic_wind_horizontal (u : VertexCubic.uniforms) (worldXZ : vec2)
    (bladeType height bend windStrength01 perBladeHash01 t : R) :
  exists p1 p2 p3,
    VertexCubic.windCurve u worldXZ bladeType height bend
                          windStrength01 perBladeHash01 t
    = Some (Vec3 0.0 0.0 0.0, (p1, p2, p3)) /\
    y3 p1 = y3 (fst (VertexCubic.getBezierControlPoints bladeType height bend))
    /\
    y3 p2 = y3 (snd (VertexCubic.getBezierControlPoints bladeType height bend))
    /\
    y3 p3 = height.
Proof. apply cubic_windCurve_shape. Qed.

Lemma cubic_rest_heights (bladeType height bend : R) :
  0 < height ->
  let q := VertexCubic.getBezierControlPoints bladeType height bend in
  0.3 * height <= y3 (fst q) <= 0.4 * height /\
  0.65 * height <= y3 (snd q) <= 0.75 * height.
Proof.
  intros Hh. unfold VertexCubic.getBezierControlPoints.
  destruct (Rlt_dec bladeType 0.5); [|destruct (Rlt_dec bladeType 1.5)];
    cbn [fst snd y3]; lra.
Qed.

(** For a positive blade height the tangent of the cubic deformer is defined
    at every point of the blade, whatever the wind: the control points keep
    rising heights 0 < p1.y < p2.y < height. *)
Theorem cubic_tangent_defined (u : VertexCubic.uniforms) (worldXZ : vec2)
    (bladeType height bend windStrength01 perBladeHash01 t : R) :
  0 < height -> 0 <= t <= 1 ->
  exists p0 p1 p2 p3 tangent,
    VertexCubic.windCurve u worldXZ bladeType height bend
                          windStrength01 perBladeHash01 t
    = Some (p0, (p1, p2, p3)) /\
    normalize (VertexCubic.bezier3Tangent p0 p1 p2 p3 t) = Some tangent /\
    dot3 tangent tangent = 1 /\ 0 < y3 tangent.
Proof.
  intros Hh Ht.
  destruct (cubic_windCurve_shape u worldXZ bladeType height bend
              windStrength01 perBladeHash01 t)
    as (p1 & p2 & p3 & Hc & H1 & H2 & H3).
  destruct (cubic_rest_heights bladeType height bend Hh) as [Hq1 Hq2].
  cbv zeta in Hq1, Hq2. rewrite <- H1 in Hq1. rewrite <- H2 in Hq2.
  set (v := VertexCubic.bezier3Tangent (Vec3 0.0 0.0 0.0) p1 p2 p3 t).
  assert (Hvy : 0 < y3 v).
  { unfold v, VertexCubic.bezier3Tangent, add3, scale3, sub3. cbv zeta.
    cbn [x3 y3 z3]. rewrite H3.
    assert (Ha : 0 <= (1.0 - t) * (1.0 - t)) by nra.
    assert (Hb : 0 <= (1.0 - t) * t) by nra.
    assert (Hcc : 0 <= t * t) by nra.
    assert (Hsum : (1.0 - t) * (1.0 - t) + 2 * ((1.0 - t) * t) + t * t = 1)
      by lra.
    nra. }
  assert (Hv : 0 < dot3 v v) by (unfold dot3; nra).
  pose proof (normalize_defined _ Hv) as Hn.
  assert (HL : 0 < length3 v) by (apply sqrt_lt_R0; exact Hv).
  assert (Hi : 0 < / length3 v) by (apply Rinv_0_lt_compat; exact HL).
  exists (Vec3 0.0 0.0 0.0), p1, p2, p3, (scale3 v (/ length3 v)).
  split; [exact Hc|]. split; [exact Hn|].
  split; [apply (normalize_unit _ _ Hn)|].
  unfold scale3. cbn [y3]. nra.
Qed.

Lemma cubic_tangent_defined_witness :
  0 < 0.6 /\ 0 <= 0.5 <= 1 /\
  exists p0 p1 p2 p3 tangent,
    VertexCubic.windCurve Example.calmCubic (Vec2 1 2) 0 0.6 0.4 0.5 0.5 0.5
    = Some (p0, (p1, p2, p3)) /\
    normalize (VertexCubic.bezier3Tangent p0 p1 p2 p3 0.5) = Some tangent /\
    dot3 tangent tangent = 1 /\ 0 < y3 tangent.
Proof.
  assert (Hh : 0 < 0.6) by lra.
  assert (Ht : 0 <= 0.5 <= 1) by lra.
  split; [exact Hh|]. split; [exact Ht|].
  exact (cubic_tangent_defined Example.calmCubic (Vec2 1 2)
           0 0.6 0.4 0.5 0.5 0.5 Hh Ht).
Defined.

(** ** Quadratic deformer: wind is horizontal, the root is anchored *)

Lemma spine_shape
    (fbm2 : vec2 -> R -> R) (u : Vertex.uniforms) (worldXZ : vec2)
    (baseAngle bladeType height bend s t : R) :
  0 <= height -> 0 <= t <= 1 ->
  let c := Vertex.windCurve fbm2 u worldXZ baseAngle bladeType height bend s in
  Vertex.spineOf c 0 = Vec3 0 0 0 /\
  y3 (Vertex.spineOf c 1) = height /\
  0 <= y3 (Vertex.spineOf c t) <= height.
Proof.
  intros Hh Ht. unfold Vertex.windCurve, Vertex.restCurve. cbv zeta.
  destruct (Rlt_dec bladeType 0.5) as [H1|H1];
    [|destruct (Rlt_dec bladeType 1.5) as [H2|H2]];
    unfold Vertex.spineOf; cbn [Vertex.cp0 Vertex.cp1 Vertex.cp2];
    unfold Vertex.bezier2, add3, scale3; cbv zeta; cbn [x3 y3 z3].
  all: split; [f_equal; lra|]; split; [lra|].
  all: assert (Ha : 0 <= t * (1 - t)) by nra.
  all: assert (Hb : 0 <= height * (t * (1 - t))) by (apply Rmult_le_pos; lra).
  all: assert (Hc : 0 <= height * (t * t)) by (apply Rmult_le_pos; nra).
  all: assert (Hd : 0 <= height * ((1 - t) * (1 - t)))
         by (apply Rmult_le_pos; nra).
  all: split; nra.
Qed.

(** For every wind sample, strength and time, the spine of grassVertex.glsl
    is at the origin for a root vertex, at the height stored for the blade
    for a tip vertex, and between the ground and that height in between:
    wind push and sway move the control points horizontally only. *)
Theorem spine_height_preserved
    (fbm2 : vec2 -> R -> R) (u : Vertex.uniforms) (worldXZ : vec2)
    (baseAngle bladeType height bend t : R) :
  0 <= height -> 0 <= t <= 1 ->
  let curve (t : R) :=
    Vertex.windCurve fbm2 u worldXZ baseAngle bladeType height bend t in
  Vertex.spineOf (curve 0) 0 = Vec3 0 0 0 /\
  y3 (Vertex.spineOf (curve 1) 1) = height /\
  0 <= y3 (Vertex.spineOf (curve t) t) <= height.
Proof.
  intros Hh Ht curve. unfold curve.
  split; [|split].
  - exact (proj1 (spine_shape fbm2 u worldXZ baseAngle bladeType height bend
                    0 t Hh Ht)).
  - exact (proj1 (proj2 (spine_shape fbm2 u worldXZ baseAngle bladeType height
                           bend 1 t Hh Ht))).
  - exact (proj2 (proj2 (spine_shape fbm2 u worldXZ baseAngle bladeType height
                           bend t t Hh Ht))).
Qed.

Lemma spine_height_preserved_witness :
  0 <= 0.6 /\ 0 <= 0.5 <= 1 /\
  Vertex.spineOf
    (Vertex.windCurve Example.fbm2 Example.calm (Vec2 1 2) 0 0 0.6 0.4 0) 0
  = Vec3 0 0 0.
Proof.
  assert (Hh : 0 <= 0.6) by lra.
  assert (Ht : 0 <= 0.5 <= 1) by lra.
  split; [exact Hh|]. split; [exact Ht|].
  exact (proj1 (spine_height_preserved Example.fbm2 Example.calm (Vec2 1 2)
                  0 0 0.6 0.4 0.5 Hh Ht)).
Defined.

(** ** Deformer: texel isolation and the blade tip *)

(** The deformer reads the parameter textures at the texel of its own
    instance only: for a texture whose side is a power of two up to 4096, as
    every grid size of the repository is (32, 64, 256), textures that agree
    at texel (k mod G, k / G) give instance [k] the same output, whatever
    they hold elsewhere.  For such a side the division and the
    multiplication by the size in the texel address are exact in single
    precision as well; for other sides the shader's address computation
    rounds, and the statement is not made. *)
Theorem deformer_reads_own_texel
    (fbm2 : vec2 -> R -> R) (rotate2D : vec2 -> R -> vec2)
    (u : Vertex.uniforms) (n G k : nat)
    (blade1 blade2 clump1 clump2 : Z * Z -> vec4)
    (instanceOffset : vec3) (uv : vec2) :
  G = (2 ^ n)%nat -> (n <= 12)%nat -> (k < G * G)%nat ->
  Vertex.uGrassTextureSize u = Vec2 (INR G) (INR G) ->
  blade1 (Z.of_nat (k mod G), Z.of_nat (k / G))
  = blade2 (Z.of_nat (k mod G), Z.of_nat (k / G)) ->
  clump1 (Z.of_nat (k mod G), Z.of_nat (k / G))
  = clump2 (Z.of_nat (k mod G), Z.of_nat (k / G)) ->
  Vertex.main fbm2 rotate2D u blade1 clump1 instanceOffset (INR k) uv
  = Vertex.main fbm2 rotate2D u blade2 clump2 instanceOffset (INR k) uv.
Proof.
  intros Hpow _ _ Hsize Hb Hc.
  assert (HG : (0 < G)%nat).
  { rewrite Hpow. pose proof (Nat.pow_nonzero 2 n). lia. }
  unfold Vertex.main. cbv zeta.
  rewrite Hsize, texelCoordOf_index by exact HG.
  rewrite Hb, Hc. reflexivity.
Qed.

Lemma deformer_reads_own_texel_witness :
  256%nat = (2 ^ 8)%nat /\ (8 <= 12)%nat /\ (300 < 256 * 256)%nat /\
  Vertex.uGrassTextureSize Example.calm = Vec2 (INR 256) (INR 256) /\
  Vertex.main Example.fbm2 Example.rotate2D Example.calm
    Example.bladeTexel Example.clumpTexel (Vec3 1 0 2) (INR 300)
    (Vec2 0.5 0.5)
  = Vertex.main Example.fbm2 Example.rotate2D Example.calm
      (fun c => if decide (c = (44, 1)%Z) then Example.bladeTexel c
                else Vec4 9 9 9 9)
      Example.clumpTexel (Vec3 1 0 2) (INR 300) (Vec2 0.5 0.5).
Proof.
  assert (Hp : 256%nat = (2 ^ 8)%nat) by reflexivity.
  assert (Hn : (8 <= 12)%nat) by lia.
  assert (Hk : (300 < 256 * 256)%nat) by lia.
  assert (Hs : Vertex.uGrassTextureSize Example.calm
               = Vec2 (INR 256) (INR 256)).
  { unfold Example.calm. cbn [Vertex.uGrassTextureSize].
    rewrite INR_IZR_INZ. reflexivity. }
  split; [exact Hp|]. split; [exact Hn|]. split; [exact Hk|].
  split; [exact Hs|].
  exact (deformer_reads_own_texel Example.fbm2 Example.rotate2D Example.calm
           8 256 300 Example.bladeTexel
           (fun c => if decide (c = (44, 1)%Z) then Example.bladeTexel c
                     else Vec4 9 9 9 9)
           Example.clumpTexel Example.clumpTexel (Vec3 1 0 2) (Vec2 0.5 0.5)
           Hp Hn Hk Hs eq_refl eq_refl).
Defined.



Lemma pow_tip (y : R) : pow (1.0 - 1) y = 0.
Proof.
  unfold pow. destruct (Rle_dec (1.0 - 1) 0) as [_|H]; [reflexivity|].
  exfalso. lra.
Qed.

Lemma clamp_zero : clamp 0 0.0 1.0 = 0.
Proof. unfold clamp, Rmin, Rmax. repeat destruct Rle_dec; lra. Qed.

Lemma scale3_zero (v : vec3) : scale3 v 0 = Vec3 0 0 0.
Proof. unfold scale3. f_equal; ring. Qed.

Lemma scale3_of_zero (k : R) : scale3 (Vec3 0 0 0) k = Vec3 0 0 0.
Proof. unfold scale3. cbn [x3 y3 z3]. f_equal; ring. Qed.

(** At the tip of the blade (uv.y = 1) the width profile and the thickness
    tilt both vanish: the position, the world position and the frame written
    by the deformer do not depend on uv.x, so the two tip vertices of the
    blade mesh coincide. *)
Theorem tip_is_a_point
    (fbm2 : vec2 -> R -> R) (rotate2D : vec2 -> R -> vec2)
    (u : Vertex.uniforms) (blade clump : Z * Z -> vec4)
    (instanceOffset : vec3) (instanceId a b : R) :
  let geometry (o : Vertex.outputs) :=
    (Vertex.csm_Position o, Vertex.vWorldPos o, Vertex.vN o,
     Vertex.vTangent o, Vertex.vSide o) in
  geometry <$> Vertex.main fbm2 rotate2D u blade clump instanceOffset
                           instanceId (Vec2 a 1)
  = geometry <$> Vertex.main fbm2 rotate2D u blade clump instanceOffset
                             instanceId (Vec2 b 1).
Proof.
  intros geometry. unfold Vertex.main. cbv zeta. cbn [x2 y2].
  rewrite !pow_tip, !Rmult_0_l, !clamp_zero.
  destruct (Vertex.tangentOf _ 1) as [tangent|]; cbn [mbind option_bind];
    [|reflexivity].
  destruct (Vertex.frameTBN tangent) as [[side normal]|];
    cbn [mbind option_bind]; [|reflexivity].
  replace ((1 + 0.35) * 0) with 0 by ring.
  rewrite !scale3_zero, !scale3_of_zero.
  repeat match goal with
         | |- context [mbind _ (normalize ?v)] =>
             destruct (normalize v);
             cbn [mbind option_bind fmap option_fmap option_map];
             [|reflexivity]
         end.
  unfold geometry.
  cbn [Vertex.csm_Position Vertex.vWorldPos Vertex.vN Vertex.vTangent
       Vertex.vSide].
  rewrite !Rmult_0_r, !scale3_zero. reflexivity.
Qed.

(** ** TSL compute function: ranges *)

Lemma mix_range (a b t : R) : a <= b -> 0 <= t <= 1 -> a <= mix a b t <= b.
Proof. intros Hab Ht. unfold mix. nra. Qed.

Lemma tsl_hash21_bounds (p : vec2) :
  0 <= x2 (Tsl.hash21 p) < 1 /\ 0 <= y2 (Tsl.hash21 p) < 1.
Proof.
  unfold Tsl.hash21, Tsl.hash11. cbn [x2 y2]. split; apply fract_bounds.
Qed.

(** With ordered non-negative bounds and a randomness in [0, 1], every
    blade parameter written by the compute function lies between its
    configured minimum scaled by [1 - randomness] and its maximum scaled by
    [1 + randomness]; it is never negative. *)
Theorem tsl_parameter_ranges (u : Tsl.uniforms) (pos : vec3) :
  0 <= Tsl.uBladeHeightMin u <= Tsl.uBladeHeightMax u ->
  0 <= Tsl.uBladeWidthMin u <= Tsl.uBladeWidthMax u ->
  0 <= Tsl.uBendAmountMin u <= Tsl.uBendAmountMax u ->
  0 <= x3 (Tsl.uBladeRandomness u) <= 1 ->
  0 <= y3 (Tsl.uBladeRandomness u) <= 1 ->
  0 <= z3 (Tsl.uBladeRandomness u) <= 1 ->
  let b := Tsl.computeFn u pos in
  Tsl.uBladeHeightMin u * (1 - x3 (Tsl.uBladeRandomness u))
    <= Tsl.bladeHeight b
    <= Tsl.uBladeHeightMax u * (1 + x3 (Tsl.uBladeRandomness u)) /\
  Tsl.uBladeWidthMin u * (1 - y3 (Tsl.uBladeRandomness u))
    <= Tsl.bladeWidth b
    <= Tsl.uBladeWidthMax u * (1 + y3 (Tsl.uBladeRandomness u)) /\
  Tsl.uBendAmountMin u * (1 - z3 (Tsl.uBladeRandomness u))
    <= Tsl.bladeBend b
    <= Tsl.uBendAmountMax u * (1 + z3 (Tsl.uBladeRandomness u)).
Proof.
  intros HH HW HB Hrx Hry Hrz. unfold Tsl.computeFn, Tsl.clumpBase.
  cbv zeta. cbn [Tsl.bladeHeight Tsl.bladeWidth Tsl.bladeBend].
  set (cell := Tsl.cellIdOf pos).
  set (seed := Vec2 (x3 pos) (z3 pos)).
  destruct (tsl_hash21_bounds (scale2 cell 11.0)) as [Hc1x Hc1y].
  destruct (tsl_hash21_bounds (scale2 cell 23.0)) as [Hc2x _].
  destruct (tsl_hash21_bounds (scale2 seed 13.0)) as [Hh1x Hh1y].
  destruct (tsl_hash21_bounds (scale2 seed 29.0)) as [Hh2x _].
  split; [|split].
  - apply product_range; try lra.
    + apply mix_range; lra.
    + pose proof (mix_range (1.0 - x3 (Tsl.uBladeRandomness u))
                    (1.0 + x3 (Tsl.uBladeRandomness u))
                    (x2 (Tsl.hash21 (scale2 seed 13.0)))). lra.
  - apply product_range; try lra.
    + apply mix_range; lra.
    + pose proof (mix_range (1.0 - y3 (Tsl.uBladeRandomness u))
                    (1.0 + y3 (Tsl.uBladeRandomness u))
                    (y2 (Tsl.hash21 (scale2 seed 13.0)))). lra.
  - apply product_range; try lra.
    + apply mix_range; lra.
    + pose proof (mix_range (1.0 - z3 (Tsl.uBladeRandomness u))
                    (1.0 + z3 (Tsl.uBladeRandomness u))
                    (x2 (Tsl.hash21 (scale2 seed 29.0)))). lra.
Qed.

Lemma tsl_parameter_ranges_witness :
  0 <= 0.4 <= 0.8 /\ 0 <= 0.01 <= 0.05 /\ 0 <= 0.2 <= 0.6 /\
  0 <= 0.3 <= 1 /\ 0 <= 0.2 <= 1 /\
  0.4 * (1 - 0.3)
  <= Tsl.bladeHeight
       (Tsl.computeFn (Tsl.Uniforms 0.4 0.8 0.01 0.05 0.2 0.6
                                    (Vec3 0.3 0.3 0.2)) (Vec3 1 0 2)).
Proof.
  assert (H1 : 0 <= 0.4 <= 0.8) by lra.
  assert (H2 : 0 <= 0.01 <= 0.05) by lra.
  assert (H3 : 0 <= 0.2 <= 0.6) by lra.
  assert (H4 : 0 <= 0.3 <= 1) by lra.
  assert (H5 : 0 <= 0.2 <= 1) by lra.
  repeat (split; [assumption|]).
  exact (proj1 (proj1 (tsl_parameter_ranges
                         (Tsl.Uniforms 0.4 0.8 0.01 0.05 0.2 0.6
                                       (Vec3 0.3 0.3 0.2)) (Vec3 1 0 2)
                         H1 H2 H3 H4 H4 H5))).
Defined.

(** ** Blade shader *)

Lemma Rmin_Rmax_between (a b x t : R) :
  0 <= t <= 1 -> x = a * (1 - t) + b * t -> Rmin a b <= x <= Rmax a b.
Proof.
  intros Ht ->. unfold Rmin, Rmax. destruct (Rle_dec a b); nra.
Qed.

(** The diffuse colour is opaque, equals the base colour at the root
    (vHeight = 0) and the tip colour at the tip (vHeight = 1), and in between
    every channel lies between the two configured colours.  It does not
    depend on the normal being defined. *)
Theorem fragment_color_gradient (u : Fragment.uniforms) (v : Fragment.varyings) :
  0 <= Fragment.vHeight v <= 1 ->
  let color := snd (Fragment.main u v) in
  w4 color = 1 /\
  (Fragment.vHeight v = 0 -> xyz color = Fragment.baseColor u) /\
  (Fragment.vHeight v = 1 -> xyz color = Fragment.tipColor u) /\
  Rmin (x3 (Fragment.baseColor u)) (x3 (Fragment.tipColor u)) <= x4 color
    <= Rmax (x3 (Fragment.baseColor u)) (x3 (Fragment.tipColor u)) /\
  Rmin (y3 (Fragment.baseColor u)) (y3 (Fragment.tipColor u)) <= y4 color
    <= Rmax (y3 (Fragment.baseColor u)) (y3 (Fragment.tipColor u)) /\
  Rmin (z3 (Fragment.baseColor u)) (z3 (Fragment.tipColor u)) <= z4 color
    <= Rmax (z3 (Fragment.baseColor u)) (z3 (Fragment.tipColor u)).
Proof.
  intros Hh. unfold Fragment.main. cbv zeta. cbn [snd].
  destruct (Fragment.baseColor u) as [br bg bb].
  destruct (Fragment.tipColor u) as [tr tg tb].
  unfold Fragment.mix3, vec4_of, xyz, add3, scale3.
  cbn [x3 y3 z3 x4 y4 z4 w4].
  split; [lra|].
  split; [intros ->; f_equal; ring|].
  split; [intros ->; f_equal; ring|].
  repeat split;
    try (apply (Rmin_Rmax_between _ _ _ (Fragment.vHeight v) Hh); reflexivity).
Qed.

Lemma fragment_color_gradient_witness :
  0 <= 0.5 <= 1 /\
  w4 (snd (Fragment.main
             (Fragment.Uniforms (Vec3 0.18 0.35 0.12) (Vec3 0.35 0.65 0.28)
                                (Vec3 0 3 10))
             (Fragment.Varyings 0.5 (Vec2 0.5 0.5) 1 (Vec3 0 0 0)
                (Vec3 0 0 1) (Vec3 0 1 0) (Vec3 1 0 0) (Vec2 1 0)
                (Vec3 0 0 0)))) = 1.
Proof.
  assert (H : 0 <= 0.5 <= 1) by lra.
  split; [exact H|].
  exact (proj1 (fragment_color_gradient
                  (Fragment.Uniforms (Vec3 0.18 0.35 0.12)
                     (Vec3 0.35 0.65 0.28) (Vec3 0 3 10))
                  (Fragment.Varyings 0.5 (Vec2 0.5 0.5) 1 (Vec3 0 0 0)
                     (Vec3 0 0 1) (Vec3 0 1 0) (Vec3 1 0 0) (Vec2 1 0)
                     (Vec3 0 0 0)) H)).
Defined.

Lemma normalize_of_unit (g : vec3) : dot3 g g = 1 -> normalize g = Some g.
Proof.
  intros Hg.
  assert (Hpos : 0 < dot3 g g) by lra.
  rewrite (normalize_defined _ Hpos). unfold length3.
  rewrite Hg, sqrt_1, Rinv_1. destruct g. unfold scale3. cbn [x3 y3 z3].
  f_equal. f_equal; ring.
Qed.

Lemma smoothstep_below (e0 e1 x : R) :
  e0 < e1 -> x <= e0 -> smoothstep e0 e1 x = 0.
Proof.
  intros He Hx. unfold smoothstep. cbv zeta.
  assert (Hq : (x - e0) / (e1 - e0) <= 0).
  { unfold Rdiv.
    assert (0 < / (e1 - e0)) by (apply Rinv_0_lt_compat; lra). nra. }
  assert (Hc : clamp ((x - e0) / (e1 - e0)) 0 1 = 0).
  { unfold clamp, Rmin, Rmax. repeat destruct Rle_dec; lra. }
  rewrite Hc. ring.
Qed.

Lemma clumpNormal_defined (toCenter : vec2) :
  exists n, normalize (Vec3 (x2 toCenter) 0.7 (y2 toCenter)) = Some n.
Proof.
  eexists. apply normalize_defined. unfold dot3. cbn [x3 y3 z3]. nra.
Qed.

Lemma mix3_zero (a b : vec3) (k : R) : k = 0 -> Fragment.mix3 a b k = a.
Proof.
  intros ->. destruct a. unfold Fragment.mix3, add3, scale3.
  cbn [x3 y3 z3]. f_equal; ring.
Qed.

(** Within 4 units of the camera, and at the blade tip at any distance, the
    lighting normal is exactly the geometric normal: the blend toward the
    clump normal has weight 0, and the clump normal itself is always
    defined. *)
Theorem fragment_normal_near (u : Fragment.uniforms) (v : Fragment.varyings) :
  length3 (sub3 (Fragment.cameraPosition u) (Fragment.vWorldPos v)) <= 4
  \/ Fragment.vHeight v = 1 ->
  fst (Fragment.main u v) = Fragment.geoNormalOf v.
Proof.
  intros Hnear. unfold Fragment.main. cbv zeta. cbn [fst].
  destruct (Fragment.geoNormalOf v) as [g|] eqn:Hg;
    cbn [mbind option_bind]; [|reflexivity].
  assert (Hgu : dot3 g g = 1).
  { unfold Fragment.geoNormalOf in Hg.
    destruct (normalize (Fragment.vSide v)); cbn [mbind option_bind] in Hg;
      [|discriminate].
    destruct (normalize (Fragment.vN v)); cbn [mbind option_bind] in Hg;
      [|discriminate].
    cbv zeta in Hg. apply (normalize_unit _ _ Hg). }
  unfold Fragment.computeLightingNormal.
  destruct (clumpNormal_defined (Fragment.vToCenter v)) as [cn Hcn].
  rewrite Hcn. cbn [mbind option_bind]. cbv zeta.
  rewrite mix3_zero; [apply normalize_of_unit; exact Hgu|].
  destruct Hnear as [Hd|Ht].
  - rewrite smoothstep_below by lra. ring.
  - rewrite Ht, pow_tip. ring.
Qed.

Lemma fragment_normal_near_witness :
  (length3 (sub3 (Vec3 0 1 2) (Vec3 0 0 0)) <= 4 \/ 1 = 1) /\
  fst (Fragment.main
         (Fragment.Uniforms (Vec3 0.18 0.35 0.12) (Vec3 0.35 0.65 0.28)
                            (Vec3 0 1 2))
         (Fragment.Varyings 1 (Vec2 0.5 0.5) 1 (Vec3 0 0 0)
            (Vec3 0 0 1) (Vec3 0 1 0) (Vec3 1 0 0) (Vec2 1 0) (Vec3 0 0 0)))
  = Fragment.geoNormalOf
      (Fragment.Varyings 1 (Vec2 0.5 0.5) 1 (Vec3 0 0 0)
         (Vec3 0 0 1) (Vec3 0 1 0) (Vec3 1 0 0) (Vec2 1 0) (Vec3 0 0 0)).
Proof.
  split; [right; reflexivity|].
  apply (fragment_normal_near
           (Fragment.Uniforms (Vec3 0.18 0.35 0.12) (Vec3 0.35 0.65 0.28)
                              (Vec3 0 1 2))
           (Fragment.Varyings 1 (Vec2 0.5 0.5) 1 (Vec3 0 0 0)
              (Vec3 0 0 1) (Vec3 0 1 0) (Vec3 1 0 0) (Vec2 1 0) (Vec3 0 0 0))).
  right. reflexivity.
Defined.

Lemma smoothstep_range (e0 e1 x : R) : 0 <= smoothstep e0 e1 x <= 1.
Proof.
  unfold smoothstep. cbv zeta.
  pose proof (clamp_bounds ((x - e0) / (e1 - e0)) 0 1 ltac:(lra)) as Ht.
  set (t := clamp ((x - e0) / (e1 - e0)) 0 1) in *.
  pose proof (smooth_mono 0 t (Rle_refl 0) (proj1 Ht) (proj2 Ht)).
  pose proof (smooth_mono t 1 (proj1 Ht) (proj2 Ht) (Rle_refl 1)).
  lra.
Qed.

Lemma smoothstep_half : smoothstep (Ropp 0.2) 0.2 0 = 0.5.
Proof.
  unfold smoothstep. cbv zeta.
  replace ((0 - Ropp 0.2) / (0.2 - Ropp 0.2)) with 0.5
    by (symmetry; apply Rdiv_eq; lra).
  assert (Hc : clamp 0.5 0 1 = 0.5)
    by (unfold clamp, Rmin, Rmax; repeat destruct Rle_dec; lra).
  rewrite Hc. lra.
Qed.

Lemma nyOf_zero : Fragment.nyOf 0 = 0.
Proof.
  unfold Fragment.nyOf. cbv zeta.
  rewrite Rabs_R0, smoothstep_half.
  rewrite smoothstep_below by lra. unfold mix. lra.
Qed.

(** The rim and midrib profile that bends the normal across the blade stays
    within [-1, 1] and is 0 on the centre line of the blade. *)
Theorem rim_profile_range (u : R) :
  - 1 <= Fragment.nyOf u <= 1 /\ Fragment.nyOf 0 = 0.
Proof.
  split; [|exact nyOf_zero].
  unfold Fragment.nyOf. cbv zeta.
  pose proof (smoothstep_range (Ropp 0.2) 0.2 u) as Hm.
  pose proof (smoothstep_range 0.42 (0.42 + 0.2) (Rabs u)) as Hr.
  unfold mix. nra.
Qed.

(** On the centre line of the blade (vUv.x = 0.5) the geometric normal is
    the normalised interpolated normal: the side vector contributes
    nothing. *)
Theorem centre_line_normal (v : Fragment.varyings) (S : vec3) :
  normalize (Fragment.vSide v) = Some S ->
  x2 (Fragment.vUv v) = 0.5 ->
  Fragment.geoNormalOf v = normalize (Fragment.vN v).
Proof.
  intros HS Hu. unfold Fragment.geoNormalOf. cbv zeta.
  rewrite HS. cbn [mbind option_bind].
  destruct (normalize (Fragment.vN v)) as [bn|] eqn:Hbn;
    cbn [mbind option_bind]; [|reflexivity].
  replace (x2 (Fragment.vUv v) - 0.5) with 0 by lra.
  rewrite nyOf_zero.
  rewrite scale3_zero, scale3_of_zero.
  replace (add3 bn (Vec3 0 0 0)) with bn
    by (destruct bn; unfold add3; cbn [x3 y3 z3]; f_equal; ring).
  apply normalize_of_unit. apply (normalize_unit _ _ Hbn).
Qed.

Lemma centre_line_normal_witness :
  Fragment.geoNormalOf
    (Fragment.Varyings 0 (Vec2 0.5 0) 1 (Vec3 0 0 0) (Vec3 0 0 1) (Vec3 0 1 0)
                       (Vec3 1 0 0) (Vec2 1 0) (Vec3 0 0 0))
  = normalize (Vec3 0 0 1).
Proof.
  apply (centre_line_normal
           (Fragment.Varyings 0 (Vec2 0.5 0) 1 (Vec3 0 0 0) (Vec3 0 0 1)
                              (Vec3 0 1 0) (Vec3 1 0 0) (Vec2 1 0)
                              (Vec3 0 0 0))
           (Vec3 1 0 0)).
  - cbn [Fragment.vSide]. apply normalize_of_unit.
    unfold dot3; cbn [x3 y3 z3]; lra.
  - reflexivity.
Defined.

(** ** Instance layout with fewer blades than grid cells *)

Section LayoutBreak.

Variable G : nat.
Variable B : nat.
Variable P : R.

Lemma geometryBody_invB (x z : nat) (g : Layout.geometry) :
  (z < G)%nat -> (x * G + z < B)%nat ->
  geometryInvB G B P (x * G + z) g ->
  geometryInvB G B P (x * G + z + 1) (Layout.geometryBody G P x z g).
Proof.
  intros Hz HB (Hi & Hid & Hlo & Hli & Hm).
  unfold geometryInvB, Layout.geometryBody.
  cbn [Layout.offsets Layout.instanceIds Layout.i Layout.idIdx
       Layout.geometryJitter].
  rewrite !length_insert, Hi, Hid.
  split; [lia|]. split; [lia|]. split; [lia|]. split; [lia|].
  intros m Hlt.
  destruct (decide (m = x * G + z)%nat) as [->|Hne].
  - destruct (cell_index G x z Hz) as [-> ->].
    repeat split; lookup_insert; reflexivity.
  - destruct (Hm m) as (H1 & H2 & H3 & H4); [lia|].
    repeat split; lookup_insert; assumption.
Qed.

Lemma geometryInner_invB (x : nat) (len z0 : nat) (g : Layout.geometry) :
  (z0 + len <= G)%nat ->
  geometryInvB G B P (Nat.min (x * G + z0) B) g ->
  geometryInvB G B P (Nat.min (x * G + z0 + len) B)
               (Layout.geometryInner G B P x (seq z0 len) g).
Proof.
  revert z0 g.
  induction len as [|len IH]; intros z0 g Hle Hinv; simpl.
  - rewrite Nat.add_0_r. exact Hinv.
  - destruct (Nat.leb_spec B (x * G + z0)) as [Hbreak|Hgo].
    + rewrite Nat.min_r in Hinv by lia. rewrite Nat.min_r by lia.
      exact Hinv.
    + replace (x * G + z0 + S len)%nat with (x * G + S z0 + len)%nat by lia.
      apply IH; [lia|].
      rewrite Nat.min_l in Hinv by lia. rewrite Nat.min_l by lia.
      replace (x * G + S z0)%nat with (x * G + z0 + 1)%nat by lia.
      apply geometryBody_invB; [lia | exact Hgo | exact Hinv].
Qed.

Lemma geometryOuter_invB (n : nat) (g : Layout.geometry) :
  geometryInvB G B P 0 g ->
  geometryInvB G B P (Nat.min (n * G) B)
    (fold_left (fun g x => Layout.geometryInner G B P x (seq 0 G) g)
               (seq 0 n) g).
Proof.
  intros Hinv. induction n as [|n IH].
  - exact Hinv.
  - rewrite seq_S, fold_left_app. simpl.
    replace (G + n * G)%nat with (n * G + 0 + G)%nat by lia.
    apply geometryInner_invB; [lia|].
    rewrite Nat.add_0_r. exact IH.
Qed.

Lemma createGrassGeometry_invB :
  (B <= G * G)%nat ->
  geometryInvB G B P B (Layout.createGrassGeometry G B P).
Proof.
  intros HB. unfold Layout.createGrassGeometry.
  pose proof (geometryOuter_invB G
                {| Layout.offsets := replicate (B * 3) 0;
                   Layout.instanceIds := replicate B 0;
                   Layout.i := 0%nat; Layout.idIdx := 0%nat |}) as H.
  rewrite (Nat.min_r (G * G) B HB) in H. apply H.
  unfold geometryInvB. simpl. rewrite !length_replicate.
  repeat split; try lia.
Qed.

End LayoutBreak.

(** [createGrassGeometry] with any blade count [B] up to the number of grid
    cells fills both arrays exactly: the write cursors end at [3 * B] and
    [B], and every instance [k < B] carries the position of grid cell
    [(k / G, k mod G)] with height 0 and its own index as id.  The [break]
    stops the writes at the blade count. *)
Theorem blade_count_respected (G B : nat) (P : R) (k : nat) :
  (B <= G * G)%nat -> (k < B)%nat ->
  let g := Layout.createGrassGeometry G B P in
  Layout.i g = (3 * B)%nat /\ Layout.idIdx g = B /\
  length (Layout.offsets g) = (3 * B)%nat /\
  Layout.instanceOffset g k
  = Some (Vec3 (cellX G P (k / G) (k mod G)) 0 (cellZ G P (k / G) (k mod G)))
  /\ Layout.instanceId g k = Some (INR k).
Proof.
  intros HB Hk g.
  destruct (createGrassGeometry_invB G B P HB) as (Hi & Hid & Hlo & _ & Hm).
  fold g in Hi, Hid, Hlo, Hm.
  destruct (Hm k Hk) as (H1 & H2 & H3 & H4).
  split; [exact Hi|]. split; [exact Hid|]. split; [lia|].
  unfold Layout.instanceOffset, Layout.instanceId.
  rewrite H1, H2, H3. split; [reflexivity | exact H4].
Qed.

Lemma blade_count_respected_witness :
  let g := Layout.createGrassGeometry 2 3 8 in
  Layout.i g = (3 * 3)%nat /\ Layout.idIdx g = 3%nat /\
  length (Layout.offsets g) = (3 * 3)%nat /\
  Layout.instanceOffset g 2
  = Some (Vec3 (cellX 2 8 (2 / 2) (2 mod 2)) 0 (cellZ 2 8 (2 / 2) (2 mod 2)))
  /\ Layout.instanceId g 2 = Some (INR 2).
Proof. apply (blade_count_respected 2 3 8 2); lia. Defined.

(** ** Clump profile computed in the vertex stage *)

Lemma presence_same (d r : R) :
  snd (VertexClump.profile d r) = Compute.presenceOf d r.
Proof.
  unfold VertexClump.profile, Compute.presenceOf, smoothstep.
  cbv zeta. cbn [snd].
  set (c := clamp (d / r) 0.0 1.0).
  assert (Hc : clamp ((c - 0.7) / (1.0 - 0.7)) 0 1
               = clamp ((c - 0.7) / (1.0 - 0.7)) 0.0 1.0).
  { unfold clamp. f_equal; [|lra]. f_equal. lra. }
  rewrite Hc. lra.
Qed.

(** The variant that evaluates the clump profile in the vertex stage agrees
    with the parameter pass: the centre it recomputes from the cell id lies at
    the distance the clump locator returned, its presence is the presence the
    parameter pass stores, and its height factor stays in [0.3, 1.3]. *)
Theorem vertex_profile_agrees (clumpSize clumpRadius : R) (worldXZ : vec2) :
  0 < clumpSize ->
  let info := Compute.getClumpInfo clumpSize worldXZ in
  let dist := x3 info in
  let cellId := Vec2 (y3 info) (z3 info) in
  length2 (sub2 (VertexClump.getClumpCenterWorld clumpSize cellId) worldXZ)
  = dist /\
  snd (VertexClump.profile dist clumpRadius)
  = Compute.presenceOf dist clumpRadius /\
  0.3 <= fst (VertexClump.profile dist clumpRadius) <= 1.3.
Proof.
  intros Hcs info dist cellId.
  split; [|split].
  - destruct (getClumpInfo_spec clumpSize worldXZ)
      as (l1 & ij & l2 & _ & Hinfo & _).
    cbv zeta in Hinfo.
    set (best := Compute.neighborCellOf
                   (floor2 (div2 worldXZ clumpSize)) ij) in *.
    assert (Hcell : cellId = best).
    { unfold cellId, info. rewrite Hinfo. cbn [y3 z3]. destruct best.
      reflexivity. }
    unfold VertexClump.getClumpCenterWorld. cbv zeta.
    unfold dist, info. rewrite Hcell, Hinfo. cbn [x3].
    rewrite length2_opp. symmetry. apply world_distance. exact Hcs.
  - apply presence_same.
  - unfold VertexClump.profile. cbv zeta. cbn [fst].
    pose proof (clamp_unit (dist / clumpRadius)) as Hc.
    unfold mix. nra.
Qed.

Lemma vertex_profile_agrees_witness :
  let info := Compute.getClumpInfo 1 (Vec2 0 0) in
  let dist := x3 info in
  let cellId := Vec2 (y3 info) (z3 info) in
  length2 (sub2 (VertexClump.getClumpCenterWorld 1 cellId) (Vec2 0 0))
  = dist /\
  snd (VertexClump.profile dist 1) = Compute.presenceOf dist 1 /\
  0.3 <= fst (VertexClump.profile dist 1) <= 1.3.
Proof. apply (vertex_profile_agrees 1 1 (Vec2 0 0)). lra. Defined.

(** Blades are tallest at the clump centre and shortest at its rim: the
    height factor is 1.3 at distance 0, 0.3 from the clump radius outwards,
    and never grows with the distance. *)
Theorem height_factor_falloff (clumpRadius d1 d2 : R) :
  0 < clumpRadius -> d1 <= d2 ->
  fst (VertexClump.profile d2 clumpRadius)
  <= fst (VertexClump.profile d1 clumpRadius) /\
  fst (VertexClump.profile 0 clumpRadius) = 1.3 /\
  (clumpRadius <= d2 -> fst (VertexClump.profile d2 clumpRadius) = 0.3).
Proof.
  intros HR Hd. unfold VertexClump.profile. cbv zeta. cbn [fst].
  assert (HiR : 0 < / clumpRadius) by (apply Rinv_0_lt_compat; exact HR).
  split; [|split].
  - assert (Hq : d1 / clumpRadius <= d2 / clumpRadius).
    { unfold Rdiv. apply Rmult_le_compat_r; lra. }
    pose proof (clamp_mono _ _ 0.0 1.0 Hq). unfold mix. lra.
  - replace (0 / clumpRadius) with 0 by (unfold Rdiv; ring).
    assert (Hc : clamp 0 0.0 1.0 = 0)
      by (unfold clamp, Rmin, Rmax; repeat destruct Rle_dec; lra).
    rewrite Hc. unfold mix. lra.
  - intros Hfar.
    assert (Hq : 1 <= d2 / clumpRadius).
    { replace 1 with (clumpRadius / clumpRadius) by (field; lra).
      unfold Rdiv. apply Rmult_le_compat_r; lra. }
    assert (Hc : clamp (d2 / clumpRadius) 0.0 1.0 = 1)
      by (unfold clamp, Rmin, Rmax; repeat destruct Rle_dec; lra).
    rewrite Hc. unfold mix. lra.
Qed.

Lemma height_factor_falloff_witness :
  fst (VertexClump.profile 2 1) <= fst (VertexClump.profile 0 1) /\
  fst (VertexClump.profile 0 1) = 1.3 /\
  (1 <= 2 -> fst (VertexClump.profile 2 1) = 0.3).
Proof. apply (height_factor_falloff 1 0 2); lra. Defined.

(** ** Blades outside their clump *)

(** A blade whose stored presence is 0, drawn with the thickness tilt switched
    off, has no width: the position and the world position written by the
    deformer do not depend on uv.x, so the blade collapses onto its spine. *)
Theorem absent_blade_has_no_width
    (fbm2 : vec2 -> R -> R) (rotate2D : vec2 -> R -> vec2)
    (u : Vertex.uniforms) (blade clump : Z * Z -> vec4)
    (instanceOffset : vec3) (instanceId a b t : R) :
  z4 (clump (Vertex.texelCoordOf (Vertex.uGrassTextureSize u) instanceId))
  = 0 ->
  Vertex.thicknessStrength u = 0 ->
  let placed (o : Vertex.outputs) :=
    (Vertex.csm_Position o, Vertex.vWorldPos o) in
  placed <$> Vertex.main fbm2 rotate2D u blade clump instanceOffset
                         instanceId (Vec2 a t)
  = placed <$> Vertex.main fbm2 rotate2D u blade clump instanceOffset
                           instanceId (Vec2 b t).
Proof.
  intros Hp Hth placed. unfold Vertex.main. cbv zeta. cbn [x2 y2].
  rewrite Hp, Hth.
  destruct (Vertex.tangentOf _ t) as [tangent|]; cbn [mbind option_bind];
    [|reflexivity].
  destruct (Vertex.frameTBN tangent) as [[side normal]|];
    cbn [mbind option_bind]; [|reflexivity].
  rewrite !scale3_zero.
  repeat match goal with
         | |- context [mbind _ (normalize ?v)] =>
             destruct (normalize v);
             cbn [mbind option_bind fmap option_fmap option_map];
             [|reflexivity]
         end.
  unfold placed. cbn [Vertex.csm_Position Vertex.vWorldPos].
  rewrite !Rmult_0_l, !scale3_zero. reflexivity.
Qed.

Lemma absent_blade_has_no_width_witness :
  let u := Vertex.Uniforms (Vec2 256 256) 0 0 (Vec2 1 0) 0.6 0.5 0.25
                           Example.identity4 (Vec3 0 3 10) in
  let clump := fun _ : Z * Z => Vec4 1 0 0 0 in
  let placed (o : Vertex.outputs) :=
    (Vertex.csm_Position o, Vertex.vWorldPos o) in
  placed <$> Vertex.main Example.fbm2 Example.rotate2D u Example.bladeTexel
                         clump (Vec3 0 0 0) 0 (Vec2 0 0.5)
  = placed <$> Vertex.main Example.fbm2 Example.rotate2D u Example.bladeTexel
                           clump (Vec3 0 0 0) 0 (Vec2 1 0.5).
Proof.
  intros u clump.
  apply (absent_blade_has_no_width Example.fbm2 Example.rotate2D u
           Example.bladeTexel clump (Vec3 0 0 0) 0 0 1 0.5); reflexivity.
Defined.
